(** * Resume screening: extraction rules and scoring engine

  A shallow embedding of [nlp_extractor.py] (class [NLPExtractor]) and
  [scoring_engine.py] (class [ScoringEngine]), and the properties of
  their specification checked against it.

  Modelling choices.
  - A Python [str] is a [string]; an ASCII character is one [ascii],
    and a character outside ASCII is the sequence of its UTF-8 bytes.
    The character classes and case mappings are Python's on the ASCII
    range; a byte above 127 is an opaque symbol (not a space, digit,
    letter or word character).  The model is exact on ASCII text.
  - A Python number is a rational [Q]: arithmetic is exact, and only
    finite numbers are represented.  Equality of numbers is [Qeq].
    The weights of [adjust_weights] are modelled a second time as the
    code computes them, in binary64 (module [Binary64]): whether they
    sum to 1 depends on the rounding.
  - A [dict] with string keys is a [gmap string value]; [value] is the
    tagged union of the Python values that occur.
  - An exception is a constructor of [exn]; code that may raise
    returns a [result].
  - The other rules of [NLPExtractor], [process_resume] and
    [validate_extracted_data] of [resume_processor.py] and the pure
    functions of [utils.py] are modelled in the same way.  What the
    program takes from outside is an argument: the spaCy model, which
    gives the entities of a text or raises; [float] on a [str]; and
    [list(set(xs))], whose order Python does not fix. *)

From Stdlib Require Import Ascii QArith Qminmax Qround Lia Lqa.
From Stdlib Require Floats.
From stdpp Require Import gmap strings list sorting.

(** ** Text: the [str] methods used by the program *)

Module Text.

Definition code (c : ascii) : N := N_of_ascii c.

Definition between (lo hi : N) (c : ascii) : bool :=
  ((lo <=? code c) && (code c <=? hi))%N.

(** [str.isspace] on one character, which is also the class [\s]:
    tab, line feed, vertical tab, form feed, carriage return, the four
    separators 0x1c-0x1f and the space. *)
Definition isspace (c : ascii) : bool := between 9 13 c || between 28 32 c.

(** The class [\d]. *)
Definition isdigit (c : ascii) : bool := between 48 57 c.

Definition isupper (c : ascii) : bool := between 65 90 c.
Definition islower (c : ascii) : bool := between 97 122 c.

(** The class [\w]: letters, digits and the underscore. *)
Definition isword (c : ascii) : bool :=
  isdigit c || isupper c || islower c || (code c =? 95)%N.

Definition lower_char (c : ascii) : ascii :=
  if isupper c then ascii_of_N (code c + 32) else c.
Definition upper_char (c : ascii) : ascii :=
  if islower c then ascii_of_N (code c - 32) else c.

(** [s.lower()] *)
Fixpoint lower (s : string) : string :=
  match s with
  | EmptyString => EmptyString
  | String c s' => String (lower_char c) (lower s')
  end.

(** [s.title()]: a cased character is upper-cased when the character
    before it is not cased, and lower-cased when it is. *)
Fixpoint title_go (previous_is_cased : bool) (s : string) : string :=
  match s with
  | EmptyString => EmptyString
  | String c s' =>
      if islower c || isupper c
      then String (if previous_is_cased then lower_char c else upper_char c)
                  (title_go true s')
      else String c (title_go false s')
  end.
Definition title (s : string) : string := title_go false s.

(** [s.lstrip()], [s.rstrip()], [s.strip()] *)
Fixpoint lstrip (s : string) : string :=
  match s with
  | EmptyString => EmptyString
  | String c s' => if isspace c then lstrip s' else s
  end.
Fixpoint rstrip (s : string) : string :=
  match s with
  | EmptyString => EmptyString
  | String c s' =>
      match rstrip s' with
      | EmptyString => if isspace c then EmptyString else String c EmptyString
      | r => String c r
      end
  end.
Definition strip (s : string) : string := rstrip (lstrip s).

(** [needle in hay] on strings: [needle] is a prefix of some suffix. *)
Fixpoint contains (needle hay : string) : bool :=
  String.prefix needle hay ||
  match hay with
  | EmptyString => false
  | String _ hay' => contains needle hay'
  end.

(** [set(s)]: the set of the characters of [s]. *)
Fixpoint chars (s : string) : gset ascii :=
  match s with
  | EmptyString => ∅
  | String c s' => {[ c ]} ∪ chars s'
  end.

(** [s[:n]] *)
Fixpoint take (n : nat) (s : string) : string :=
  match n, s with
  | S n', String c s' => String c (take n' s')
  | _, _ => EmptyString
  end.

(** [x in xs] on a list of strings. *)
Definition mem (x : string) (xs : list string) : bool :=
  existsb (String.eqb x) xs.

End Text.

(** ** Regular expressions: the fragment of [re] the program uses *)

Module Re.

(** Patterns.  [Cls f] is one character of a class ([\d], [\s], a
    bracket class or a literal), [Opt] and [Star] are the greedy [?]
    and [*], [Grp] is the one capturing group a pattern of this
    program has, [WordB] is [\b]. *)
Inductive regex : Type :=
| Eps : regex
| Cls : (ascii → bool) → regex
| Seq : regex → regex → regex
| Opt : regex → regex
| Star : regex → regex
| Grp : regex → regex
| WordB : regex.

Definition chr (c : ascii) : regex := Cls (Ascii.eqb c).
Definition plus (r : regex) : regex := Seq r (Star r).

(** [r{n}] and the greedy [r{0,n}], [r{lo,hi}]. *)
Fixpoint times (n : nat) (r : regex) : regex :=
  match n with
  | O => Eps
  | S n' => Seq r (times n' r)
  end.
Fixpoint upto (n : nat) (r : regex) : regex :=
  match n with
  | O => Eps
  | S n' => Opt (Seq r (upto n' r))
  end.
Definition range (lo hi : nat) (r : regex) : regex :=
  Seq (times lo r) (upto (hi - lo) r).

(** [re.escape(s)]: the pattern that matches [s] literally. *)
Fixpoint escape (s : string) : regex :=
  match s with
  | EmptyString => Eps
  | String c s' => Seq (chr c) (escape s')
  end.

(** A match in progress: the character before the position (for
    [\b]), the text from the position on, and the text captured by the
    group, if it took part. *)
Definition found : Type := string * option string.
Definition cont : Type := option ascii → string → option string → option found.

Definition isword_at (c : option ascii) : bool :=
  match c with Some a => Text.isword a | None => false end.
Definition next_char (s : string) : option ascii :=
  match s with EmptyString => None | String a _ => Some a end.

(** The iterations of a greedy [*]: [step] matches the body once.  An
    iteration must consume a character, so [n], the length of the text
    at the start, bounds their number. *)
Fixpoint star_loop (step : option ascii → string → option string → cont → option found)
         (k : cont) (n : nat) (p : option ascii) (s : string) (g : option string)
  : option found :=
  match n with
  | O => k p s g
  | S n' =>
      match step p s g
              (λ p' s' g',
                 if (String.length s' <? String.length s)%nat
                 then star_loop step k n' p' s' g' else None) with
      | Some x => Some x
      | None => k p s g
      end
  end.

(** The backtracking matcher, in continuation-passing style: the first
    alternative tried is the greedy one, and the second is tried only
    when the rest of the pattern fails after the first. *)
Fixpoint run (r : regex) (p : option ascii) (s : string) (g : option string)
         (k : cont) {struct r} : option found :=
  match r with
  | Eps => k p s g
  | Cls f =>
      match s with
      | String a s' => if f a then k (Some a) s' g else None
      | EmptyString => None
      end
  | Seq r1 r2 => run r1 p s g (λ p' s' g', run r2 p' s' g' k)
  | Opt r1 =>
      match run r1 p s g k with
      | Some x => Some x
      | None => k p s g
      end
  | Star r1 => star_loop (run r1) k (String.length s) p s g
  | Grp r1 =>
      run r1 p s g
        (λ p' s' _,
           k p' s' (Some (Text.take (String.length s - String.length s') s)))
  | WordB =>
      if xorb (isword_at p) (isword_at (next_char s)) then k p s g else None
  end.

(** The end of a pattern: the match is the text passed so far. *)
Definition accept : cont := λ _ s' g, Some (s', g).

(** One match attempt at the current position: the text after the
    match and the group. *)
Definition match_here (r : regex) (p : option ascii) (s : string)
  : option found :=
  run r p s None accept.

(** The text of the group in a match, [''] when it took no part. *)
Definition group1 (g : option string) : string := default EmptyString g.

(** [re.findall(r, s)] for a pattern with one group: the group of
    each match, scanning from the left without overlap.  [skip] counts
    the characters of the last match still to pass.  (No pattern of
    this program matches the empty string; after such a match the scan
    moves one character on.) *)
Fixpoint findall_from (r : regex) (p : option ascii) (skip : nat) (s : string)
  : list string :=
  match skip, s with
  | S n, String a s' => findall_from r (Some a) n s'
  | S _, EmptyString => []
  | O, _ =>
      match match_here r p s with
      | Some (s', g) =>
          group1 g ::
            match s with
            | String a t =>
                findall_from r (Some a)
                  (String.length s - String.length s' - 1) t
            | EmptyString => []
            end
      | None =>
          match s with
          | String a t => findall_from r (Some a) O t
          | EmptyString => []
          end
      end
  end.
Definition findall (r : regex) (s : string) : list string :=
  findall_from r None O s.

(** [re.search(r, s)] as a truth value. *)
Fixpoint search_from (r : regex) (p : option ascii) (s : string) : bool :=
  match match_here r p s with
  | Some _ => true
  | None =>
      match s with
      | String a t => search_from r (Some a) t
      | EmptyString => false
      end
  end.
Definition search (r : regex) (s : string) : bool := search_from r None s.

(** [re.sub(r, repl, s)] for a replacement without group references. *)
Fixpoint sub_from (r : regex) (repl : string) (p : option ascii) (skip : nat)
         (s : string) : string :=
  match skip, s with
  | S n, String a s' => sub_from r repl (Some a) n s'
  | S _, EmptyString => EmptyString
  | O, _ =>
      match match_here r p s with
      | Some (s', _) =>
          repl +:+
            match s with
            | String a t =>
                match (String.length s - String.length s')%nat with
                | O => String a (sub_from r repl (Some a) O t)
                | S n => sub_from r repl (Some a) n t
                end
            | EmptyString => EmptyString
            end
      | None =>
          match s with
          | String a t => String a (sub_from r repl (Some a) O t)
          | EmptyString => EmptyString
          end
      end
  end.
Definition sub (r : regex) (repl : string) (s : string) : string :=
  sub_from r repl None O s.

(** The classes of the patterns below. *)
Definition d : regex := Cls Text.isdigit.
Definition s : regex := Cls Text.isspace.
(** [[-.\s]] *)
Definition sep : regex :=
  Cls (λ c, Ascii.eqb c "-" || Ascii.eqb c "." || Text.isspace c).

End Re.

(** ** [nlp_extractor.py]: class [NLPExtractor] *)

Module NLPExtractor.
Import Re.

(** [_load_skill_keywords] *)
Definition skill_keywords : list string :=
  [ "python"; "java"; "javascript"; "typescript"; "c++"; "c#"; "php"; "ruby";
    "go"; "rust"; "swift"; "kotlin"; "scala"; "r"; "matlab"; "perl"; "shell";
    "bash"; "powershell";
    "html"; "css"; "react"; "angular"; "vue"; "node.js"; "express"; "django";
    "flask"; "spring"; "laravel"; "rails"; "asp.net"; "jquery"; "bootstrap";
    "sass"; "less";
    "sql"; "mysql"; "postgresql"; "oracle"; "mongodb"; "redis";
    "elasticsearch"; "cassandra"; "dynamodb"; "sqlite"; "mariadb";
    "aws"; "azure"; "gcp"; "docker"; "kubernetes"; "jenkins"; "git"; "gitlab";
    "github"; "terraform"; "ansible"; "chef"; "puppet"; "ci/cd"; "devops";
    "machine learning"; "deep learning"; "artificial intelligence";
    "data science"; "pandas"; "numpy"; "scikit-learn"; "tensorflow";
    "pytorch"; "keras"; "opencv"; "nlp"; "computer vision"; "statistics";
    "data analysis"; "big data"; "hadoop"; "spark";
    "android"; "ios"; "react native"; "flutter"; "xamarin"; "cordova";
    "ionic";
    "microservices"; "api"; "rest"; "graphql"; "soap"; "json"; "xml"; "agile";
    "scrum"; "kanban"; "jira"; "confluence"; "slack"; "linux"; "windows";
    "macos";
    "communication"; "leadership"; "teamwork"; "problem solving";
    "analytical thinking"; "project management"; "time management";
    "adaptability"; "creativity"; "innovation" ].

(** [_load_education_keywords]: the dict, in the order it is written
    (the order a Python dict is iterated in). *)
Definition education_keywords : list (string * Z) :=
  [ ("phd", 4); ("doctorate", 4); ("ph.d", 4);
    ("master", 3); ("masters", 3); ("mba", 3); ("ms", 3); ("ma", 3);
    ("m.s", 3); ("m.a", 3);
    ("bachelor", 2); ("bachelors", 2); ("bs", 2); ("ba", 2); ("b.s", 2);
    ("b.a", 2); ("be", 2); ("b.e", 2);
    ("associate", 1); ("diploma", 1); ("certificate", 1);
    ("high school", 0); ("secondary", 0); ("graduation", 0) ]%Z.

(** [_clean_text]: [re.sub(r'\s+', ' ', text)], then [strip()]. *)
Definition _clean_text (text : string) : string :=
  let text := Re.sub (plus s) " " text in
  let text := Text.strip text in
  text.

(** The concatenation of the parts of a pattern. *)
Definition cat (rs : list regex) : regex := foldr Seq Eps rs.

(** The optional group all three phone patterns start with:
    [(\+\d{1,3}[-.\s]?)?] *)
Definition country_code : regex :=
  Opt (Grp (cat [chr "+"; range 1 3 d; Opt sep])).

Definition phone_patterns : list regex :=
  [ (* (\+\d{1,3}[-.\s]?)?\(?\d{3}\)?[-.\s]?\d{3}[-.\s]?\d{4} *)
    cat [country_code; Opt (chr "("); times 3 d; Opt (chr ")"); Opt sep;
         times 3 d; Opt sep; times 4 d];
    (* (\+\d{1,3}[-.\s]?)?\d{3}[-.\s]?\d{3}[-.\s]?\d{4} *)
    cat [country_code; times 3 d; Opt sep; times 3 d; Opt sep; times 4 d];
    (* (\+\d{1,3}[-.\s]?)?\d{10} *)
    cat [country_code; times 10 d] ].

(** [_extract_phone].  A pattern with one group makes [re.findall]
    return the list of the group's texts, so [phones[0]] is a [str]
    and is returned as it is. *)
Fixpoint _extract_phone_loop (patterns : list regex) (text : string) : string :=
  match patterns with
  | [] => "Phone not found"
  | pattern :: patterns' =>
      match Re.findall pattern text with
      | phone :: _ => phone
      | [] => _extract_phone_loop patterns' text
      end
  end.
Definition _extract_phone (text : string) : string :=
  _extract_phone_loop phone_patterns text.

(** The test of one vocabulary entry in [_extract_skills]:
    [re.search(r'\b' + re.escape(skill.lower()) + r'\b', text_lower)] *)
Definition skill_in_text (text_lower skill : string) : bool :=
  Re.search (cat [WordB; escape (Text.lower skill); WordB]) text_lower.

(** [_extract_skills].  [list(set(found_skills))] lists the distinct
    entries in an order of its own; sorting them gives one result
    whatever that order is. *)
Definition _extract_skills (text : string) : list string :=
  let text_lower := Text.lower text in
  let found_skills :=
    Text.title <$> filter (λ skill, skill_in_text text_lower skill = true)
                          skill_keywords in
  let found_skills := elements (list_to_set found_skills : gset string) in
  let found_skills := merge_sort String.le found_skills in
  take 50 found_skills.

(** [_format_education_level] *)
Definition _format_education_level (level : Z) : string :=
  match level with
  | 0 => "High School"
  | 1 => "Certificate/Diploma"
  | 2 => "Bachelor's Degree"
  | 3 => "Master's Degree"
  | 4 => "PhD"
  | _ => "Not specified"
  end%Z.

(** [_extract_education]: the loop over the keyword table carries
    [(highest_level, highest_education)]. *)
Definition _extract_education_step (text_lower : string)
           (st : Z * string) (entry : string * Z) : Z * string :=
  let '(highest_level, highest_education) := st in
  let '(education, level) := entry in
  if Text.contains education text_lower then
    if (highest_level <? level)%Z
    then (level, _format_education_level level)
    else st
  else st.
Definition _extract_education (text : string) : string :=
  let text_lower := Text.lower text in
  snd (foldl (_extract_education_step text_lower)
             (0%Z, "Not specified") education_keywords).

End NLPExtractor.

(** ** Python values, dicts and exceptions *)

Module Py.

Inductive exn : Type := TypeError | ValueError | AttributeError.

(** The outcome of code that may raise. *)
Inductive result (A : Type) : Type :=
| Ok : A → result A
| Raise : exn → result A.
Global Arguments Ok {A} _.
Global Arguments Raise {A} _.

Global Instance result_ret : MRet result := λ A x, Ok x.
Global Instance result_bind : MBind result := λ A B f m,
  match m with
  | Ok x => f x
  | Raise e => Raise e
  end.

(** The values a resume or a job profile holds: [None], a number, a
    [str], a [list]. *)
#[warnings="-register-all"] Inductive value : Type :=
| VNone : value
| VNum : Q → value
| VStr : string → value
| VList : list value → value.

(** [d.get(key, dflt)] *)
Definition get (d : gmap string value) (key : string) (dflt : value) : value :=
  default dflt (d !! key).

(** [float(v)].  What [float] makes of a [str] is left open: it is the
    argument [float_of_str]. *)
Definition float (float_of_str : string → result Q) (v : value) : result Q :=
  match v with
  | VNum q => Ok q
  | VStr s => float_of_str s
  | VNone | VList _ => Raise TypeError
  end.

(** The items a [for] loop over [v] visits: the elements of a list,
    the characters of a [str]; [None] and numbers are not iterable. *)
Definition iter (v : value) : result (list value) :=
  match v with
  | VList xs => Ok xs
  | VStr s => Ok ((λ c, VStr (String c EmptyString)) <$> String.list_ascii_of_string s)
  | VNone | VNum _ => Raise TypeError
  end.

(** [v.lower()]: only a [str] has the method. *)
Definition lower (v : value) : result string :=
  match v with
  | VStr s => Ok (Text.lower s)
  | VNone | VNum _ | VList _ => Raise AttributeError
  end.

(** [[x.lower() for x in v]] *)
Definition lower_all (v : value) : result (list string) :=
  xs ← iter v; mapM lower xs.

(** The conversion of an [int] to a number. *)
Definition of_nat (n : nat) : Q := inject_Z (Z.of_nat n).

(** Comparisons of numbers as truth values. *)
Definition ltb (x y : Q) : bool := negb (Qle_bool y x).
Definition leb (x y : Q) : bool := Qle_bool x y.

(** [round(x, 1)]: to the nearest tenth, a tie to the even one. *)
Definition round1 (x : Q) : Q :=
  let y := (x * 10)%Q in
  let f := Qfloor y in
  let r := (y - inject_Z f)%Q in
  let n :=
    if ltb r (1 # 2) then f
    else if ltb (1 # 2) r then (f + 1)%Z
    else if Z.even f then f else (f + 1)%Z in
  Qred (inject_Z n / 10).

End Py.

(** ** [scoring_engine.py]: class [ScoringEngine] *)

Module ScoringEngine.
Import Py.
Local Open Scope Q_scope.

(** [self.weights], a dict with the three keys below. *)
Record weights_t : Type := Weights {
  skills : Q;
  experience : Q;
  education : Q
}.

(** The state of an engine. *)
Record engine : Type := Engine { weights : weights_t }.

(** [__init__] *)
Definition __init__ : engine :=
  Engine (Weights 0.5 0.3 0.2).

Definition tech_families : list (string * list string) :=
  [ ("javascript", ["js"; "node.js"; "nodejs"; "react"; "angular"; "vue"]);
    ("python", ["django"; "flask"; "pandas"; "numpy"; "tensorflow"]);
    ("java", ["spring"; "hibernate"; "maven"; "gradle"]);
    ("database", ["sql"; "mysql"; "postgresql"; "oracle"; "mongodb"]);
    ("cloud", ["aws"; "azure"; "gcp"; "docker"; "kubernetes"]) ].

(** The test of one family in [_skills_similarity]. *)
Definition in_family (skill1_lower skill2_lower : string)
           (entry : string * list string) : bool :=
  let '(family, related_skills) := entry in
  (String.eqb skill1_lower family && Text.mem skill2_lower related_skills)
  || (String.eqb skill2_lower family && Text.mem skill1_lower related_skills)
  || (Text.mem skill1_lower related_skills
      && Text.mem skill2_lower related_skills).

(** [_skills_similarity] *)
Definition _skills_similarity (skill1 skill2 : string) : Q :=
  let skill1_lower := Text.lower skill1 in
  let skill2_lower := Text.lower skill2 in
  if String.eqb skill1_lower skill2_lower then 1.0
  else if Text.contains skill1_lower skill2_lower
          || Text.contains skill2_lower skill1_lower then 0.8
  else if existsb (in_family skill1_lower skill2_lower) tech_families then 0.7
  else
    let common_chars := Text.chars skill1_lower ∩ Text.chars skill2_lower in
    let total_chars := Text.chars skill1_lower ∪ Text.chars skill2_lower in
    if (0 <? size total_chars)%nat
    then of_nat (size common_chars) / of_nat (size total_chars)
    else 0.0.

(** The inner loop of the fuzzy match: the first resume skill whose
    similarity to [req_skill] exceeds 0.7, where the loop breaks. *)
Fixpoint first_similar (req_skill : string) (resume_skills : list string)
  : option string :=
  match resume_skills with
  | [] => None
  | resume_skill :: rest =>
      if ltb 0.7 (_skills_similarity req_skill resume_skill)
      then Some resume_skill
      else first_similar req_skill rest
  end.

(** The outer loop, carrying [fuzzy_matches]. *)
Fixpoint fuzzy_loop (required_skills resume_skills : list string)
         (fuzzy_matches : Q) : Q :=
  match required_skills with
  | [] => fuzzy_matches
  | req_skill :: rest =>
      if Text.mem req_skill resume_skills
      then fuzzy_loop rest resume_skills fuzzy_matches
      else
        match first_similar req_skill resume_skills with
        | Some _ => fuzzy_loop rest resume_skills (fuzzy_matches + 0.8)
        | None => fuzzy_loop rest resume_skills fuzzy_matches
        end
  end.

(** The body of [_score_skills] once both lists are lower-cased. *)
Definition score_skill_lists (resume_skills required_skills : list string) : Q :=
  match required_skills with
  | [] => 80.0
  | _ =>
      let exact_matches :=
        length (filter (λ skill, Text.mem skill resume_skills = true)
                       required_skills) in
      let exact_match_score :=
        (of_nat exact_matches / of_nat (length required_skills)) * 100 in
      let fuzzy_matches := fuzzy_loop required_skills resume_skills 0 in
      let fuzzy_match_score :=
        (fuzzy_matches / of_nat (length required_skills)) * 100 in
      let combined_score :=
        Qmin (exact_match_score + fuzzy_match_score * 0.5) 100 in
      let skill_bonus :=
        if (10 <? length resume_skills)%nat
        then Qmin (of_nat (length resume_skills) * 2) 20 else 0 in
      Qmin (combined_score + skill_bonus) 100
  end.

(** [_score_skills] *)
Definition _score_skills (resume_data job_requirements : gmap string value)
  : result Q :=
  resume_skills ← lower_all (get resume_data "skills" (VList []));
  required_skills ← lower_all (get job_requirements "required_skills" (VList []));
  mret (score_skill_lists resume_skills required_skills).

(** [_score_experience] *)
Definition _score_experience (float_of_str : string → result Q)
           (resume_data job_requirements : gmap string value) : result Q :=
  resume_experience ←
    float float_of_str (get resume_data "experience_years" (VNum 0));
  required_experience ←
    float float_of_str (get job_requirements "experience_years" (VNum 0));
  mret (if Qeq_bool required_experience 0 then 100.0
        else if leb required_experience resume_experience then
          let base_score := 100 in
          let bonus := Qmin ((resume_experience - required_experience) * 5) 20 in
          Qmin (base_score + bonus) 100
        else
          let ratio := resume_experience / required_experience in
          Qmax (ratio * 80) 10).

Definition education_levels : gmap string Z :=
  list_to_map
    [ ("High School", 1%Z); ("Certificate/Diploma", 2%Z);
      ("Bachelor's Degree", 3%Z); ("Master's Degree", 4%Z); ("PhD", 5%Z) ].

(** [education_levels.get(v, 1)]: a list is not hashable; a key that
    is not one of the five labels gives the default. *)
Definition education_level_of (v : value) : result Z :=
  match v with
  | VStr s => Ok (default 1%Z (education_levels !! s))
  | VNone | VNum _ => Ok 1%Z
  | VList _ => Raise TypeError
  end.

(** [_score_education] *)
Definition _score_education (resume_data job_requirements : gmap string value)
  : result Q :=
  let resume_education := get resume_data "education" (VStr "Not specified") in
  let required_education :=
    get job_requirements "education_level" (VStr "High School") in
  resume_level ← education_level_of resume_education;
  required_level ← education_level_of required_education;
  mret (if (required_level <=? resume_level)%Z then
          let base_score := 100%Z in
          let bonus := Z.max ((resume_level - required_level) * 10) 0 in
          inject_Z (Z.min (base_score + bonus) 100)
        else
          let ratio := inject_Z resume_level / inject_Z required_level in
          Qmax (ratio * 70) 30).

(** The result of [_analyze_skills], a dict with these three keys. *)
Record skill_analysis_t : Type := SkillAnalysis {
  matched : list string;
  missing : list string;
  additional : list string
}.

(** The first loop of [_analyze_skills], carrying
    [(matched_skills, missing_skills)]. *)
Definition analyze_required (resume_skills : list string)
           (acc : list string * list string) (req_skill : string)
  : list string * list string :=
  let '(matched_skills, missing_skills) := acc in
  if Text.mem req_skill resume_skills
  then (matched_skills ++ [Text.title req_skill], missing_skills)
  else
    match first_similar req_skill resume_skills with
    | Some resume_skill =>
        (matched_skills ++
           [Text.title resume_skill +:+ " (similar to " +:+
            Text.title req_skill +:+ ")"],
         missing_skills)
    | None => (matched_skills, missing_skills ++ [Text.title req_skill])
    end.

(** The second loop: is [resume_skill] an additional skill? *)
Definition is_additional (required_skills : list string)
           (resume_skill : string) : bool :=
  negb (Text.mem resume_skill required_skills)
  && negb (existsb (λ req_skill,
                      ltb 0.7 (_skills_similarity resume_skill req_skill))
                   required_skills).

(** [_analyze_skills] *)
Definition _analyze_skills (resume_data job_requirements : gmap string value)
  : result skill_analysis_t :=
  resume_skills ← lower_all (get resume_data "skills" (VList []));
  required_skills ← lower_all (get job_requirements "required_skills" (VList []));
  let '(matched_skills, missing_skills) :=
    foldl (analyze_required resume_skills) ([], []) required_skills in
  let additional_skills :=
    Text.title <$> filter (λ resume_skill,
                             is_additional required_skills resume_skill = true)
                          resume_skills in
  mret (SkillAnalysis matched_skills missing_skills (take 20 additional_skills)).

(** The five recommendations of [_generate_recommendation]. *)
Inductive recommendation : Type :=
| StrongMatch | GoodMatch | FairMatch | PoorMatch | VeryPoorMatch.

(** The coloured mark a label starts with (one character of the source,
    here its UTF-8 bytes), and the words that follow it. *)
Definition recommendation_mark (r : recommendation) : string :=
  match r with
  | StrongMatch => "🟢"
  | GoodMatch => "🟡"
  | FairMatch => "🟠"
  | PoorMatch | VeryPoorMatch => "🔴"
  end.
Definition recommendation_text (r : recommendation) : string :=
  match r with
  | StrongMatch => "Strong Match - Highly Recommended"
  | GoodMatch => "Good Match - Recommended"
  | FairMatch => "Fair Match - Consider with reservations"
  | PoorMatch => "Poor Match - Not recommended"
  | VeryPoorMatch => "Very Poor Match - Reject"
  end.
Definition recommendation_label (r : recommendation) : string :=
  recommendation_mark r +:+ " " +:+ recommendation_text r.

(** The band of a total score. *)
Definition recommendation_of (total_score : Q) : recommendation :=
  if leb 85 total_score then StrongMatch
  else if leb 70 total_score then GoodMatch
  else if leb 55 total_score then FairMatch
  else if leb 40 total_score then PoorMatch
  else VeryPoorMatch.

(** [_generate_recommendation] *)
Definition _generate_recommendation (total_score : Q) : string :=
  recommendation_label (recommendation_of total_score).

(** The weighted total of [score_resume], before rounding. *)
Definition weighted_total (w : weights_t)
           (skills_score experience_score education_score : Q) : Q :=
  skills_score * skills w + experience_score * experience w
  + education_score * education w.

Definition strings (xs : list string) : value := VList (VStr <$> xs).

(** [score_resume] *)
Definition score_resume (float_of_str : string → result Q) (self : engine)
           (resume_data job_requirements : gmap string value)
  : result (gmap string value) :=
  skills_score ← _score_skills resume_data job_requirements;
  experience_score ←
    _score_experience float_of_str resume_data job_requirements;
  education_score ← _score_education resume_data job_requirements;
  let total_score :=
    weighted_total (weights self) skills_score experience_score
                   education_score in
  skill_analysis ← _analyze_skills resume_data job_requirements;
  mret (list_to_map
          [ ("total_score", VNum (round1 total_score));
            ("skills_score", VNum (round1 skills_score));
            ("experience_score", VNum (round1 experience_score));
            ("education_score", VNum (round1 education_score));
            ("matched_skills", strings (matched skill_analysis));
            ("missing_skills", strings (missing skill_analysis));
            ("additional_skills", strings (additional skill_analysis));
            ("recommendation", VStr (_generate_recommendation total_score)) ]).

(** [adjust_weights] *)
Definition adjust_weights (skills_weight experience_weight education_weight : Q)
           (self : engine) : engine :=
  let total := skills_weight + experience_weight + education_weight in
  if ltb 0 total
  then Engine (Weights (skills_weight / total) (experience_weight / total)
                       (education_weight / total))
  else self.

(** The sort key of [batch_score_resumes], [x.get('total_score', 0)];
    in a scored record it is the number [score_resume] put there. *)
Definition total_score_of (x : gmap string value) : Q :=
  match get x "total_score" (VNum 0) with
  | VNum q => q
  | _ => 0
  end.

(** [xs.sort(key=total_score_of, reverse=True)]: the stable sort, in
    descending order of the key; records of equal key keep their
    order. *)
Fixpoint insert_desc (x : gmap string value) (xs : list (gmap string value))
  : list (gmap string value) :=
  match xs with
  | [] => [x]
  | y :: xs' =>
      if ltb (total_score_of x) (total_score_of y)
      then y :: insert_desc x xs'
      else x :: xs
  end.
Definition sort_desc (xs : list (gmap string value)) : list (gmap string value) :=
  foldr insert_desc [] xs.

(** One turn of the loop of [batch_score_resumes], carrying the
    scored records and the errors reported through [st.error], each
    with the file name shown and the exception. *)
Definition batch_step (float_of_str : string → result Q) (self : engine)
           (job_requirements : gmap string value)
           (acc : list (gmap string value) * list (value * exn))
           (resume : gmap string value)
  : list (gmap string value) * list (value * exn) :=
  let '(scored_resumes, errors) := acc in
  match score_resume float_of_str self resume job_requirements with
  | Ok score_data =>
      (* {**resume, **score_data}: the keys of score_data win *)
      let scored_resume := score_data ∪ resume in
      (scored_resumes ++ [scored_resume], errors)
  | Raise e =>
      (scored_resumes,
       errors ++ [(get resume "filename" (VStr "Unknown"), e)])
  end.

(** [batch_score_resumes]: the sorted records, and the errors
    reported. *)
Definition batch_score_resumes (float_of_str : string → result Q)
           (self : engine) (resumes : list (gmap string value))
           (job_requirements : gmap string value)
  : list (gmap string value) * list (value * exn) :=
  let '(scored_resumes, errors) :=
    foldl (batch_step float_of_str self job_requirements) ([], []) resumes in
  (sort_desc scored_resumes, errors).

End ScoringEngine.

(** ** The weights of [ScoringEngine] in binary64 *)

(** [adjust_weights] adds and divides Python floats.  Here the weights
    are binary64 numbers and the operations are those of IEEE 754, so
    that a weight is the float the code stores. *)
Module Binary64.
Import PrimFloat.
Local Open Scope float_scope.

(** [self.weights] *)
Record weights_t : Type := Weights {
  skills : float;
  experience : float;
  education : float
}.

(** [__init__]: the floats nearest to 0.5, 0.3 and 0.2 *)
#[warnings="-inexact-float"] Definition __init__ : weights_t := Weights 0.5 0.3 0.2.

(** [adjust_weights]: [total > 0] is false of a total that is zero,
    negative or not a number. *)
Definition adjust_weights (skills_weight experience_weight education_weight : float)
           (self : weights_t) : weights_t :=
  let total := skills_weight + experience_weight + education_weight in
  if 0 <? total
  then Weights (skills_weight / total) (experience_weight / total)
               (education_weight / total)
  else self.

(** The sum of the three weights, added as floats. *)
Definition weights_sum (w : weights_t) : float :=
  skills w + experience w + education w.

(** A whole number as a float. *)
Definition of_nat (n : nat) : float := of_uint63 (Uint63.of_Z (Z.of_nat n)).



End Binary64.

(** ** The specification's own formulas

    Definitions that follow the words of the specification, to be
    compared with the functions above. *)

Module Spec.
Import Py ScoringEngine.
Local Open Scope Q_scope.

(** *** Skills score *)

(** A required skill is present verbatim, case-insensitively, in the
    candidate's skills. *)
Definition present (candidate_skills : list string) (required : string) : bool :=
  existsb (λ c, String.eqb (Text.lower c) (Text.lower required)) candidate_skills.

(** Some candidate skill has a similarity above 0.7 with it. *)
Definition similar (candidate_skills : list string) (required : string) : bool :=
  existsb (λ c, ltb 0.7 (_skills_similarity required c)) candidate_skills.

Definition exact_score (candidate_skills required_skills : list string) : Q :=
  100 * of_nat (length (filter (λ r, present candidate_skills r = true)
                               required_skills))
  / of_nat (length required_skills).

(** One credit of 0.8 for each required skill that is absent verbatim
    and has a similar candidate skill. *)
Definition fuzzy_credits (candidate_skills required_skills : list string) : Q :=
  0.8 * of_nat (length (filter (λ r, present candidate_skills r = false
                                     ∧ similar candidate_skills r = true)
                               required_skills)).

Definition fuzzy_score (candidate_skills required_skills : list string) : Q :=
  100 * fuzzy_credits candidate_skills required_skills
  / of_nat (length required_skills).

Definition bonus (candidate_skills : list string) : Q :=
  if (10 <? length candidate_skills)%nat
  then Qmin (of_nat (length candidate_skills) * 2) 20
  else 0.

Definition skills_score (candidate_skills required_skills : list string) : Q :=
  match required_skills with
  | [] => 80
  | _ =>
      Qmin (Qmin (exact_score candidate_skills required_skills
                  + fuzzy_score candidate_skills required_skills * 0.5) 100
            + bonus candidate_skills) 100
  end.

(** *** Text normalizer *)

(** The pieces of a text cut at every whitespace character; between two
    adjacent whitespace characters, and before a leading or after a
    trailing one, the piece is empty. *)
Fixpoint pieces (s : string) : list string :=
  match s with
  | EmptyString => [EmptyString]
  | String a t =>
      if Text.isspace a then EmptyString :: pieces t
      else
        match pieces t with
        | w :: ws => String a w :: ws
        | [] => [String a EmptyString]
        end
  end.

(** The words of a text: its maximal runs of characters that are not
    whitespace. *)
Definition words (s : string) : list string :=
  filter (λ w, w ≠ EmptyString) (pieces s).

(** The words put together again, one space between two of them. *)
Fixpoint join (ws : list string) : string :=
  match ws with
  | [] => EmptyString
  | [w] => w
  | w :: ws' => w +:+ " " +:+ join ws'
  end.

(** The normal form of a text: every run of whitespace is one space,
    and there is none at either end. *)
Definition normalize (s : string) : string := join (words s).

(** *** Skills extraction *)

(** [s] without its prefix [w], when it has it. *)
Fixpoint strip_prefix (w s : string) : option string :=
  match w, s with
  | EmptyString, _ => Some s
  | String a w', String b s' => if Ascii.eqb a b then strip_prefix w' s' else None
  | String _ _, EmptyString => None
  end.

(** [w] occurs in [s] as a whole word: at some position, with no word
    character right before it and none right after.  [p] is the
    character before [s]. *)
Fixpoint whole_word_from (w : string) (p : option ascii) (s : string) : bool :=
  (negb (Re.isword_at p)
   && match strip_prefix w s with
      | Some rest => negb (Re.isword_at (Re.next_char rest))
      | None => false
      end)
  || match s with
     | EmptyString => false
     | String a t => whole_word_from w (Some a) t
     end.

(** A vocabulary term has a case-insensitive whole-word match in a text. *)
Definition whole_word_match (term text : string) : bool :=
  whole_word_from (Text.lower term) None (Text.lower text).

(** *** Education *)

(** The highest level among the keywords of a table that occur in a
    lower-cased text, if one occurs. *)
Definition max_level_in (table : list (string * Z)) (text_lower : string)
  : option Z :=
  foldr (λ '(keyword, level) best,
           if Text.contains keyword text_lower
           then Some (match best with Some b => Z.max level b | None => level end)
           else best)
        None table.
Definition max_level (text : string) : option Z :=
  max_level_in NLPExtractor.education_keywords (Text.lower text).

(** The label the specification gives for a text. *)
Definition education (text : string) : string :=
  match max_level text with
  | Some level => NLPExtractor._format_education_level level
  | None => "Not specified"
  end.

End Spec.

Import NLPExtractor Py ScoringEngine.

(** ** Notions the properties are stated with *)

(** *** Extraction *)

(** What [re.sub(r'\s+', ' ', s)] computes, read off character by
    character: [in_run] tells that the character before was whitespace. *)
Fixpoint collapse (in_run : bool) (s : string) : string :=
  match s with
  | EmptyString => EmptyString
  | String a t =>
      if Text.isspace a
      then if in_run then collapse true t else String " " (collapse true t)
      else String a (collapse false t)
  end.

(** The number of whitespace characters [s] starts with. *)
Definition lead (s : string) : nat :=
  String.length s - String.length (Text.lstrip s).

(** A string without whitespace. *)
Fixpoint spaceless (w : string) : bool :=
  match w with
  | EmptyString => true
  | String a w' => negb (Text.isspace a) && spaceless w'
  end.

(** A pattern without a group and without an iteration, and the most
    characters a pattern can match. *)
Fixpoint plain (r : Re.regex) : bool :=
  match r with
  | Re.Eps | Re.Cls _ | Re.WordB => true
  | Re.Seq r1 r2 => plain r1 && plain r2
  | Re.Opt r1 => plain r1
  | Re.Star _ | Re.Grp _ => false
  end.
Fixpoint max_width (r : Re.regex) : nat :=
  match r with
  | Re.Eps | Re.WordB => 0
  | Re.Cls _ => 1
  | Re.Seq r1 r2 => max_width r1 + max_width r2
  | Re.Opt r1 | Re.Star r1 | Re.Grp r1 => max_width r1
  end.

(** The inside of the group of the phone patterns: [\+\d{1,3}[-.\s]?] *)
Definition group_body : Re.regex :=
  cat [Re.chr "+"; Re.range 1 3 Re.d; Re.Opt Re.sep].

(** The label [_extract_education] holds when the highest level it has
    seen is [h], and that level after a part of the table. *)
Definition education_label (h : Z) : string :=
  if (0 <? h)%Z then _format_education_level h else "Not specified".
Definition fold_max (text_lower : string) (h : Z) (table : list (string * Z)) : Z :=
  foldl (λ h '(keyword, level),
           if Text.contains keyword text_lower then Z.max h level else h)
        h table.

(** The title-cased terms of the vocabulary that [_extract_skills] finds
    in a text, before the cut at 50: distinct and sorted. *)
Definition all_found (text : string) : list string :=
  merge_sort String.le
    (elements
       (list_to_set
          (Text.title <$>
             filter (λ skill, skill_in_text (Text.lower text) skill = true)
                    skill_keywords) : gset string)).

(** The last character of [w], or [p] when [w] is empty. *)
Fixpoint last_char (p : option ascii) (w : string) : option ascii :=
  match w with
  | EmptyString => p
  | String a w' => last_char (Some a) w'
  end.

(** [w] starts and ends with a word character. *)
Definition word_delimited (w : string) : bool :=
  Re.isword_at (Re.next_char w) && Re.isword_at (last_char None w).

(** *** Scoring *)

(** The value of [_score_experience] for [c] years against [r]. *)
Definition experience_formula (c r : Q) : Q :=
  if Qeq_bool r 0 then 100.0%Q
  else if leb r c then Qmin (100 + Qmin ((c - r) * 5) 20) 100
  else Qmax (c / r * 80) 10.

Definition weights_sum (w : weights_t) : Q :=
  (skills w + experience w + education w)%Q.

(** The states an engine goes through: the initial one, and the one
    after a call of [adjust_weights] with non-negative numbers. *)
Inductive reachable : engine → Prop :=
| reachable_init : reachable __init__
| reachable_adjust s e d self :
    (0 <= s)%Q → (0 <= e)%Q → (0 <= d)%Q → reachable self →
    reachable (adjust_weights s e d self).

(** The dict [score_resume] returns for given scores and analysis. *)
Definition score_data (w : weights_t) (s e d : Q) (a : skill_analysis_t)
  : gmap string value :=
  list_to_map
    [ ("total_score", VNum (round1 (weighted_total w s e d)));
      ("skills_score", VNum (round1 s));
      ("experience_score", VNum (round1 e));
      ("education_score", VNum (round1 d));
      ("matched_skills", strings (matched a));
      ("missing_skills", strings (missing a));
      ("additional_skills", strings (additional a));
      ("recommendation", VStr (_generate_recommendation (weighted_total w s e d))) ].

(** The unrounded total of a record, when its three scores exist. *)
Definition unrounded_total (float_of_str : string → result Q) (self : engine)
    (resume job : gmap string value) : result Q :=
  s ← _score_skills resume job;
  e ← _score_experience float_of_str resume job;
  d ← _score_education resume job;
  mret (weighted_total (weights self) s e d).

(** The scored record of a resume, when scoring it raises nothing. *)
Definition scored_record (float_of_str : string → result Q) (self : engine)
    (job : gmap string value) (resume : gmap string value)
  : option (gmap string value) :=
  match score_resume float_of_str self resume job with
  | Ok score_data => Some (score_data ∪ resume)
  | Raise _ => None
  end.

(** The successfully scored candidates of a batch, in the order of the
    batch. *)
Definition scored (float_of_str : string → result Q) (self : engine)
    (job : gmap string value) (resumes : list (gmap string value))
  : list (gmap string value) :=
  omap (scored_record float_of_str self job) resumes.

(** [x] may come before [y] in descending order of total score. *)
Definition by_total_desc (x y : gmap string value) : Prop :=
  (total_score_of y <= total_score_of x)%Q.

(** *** Sample records *)

(** A [float] that accepts no [str]. *)
Definition no_float_of_str : string → result Q := λ _, Raise ValueError.

Definition resume_2y : gmap string value := {[ "experience_years" := VNum 2 ]}.
Definition job_4y : gmap string value := {[ "experience_years" := VNum 4 ]}.

Definition resume_web : gmap string value :=
  {[ "skills" := strings ["Python"; "Django"; "Git"] ]}.
Definition job_web : gmap string value :=
  {[ "required_skills" := strings ["python"; "flask"; "sql"] ]}.

(** A job and three candidates whose totals are 40, 90 and 70. *)
Definition job_python : gmap string value :=
  list_to_map
    [ ("required_skills", strings ["python"]);
      ("experience_years", VNum 6);
      ("education_level", VStr "Bachelor's Degree") ].
Definition candidate_a : gmap string value :=
  list_to_map
    [ ("filename", VStr "a.pdf"); ("skills", strings []);
      ("experience_years", VNum 5); ("education", VStr "Bachelor's Degree") ].
Definition candidate_b : gmap string value :=
  list_to_map
    [ ("filename", VStr "b.pdf"); ("skills", strings ["Python"]);
      ("experience_years", VNum 5); ("education", VStr "Bachelor's Degree") ].
Definition candidate_c : gmap string value :=
  list_to_map
    [ ("filename", VStr "c.pdf"); ("skills", strings ["Python"]);
      ("experience_years", VNum 3.5); ("education", VStr "High School") ].

(** A record whose years of experience are [None]: [float(None)] raises. *)
Definition candidate_bad : gmap string value :=
  list_to_map
    [ ("filename", VStr "bad.pdf"); ("skills", strings ["Python"]);
      ("experience_years", VNone); ("education", VStr "PhD") ].

(** A job and four candidates whose unrounded totals are just under
    85, 70, 55 and 40. *)
Definition job_two_skills : gmap string value :=
  list_to_map
    [ ("required_skills", strings ["python"; "sql"]);
      ("experience_years", VNum 10);
      ("education_level", VStr "Bachelor's Degree") ].
Definition near_85 : gmap string value :=
  list_to_map
    [ ("skills", strings ["Python"; "SQL"]); ("experience_years", VNum 6.24);
      ("education", VStr "Bachelor's Degree") ].
Definition near_70 : gmap string value :=
  list_to_map
    [ ("skills", strings ["Python"; "SQL"]); ("experience_years", VNum 5.82);
      ("education", VStr "High School") ].
Definition near_55 : gmap string value :=
  list_to_map
    [ ("skills", strings ["Python"]); ("experience_years", VNum 4.15);
      ("education", VStr "Bachelor's Degree") ].
Definition near_40 : gmap string value :=
  list_to_map
    [ ("skills", strings []); ("experience_years", VNum 8.32);
      ("education", VStr "Bachelor's Degree") ].

(** A record at a band boundary: its unrounded total is within 0.05
    under [bound], the total reported is [bound], and the recommendation
    is [r]. *)
Definition straddles (resume : gmap string value) (bound : Q) (r : recommendation)
  : Prop :=
  ∃ total sd,
    unrounded_total no_float_of_str __init__ resume job_two_skills = Ok total
    ∧ (bound - 0.05 <= total)%Q ∧ (total < bound)%Q
    ∧ score_resume no_float_of_str __init__ resume job_two_skills = Ok sd
    ∧ sd !! "total_score" = Some (VNum bound)
    ∧ sd !! "recommendation" = Some (VStr (recommendation_label r)).

(** * The rest of the program *)

(** ** More of [str] and [re] *)

Module Str.

(** The pieces of [s] cut at every character that [is_sep] holds of:
    [s.split(sep)] for a separator of one character. *)
Fixpoint split_at (is_sep : ascii → bool) (s : string) : list string :=
  match s with
  | EmptyString => [EmptyString]
  | String a t =>
      if is_sep a then EmptyString :: split_at is_sep t
      else
        match split_at is_sep t with
        | w :: ws => String a w :: ws
        | [] => [String a EmptyString]
        end
  end.

(** [s.split()]: the pieces between whitespace that are not empty. *)
Definition split (s : string) : list string :=
  filter (λ w, w ≠ EmptyString) (split_at Text.isspace s).

(** [sep.join(ws)] *)
Fixpoint join (sep : string) (ws : list string) : string :=
  match ws with
  | [] => EmptyString
  | [w] => w
  | w :: ws' => w +:+ sep +:+ join sep ws'
  end.

(** [all(f(c) for c in s)] *)
Fixpoint all (f : ascii → bool) (s : string) : bool :=
  match s with
  | EmptyString => true
  | String a t => f a && all f t
  end.

(** [s.replace(c, '')] for a character [c] *)
Fixpoint remove (c : ascii) (s : string) : string :=
  match s with
  | EmptyString => EmptyString
  | String a t => if Ascii.eqb a c then remove c t else String a (remove c t)
  end.

(** [s.isalpha()]: not empty, and letters only. *)
Definition isalpha (s : string) : bool :=
  match s with
  | EmptyString => false
  | _ => all (λ c, Text.isupper c || Text.islower c) s
  end.

(** [s.count(needle)]: the occurrences of [needle] in [s] that do not
    overlap, from the left; [skip] counts the characters of the last
    occurrence still to pass. *)
Fixpoint count_from (needle : string) (skip : nat) (s : string) : nat :=
  match skip, s with
  | S n, String _ t => count_from needle n t
  | S _, EmptyString => 0
  | O, String _ t =>
      if String.prefix needle s
      then S (count_from needle (String.length needle - 1) t)
      else count_from needle 0 t
  | O, EmptyString => if String.prefix needle s then 1 else 0
  end.
Definition count (needle s : string) : nat := count_from needle 0 s.

End Str.

Module Rx.

(** What matches at a position: a pattern run by [Re.run], or patterns
    put together below. *)
Definition matcher : Type :=
  option ascii → string → option string → Re.cont → option Re.found.

(** [A|B]: [B] is tried when [A], with the rest of the pattern after it,
    fails. *)
Definition alt (m1 m2 : matcher) : matcher :=
  λ p s g k,
    match m1 p s g k with
    | Some x => Some x
    | None => m2 p s g k
    end.

(** [AB] *)
Definition seq (m1 m2 : matcher) : matcher :=
  λ p s g k, m1 p s g (λ p' s' g', m2 p' s' g' k).

(** The matches of a scan from the left, without overlap: for each, its
    text and its group.  (After an empty match the scan moves one
    character on.) *)
Fixpoint matches_from (m : matcher) (p : option ascii) (skip : nat) (s : string)
  : list (string * option string) :=
  match skip, s with
  | S n, String a s' => matches_from m (Some a) n s'
  | S _, EmptyString => []
  | O, _ =>
      match m p s None Re.accept with
      | Some (s', g) =>
          (Text.take (String.length s - String.length s') s, g) ::
            match s with
            | String a t =>
                matches_from m (Some a)
                  (String.length s - String.length s' - 1) t
            | EmptyString => []
            end
      | None =>
          match s with
          | String a t => matches_from m (Some a) O t
          | EmptyString => []
          end
      end
  end.

(** [re.findall] for a pattern without a group: the texts of the
    matches. *)
Definition findall_whole (m : matcher) (s : string) : list string :=
  fst <$> matches_from m None 0 s.

(** [re.findall] for a pattern with one group: the texts of the group. *)
Definition findall_group (m : matcher) (s : string) : list string :=
  (λ x, Re.group1 x.2) <$> matches_from m None 0 s.

(** A literal, and a literal under [re.IGNORECASE]. *)
Definition lit (w : string) : Re.regex := Re.escape w.
Definition chr_i (c : ascii) : Re.regex :=
  Re.Cls (λ a, Ascii.eqb (Text.lower_char a) (Text.lower_char c)).
Fixpoint lit_i (w : string) : Re.regex :=
  match w with
  | EmptyString => Re.Eps
  | String c w' => Re.Seq (chr_i c) (lit_i w')
  end.

(** [r{n,}] *)
Definition at_least (n : nat) (r : Re.regex) : Re.regex :=
  Re.Seq (Re.times n r) (Re.Star r).

(** The texts a pattern can match, whatever is around them. *)
Inductive spans : Re.regex → string → Prop :=
| spans_eps : spans Re.Eps EmptyString
| spans_cls f a : f a = true → spans (Re.Cls f) (String a EmptyString)
| spans_seq r1 r2 w1 w2 :
    spans r1 w1 → spans r2 w2 → spans (Re.Seq r1 r2) (w1 +:+ w2)
| spans_opt r w : spans r w → spans (Re.Opt r) w
| spans_opt_skip r : spans (Re.Opt r) EmptyString
| spans_star r w1 w2 :
    spans r w1 → spans (Re.Star r) w2 → spans (Re.Star r) (w1 +:+ w2)
| spans_star_end r : spans (Re.Star r) EmptyString
| spans_grp r w : spans r w → spans (Re.Grp r) w
| spans_wordb : spans Re.WordB EmptyString.

End Rx.

(** ** [nlp_extractor.py]: the other rules of [NLPExtractor] *)

Module Extractor.
Import Re.

(** An entity of a spaCy document: [ent.text] and [ent.label_]. *)
Record entity : Type := Entity { text : string; label_ : string }.

(** The state of an extractor: [self.nlp], the spaCy model, [None] when
    it could not be loaded.  A model gives the entities of a text, or
    raises. *)
Record extractor : Type := MkExtractor {
  nlp : option (string → result (list entity))
}.

(** What the Python run time leaves open: [float] on a [str], and
    [list(set(xs))], whose order is not fixed. *)
Record python : Type := Python {
  float_of_str : string → result Q;
  list_of_set : list string → list string
}.

(** What is known of the two: [list(set(xs))] lists the members of
    [xs], each once; [float] on a [str] raises nothing but a
    [ValueError]. *)
Definition lists_sets (py : python) : Prop :=
  ∀ xs, NoDup (list_of_set py xs) ∧ ∀ x, x ∈ list_of_set py xs ↔ x ∈ xs.
Definition float_raises_value_error (py : python) : Prop :=
  ∀ s e, float_of_str py s = Raise e → e = ValueError.

(** The line feed. *)
Definition LF : ascii := "010".

(** The test of one line in [_extract_name_fallback]. *)
Definition name_like (line : string) : bool :=
  let words := Str.split line in
  (2 <=? length words) && (length words <=? 4)
  && forallb (λ word, Str.isalpha (Str.remove "," (Str.remove "." word))) words
  && (String.length line <? 50).

Fixpoint _extract_name_fallback_loop (lines : list string) : string :=
  match lines with
  | [] => "Name not found"
  | line :: lines' =>
      let line := Text.strip line in
      if name_like line then line else _extract_name_fallback_loop lines'
  end.

(** [_extract_name_fallback] *)
Definition _extract_name_fallback (text : string) : string :=
  let lines := take 5 (Str.split_at (Ascii.eqb LF) text) in
  _extract_name_fallback_loop lines.

(** [_extract_name]: any exception of the model leads to the fallback. *)
Definition _extract_name (self : extractor) (text : string) : string :=
  match nlp self with
  | None => _extract_name_fallback text
  | Some model =>
      match model (Text.take 500 text) with
      | Ok ents =>
          match find (λ ent, String.eqb (label_ ent) "PERSON"
                             && (2 <=? length (Str.split (Extractor.text ent))))
                     ents with
          | Some ent => Text.strip (Extractor.text ent)
          | None => _extract_name_fallback text
          end
      | Raise _ => _extract_name_fallback text
      end
  end.

(** The classes of the email pattern: [[A-Za-z0-9._%+-]], [[A-Za-z0-9.-]]
    and [[A-Z|a-z]]. *)
Definition alnum (c : ascii) : bool :=
  Text.isupper c || Text.islower c || Text.isdigit c.
Definition local_char (c : ascii) : bool :=
  alnum c || Ascii.eqb c "." || Ascii.eqb c "_" || Ascii.eqb c "%"
  || Ascii.eqb c "+" || Ascii.eqb c "-".
Definition domain_char (c : ascii) : bool :=
  alnum c || Ascii.eqb c "." || Ascii.eqb c "-".
Definition tld_char (c : ascii) : bool :=
  Text.isupper c || Ascii.eqb c "|" || Text.islower c.

(** [\b[A-Za-z0-9._%+-]+@[A-Za-z0-9.-]+\.[A-Z|a-z]{2,}\b] *)
Definition email_pattern : regex :=
  cat [WordB; plus (Cls local_char); chr "@"; plus (Cls domain_char); chr ".";
       Rx.at_least 2 (Cls tld_char); WordB].

(** [_extract_email] *)
Definition _extract_email (text : string) : string :=
  match Rx.findall_whole (Re.run email_pattern) text with
  | email :: _ => email
  | [] => "Email not found"
  end.

(** The parts of the experience patterns: the number [\d+\.?\d*] in its
    group; [\s*] and an optional plus sign [\+\s*]; the words for years,
    [(?:years?|yrs?)]. *)
Definition number : regex := Grp (cat [plus d; Opt (chr "."); Star d]).
Definition plus_sign : regex := cat [Star s; Opt (cat [chr "+"; Star s])].
Definition years : Rx.matcher :=
  Rx.alt (Re.run (cat [Rx.lit "year"; Opt (chr "s")]))
         (Re.run (cat [Rx.lit "yr"; Opt (chr "s")])).

Definition experience_patterns : list Rx.matcher :=
  [ (* number, plus sign, years, then \s+(?:of\s+)?experience *)
    Rx.seq (Re.run (cat [number; plus_sign]))
      (Rx.seq years
         (Re.run (cat [plus s; Opt (cat [Rx.lit "of"; plus s]);
                       Rx.lit "experience"])));
    (* number, plus sign, years, then \s+(?:in|with|of) *)
    Rx.seq (Re.run (cat [number; plus_sign]))
      (Rx.seq years
         (Rx.seq (Re.run (plus s))
            (Rx.alt (Re.run (Rx.lit "in"))
               (Rx.alt (Re.run (Rx.lit "with")) (Re.run (Rx.lit "of"))))));
    (* experience\s*:?\s* then number, plus sign, years *)
    Rx.seq (Re.run (cat [Rx.lit "experience"; Star s; Opt (chr ":"); Star s;
                         number; plus_sign]))
      years;
    (* number, plus sign, years, then
       \s*(?:of\s+)?(?:professional\s+)?(?:work\s+)?experience *)
    Rx.seq (Re.run (cat [number; plus_sign]))
      (Rx.seq years
         (Re.run (cat [Star s; Opt (cat [Rx.lit "of"; plus s]);
                       Opt (cat [Rx.lit "professional"; plus s]);
                       Opt (cat [Rx.lit "work"; plus s]);
                       Rx.lit "experience"]))) ].

(** The inner loop of [_extract_experience_years] over the matches of
    one pattern: a [ValueError] of [float] skips the match. *)
Fixpoint years_of_matches (py : python) (matches : list string)
         (years_found : list Q) : result (list Q) :=
  match matches with
  | [] => Ok years_found
  | m :: matches' =>
      match float_of_str py m with
      | Ok years =>
          years_of_matches py matches'
            (if leb 0 years && leb years 50
             then years_found ++ [years] else years_found)
      | Raise ValueError => years_of_matches py matches' years_found
      | Raise e => Raise e
      end
  end.

(** The outer loop, over the patterns. *)
Fixpoint years_of_patterns (py : python) (patterns : list Rx.matcher)
         (text_lower : string) (years_found : list Q) : result (list Q) :=
  match patterns with
  | [] => Ok years_found
  | pattern :: patterns' =>
      years_found ←
        years_of_matches py (Rx.findall_group pattern text_lower) years_found;
      years_of_patterns py patterns' text_lower years_found
  end.

Definition job_indicators : list string :=
  ["worked at"; "employed at"; "position at"; "role at"; "job at"].

(** [max(xs)] of a list that is not empty. *)
Definition maximum (x : Q) (xs : list Q) : Q := foldl Qmax x xs.

(** [_extract_experience_years] *)
Definition _extract_experience_years (py : python) (text : string) : result Q :=
  let text_lower := Text.lower text in
  years_found ← years_of_patterns py experience_patterns text_lower [];
  match years_found with
  | y :: ys => Ok (maximum y ys)
  | [] =>
      let job_count :=
        foldr Nat.add 0%nat ((λ indicator, Str.count indicator text_lower)
                               <$> job_indicators) in
      if (0 <? job_count)%nat
      then Ok (of_nat (Nat.min (job_count * 2) 15))
      else Ok 0.0%Q
  end.

(** The classes of the certification patterns: [[^.\n]], and [[A-Z]]
    under [re.IGNORECASE]. *)
Definition cert_char (c : ascii) : bool :=
  negb (Ascii.eqb c "." || Ascii.eqb c LF).
Definition letter (c : ascii) : bool := Text.isupper c || Text.islower c.

Definition cert_patterns : list regex :=
  [ (* certified\s+in\s+([^.\n]+) *)
    cat [Rx.lit_i "certified"; plus s; Rx.lit_i "in"; plus s;
         Grp (plus (Cls cert_char))];
    (* certification\s*:?\s*([^.\n]+) *)
    cat [Rx.lit_i "certification"; Star s; Opt (chr ":"); Star s;
         Grp (plus (Cls cert_char))];
    (* cert\.\s*([^.\n]+) *)
    cat [Rx.lit_i "cert"; chr "."; Star s; Grp (plus (Cls cert_char))];
    (* ([A-Z]{2,}\s+certified) *)
    cat [Grp (cat [Rx.at_least 2 (Cls letter); plus s; Rx.lit_i "certified"])] ].

(** The test of one entry: [len(cert) > 3 and len(cert) < 100] *)
Definition cert_length_ok (cert : string) : bool :=
  (3 <? String.length cert) && (String.length cert <? 100).

(** [_extract_certifications] *)
Definition _extract_certifications (py : python) (text : string) : list string :=
  let certifications :=
    mjoin ((λ pattern, Rx.findall_group (Re.run pattern) text) <$> cert_patterns) in
  let cleaned_certs :=
    filter (λ cert, cert_length_ok cert = true) (Text.strip <$> certifications) in
  take 10 (list_of_set py cleaned_certs).

(** The test of one entry: [len(org) > 2 and len(org) < 100] *)
Definition org_length_ok (org : string) : bool :=
  (2 <? String.length org) && (String.length org <? 100).

(** [_extract_organizations] *)
Definition _extract_organizations (self : extractor) (py : python)
           (text : string) : list string :=
  match nlp self with
  | None => []
  | Some model =>
      match model text with
      | Ok ents =>
          let organizations :=
            (λ ent, Text.strip (Extractor.text ent))
              <$> filter (λ ent, label_ ent = "ORG") ents in
          let organizations := list_of_set py organizations in
          take 20 (filter (λ org, org_length_ok org = true) organizations)
      | Raise _ => []
      end
  end.

(** [extract_information] *)
Definition extract_information (self : extractor) (py : python) (text : string)
  : result (gmap string value) :=
  let cleaned_text := _clean_text text in
  experience_years ← _extract_experience_years py cleaned_text;
  mret (list_to_map
          [ ("name", VStr (_extract_name self cleaned_text));
            ("email", VStr (_extract_email cleaned_text));
            ("phone", VStr (_extract_phone cleaned_text));
            ("skills", strings (_extract_skills cleaned_text));
            ("experience_years", VNum experience_years);
            ("education", VStr (_extract_education cleaned_text));
            ("certifications", strings (_extract_certifications py cleaned_text));
            ("organizations",
             match nlp self with
             | Some _ => strings (_extract_organizations self py cleaned_text)
             | None => VList []
             end) ]).

End Extractor.

(** ** [resume_processor.py]: class [ResumeProcessor] *)

Module ResumeProcessor.
Import Extractor.

(** [process_resume], from the outcome of [_extract_text] on the file
    and the type of the file: the record, or [None]. *)
Definition process_resume (self : extractor) (py : python)
           (extracted_text : result string) (file_type : string)
  : option (gmap string value) :=
  match extracted_text with
  | Ok text =>
      if String.eqb text EmptyString
         || (String.length (Text.strip text) <? 50)
      then None
      else
        match extract_information self py text with
        | Ok extracted_info =>
            Some (<["file_type" := VStr file_type]>
                    (<["raw_text" := VStr text]> extracted_info))
        | Raise _ => None
        end
  | Raise _ => None
  end.

(** [not v] *)
Definition falsy (v : value) : bool :=
  match v with
  | VNone => true
  | VNum q => Qeq_bool q 0
  | VStr s => String.eqb s EmptyString
  | VList xs => match xs with [] => true | _ => false end
  end.

(** [validate_extracted_data]; an exception of [float] other than
    [ValueError] and [TypeError] is not caught. *)
Definition validate_extracted_data (py : python) (data : gmap string value)
  : result bool :=
  if existsb (λ field, match data !! field with
                       | None => true
                       | Some v => falsy v
                       end) ["skills"; "experience_years"]
  then Ok false
  else
    match data !! "skills" with
    | Some (VList (_ :: _)) =>
        match float (float_of_str py) (default VNone (data !! "experience_years")) with
        | Ok _ => Ok true
        | Raise ValueError | Raise TypeError => Ok false
        | Raise e => Raise e
        end
    | _ => Ok false
    end.

End ResumeProcessor.

(** ** [utils.py] *)

Module Utils.

(** [create_sample_job_requirements] *)
Definition create_sample_job_requirements : gmap string value :=
  list_to_map
    [ ("job_title", VStr "Software Engineer");
      ("required_skills",
       strings ["python"; "javascript"; "sql"; "git"; "react"; "django";
                "flask"; "html"; "css"; "rest api"; "json"; "agile";
                "problem solving"; "communication"; "teamwork"; "linux";
                "aws"; "docker"]);
      ("experience_years", VNum 3);
      ("education_level", VStr "Bachelor's Degree") ].

(** [calculate_match_percentage] *)
Definition calculate_match_percentage (matched_skills required_skills : list string)
  : Q :=
  match required_skills with
  | [] => 100.0%Q
  | _ => (of_nat (length matched_skills) / of_nat (length required_skills) * 100)%Q
  end.

(** [validate_file_type] *)
Definition validate_file_type (filename : string) (allowed_types : list string)
  : bool :=
  if String.eqb filename EmptyString then false
  else
    let file_extension :=
      List.last (Str.split_at (Ascii.eqb ".") (Text.lower filename)) EmptyString in
    Text.mem file_extension (Text.lower <$> allowed_types).

(** [clean_text_for_display] *)
Definition clean_text_for_display (text : string) (max_length : nat) : string :=
  if String.eqb text EmptyString then EmptyString
  else
    let cleaned := Str.join " " (Str.split text) in
    if (max_length <? String.length cleaned)%nat
    then Text.take max_length cleaned +:+ "..."
    else cleaned.

(** [get_color_for_score] *)
Definition get_color_for_score (score : Q) : string :=
  if leb 85 score then "#00C851"
  else if leb 70 score then "#ffbb33"
  else if leb 55 score then "#FF8800"
  else "#FF4444".

Definition normalizations : gmap string string :=
  list_to_map
    [ ("js", "javascript"); ("nodejs", "node.js"); ("reactjs", "react");
      ("vuejs", "vue"); ("c++", "cpp"); ("c#", "csharp"); (".net", "dotnet");
      ("ai", "artificial intelligence"); ("ml", "machine learning") ].

(** [normalize_skill_name] *)
Definition normalize_skill_name (skill : string) : string :=
  let skill_lower := Text.strip (Text.lower skill) in
  default skill_lower (normalizations !! skill_lower).

End Utils.

(** ** [app.py]: the job profile *)

(** The job profile [app.py] builds from the form: a title, the skills
    required, the years of experience and the education level. *)
Definition job_profile (job_title : string) (required_skills : list string)
           (experience_years : Q) (education_level : string)
  : gmap string value :=
  list_to_map
    [ ("job_title", VStr job_title);
      ("required_skills", strings required_skills);
      ("experience_years", VNum experience_years);
      ("education_level", VStr education_level) ].

(** ** Notions the further properties are stated with *)

(** The record [extract_information] builds, given the years found. *)
Definition extracted_info (self : Extractor.extractor) (py : Extractor.python)
           (text : string) (experience_years : Q) : gmap string value :=
  let cleaned_text := _clean_text text in
  list_to_map
    [ ("name", VStr (Extractor._extract_name self cleaned_text));
      ("email", VStr (Extractor._extract_email cleaned_text));
      ("phone", VStr (_extract_phone cleaned_text));
      ("skills", strings (_extract_skills cleaned_text));
      ("experience_years", VNum experience_years);
      ("education", VStr (_extract_education cleaned_text));
      ("certifications",
       strings (Extractor._extract_certifications py cleaned_text));
      ("organizations",
       match Extractor.nlp self with
       | Some _ => strings (Extractor._extract_organizations self py cleaned_text)
       | None => VList []
       end) ].

(** Years of experience the extractor accepts. *)
Definition plausible (years : Q) : Prop := (0 <= years <= 50)%Q.

(** The value of [_score_education] for levels [rl] and [ql]. *)
Definition education_formula (rl ql : Z) : Q :=
  if (ql <=? rl)%Z
  then inject_Z (Z.min (100 + Z.max ((rl - ql) * 10) 0) 100)
  else Qmax (inject_Z rl / inject_Z ql * 70) 30.

(** The bands of the recommendation in their order, and the color
    [utils.py] shows for each. *)
Definition band_rank (r : recommendation) : nat :=
  match r with
  | VeryPoorMatch => 0 | PoorMatch => 1 | FairMatch => 2
  | GoodMatch => 3 | StrongMatch => 4
  end.
Definition band_color (r : recommendation) : string :=
  match r with
  | StrongMatch => "#00C851"
  | GoodMatch => "#ffbb33"
  | FairMatch => "#FF8800"
  | PoorMatch | VeryPoorMatch => "#FF4444"
  end.

(** The keys of the four scores in the dict of [score_resume]. *)
Definition score_keys : list string :=
  ["total_score"; "skills_score"; "experience_score"; "education_score"].

(** The required skills with a verbatim match, and those with a similar
    skill only, among lower-cased lists. *)
Definition exact_count (resume_skills required_skills : list string) : nat :=
  length (filter (λ q, Text.mem q resume_skills = true) required_skills).
Definition fuzzy_count (resume_skills required_skills : list string) : nat :=
  length (filter (λ q, Text.mem q resume_skills = false
                       ∧ is_Some (first_similar q resume_skills))
                 required_skills).

(** The records of a list whose total score is [q], in their order. *)
Definition with_total (q : Q) (xs : list (gmap string value))
  : list (gmap string value) :=
  filter (λ x, Qeq_bool (total_score_of x) q = true) xs.

(** *** More sample records *)

(** A run time for examples: [float] reads digits with an optional
    fraction, and [list(set(xs))] keeps the order of [xs]. *)
Fixpoint digits_value (acc : Z) (s : string) : option Z :=
  match s with
  | EmptyString => Some acc
  | String c s' =>
      if Text.isdigit c
      then digits_value (10 * acc + (Z.of_N (Text.code c) - 48)) s'
      else None
  end.
Definition decimal_float (s : string) : result Q :=
  match Str.split_at (Ascii.eqb ".") s with
  | [i] =>
      match i, digits_value 0 i with
      | String _ _, Some n => Ok (inject_Z n)
      | _, _ => Raise ValueError
      end
  | [i; f] =>
      match i, digits_value 0 i, digits_value 0 f with
      | String _ _, Some n, Some m =>
          Ok (inject_Z n + inject_Z m / inject_Z (10 ^ Z.of_nat (String.length f)))%Q
      | _, _, _ => Raise ValueError
      end
  | _ => Raise ValueError
  end.
Definition sample_python : Extractor.python :=
  Extractor.Python decimal_float remove_dups.
Definition no_model : Extractor.extractor := Extractor.MkExtractor None.


(** A model for examples: it finds the same two entities in every text. *)
Definition sample_model : string → result (list Extractor.entity) :=
  λ _, Ok [Extractor.Entity "Jane Doe" "PERSON";
           Extractor.Entity " Acme Corp " "ORG"].
Definition with_sample_model : Extractor.extractor :=
  Extractor.MkExtractor (Some sample_model).

(** Two texts. *)
Definition sample_name_text : string := "  Jane   Doe ".
Definition sample_resume_text : string :=
  "Jane Doe jane.doe@example.com Python developer with 5 years of experience in Django and SQL. Bachelor of Science.".
Definition sample_cert_text : string :=
  "Certified in Cloud Architecture. AWS certified".

(** What [score_resume] and [_analyze_skills] return for sample records. *)
Definition sample_scored : gmap string value :=
  match score_resume no_float_of_str __init__ candidate_b job_python with
  | Ok sd => sd
  | Raise _ => ∅
  end.
Definition sample_analysis : skill_analysis_t :=
  match _analyze_skills resume_web job_web with
  | Ok a => a
  | Raise _ => SkillAnalysis [] [] []
  end.

(** The total before rounding of a sample record against
    [job_two_skills]. *)
Definition sample_total (resume : gmap string value) : Q :=
  match unrounded_total no_float_of_str __init__ resume job_two_skills with
  | Ok total => total
  | Raise _ => 0%Q
  end.

(** * Properties of the extraction rules *)

(** ** Text normalizer *)

(** The pattern [\s+] at a whitespace character matches the whole run
    that starts there, and nothing elsewhere. *)
Lemma lstrip_length s : String.length (Text.lstrip s) ≤ String.length s.
Proof. induction s as [|a s IH]; simpl; [done|]. destruct (Text.isspace a); simpl; lia. Qed.

Lemma run_s p s g k :
  Re.run Re.s p s g k
  = match s with
    | String a s' => if Text.isspace a then k (Some a) s' g else None
    | EmptyString => None
    end.
Proof. reflexivity. Qed.

Lemma star_spaces n p t :
  String.length t ≤ n →
  Re.star_loop (Re.run Re.s) Re.accept n p t None = Some (Text.lstrip t, None).
Proof.
  revert p t. induction n as [|n IH]; intros p t Hn.
  - destruct t; [done | simpl in Hn; lia].
  - destruct t as [|b t]; [done|]. cbn [Re.star_loop Text.lstrip]. rewrite run_s.
    destruct (Text.isspace b); [|done].
    assert ((String.length t <? String.length (String b t)) = true) as ->
      by (apply Nat.ltb_lt; simpl; lia).
    rewrite IH; [done|]. simpl in Hn. lia.
Qed.

Lemma match_here_spaces p str :
  Re.match_here (Re.plus Re.s) p str
  = match str with
    | String a t => if Text.isspace a then Some (Text.lstrip t, None) else None
    | EmptyString => None
    end.
Proof.
  destruct str as [|a t]; [done|].
  unfold Re.match_here, Re.plus. cbn [Re.run]. rewrite run_s.
  destruct (Text.isspace a); [|done].
  by apply star_spaces.
Qed.

Lemma lead_space a t : Text.isspace a = true → lead (String a t) = S (lead t).
Proof.
  intros Ha. unfold lead. simpl. rewrite Ha.
  pose proof (lstrip_length t). lia.
Qed.
Lemma lead_nonspace a t : Text.isspace a = false → lead (String a t) = 0.
Proof. intros Ha. unfold lead. simpl. rewrite Ha. simpl. lia. Qed.

(** So the substitution is [collapse]: after a match, the scan passes
    the rest of the run. *)
Lemma sub_from_collapse str :
  ∀ p, Re.sub_from (Re.plus Re.s) " " p 0 str = collapse false str
       ∧ Re.sub_from (Re.plus Re.s) " " p (lead str) str = collapse true str.
Proof.
  induction str as [|a t IH]; intros p; [done|].
  assert (Re.sub_from (Re.plus Re.s) " " p 0 (String a t) = collapse false (String a t)) as H0.
  { cbn [Re.sub_from]. rewrite match_here_spaces. simpl collapse.
    destruct (Text.isspace a) eqn:Ha.
    - pose proof (lstrip_length t).
      replace (String.length (String a t) - String.length (Text.lstrip t))
        with (S (lead t)) by (unfold lead; simpl; lia).
      by rewrite (proj2 (IH (Some a))).
    - by rewrite (proj1 (IH (Some a))). }
  split; [done|].
  destruct (Text.isspace a) eqn:Ha.
  - rewrite lead_space by done. cbn [Re.sub_from]. simpl collapse. rewrite Ha.
    apply IH.
  - rewrite lead_nonspace by done. rewrite H0. simpl. by rewrite Ha.
Qed.

Lemma sub_spaces text : Re.sub (Re.plus Re.s) " " text = collapse false text.
Proof. apply sub_from_collapse. Qed.

Lemma lstrip_collapse_true t : Text.lstrip (collapse true t) = collapse true t.
Proof.
  induction t as [|a t IH]; simpl; [done|].
  destruct (Text.isspace a) eqn:Ha; [done|]. simpl. by rewrite Ha.
Qed.

Lemma lstrip_collapse t : Text.lstrip (collapse false t) = collapse true t.
Proof.
  destruct t as [|a t]; simpl; [done|].
  destruct (Text.isspace a) eqn:Ha; simpl.
  - apply lstrip_collapse_true.
  - by rewrite Ha.
Qed.

Lemma clean_text_collapse text : _clean_text text = Text.rstrip (collapse true text).
Proof. unfold _clean_text, Text.strip. by rewrite sub_spaces, lstrip_collapse. Qed.

(** Stripping the collapsed text gives the words joined by spaces. *)
Lemma rstrip_nonspace a s :
  Text.isspace a = false → Text.rstrip (String a s) = String a (Text.rstrip s).
Proof. intros Ha. simpl. rewrite Ha. by destruct (Text.rstrip s). Qed.

Lemma rstrip_space a s :
  Text.isspace a = true →
  Text.rstrip (String a s)
  = match Text.rstrip s with EmptyString => EmptyString | r => String a r end.
Proof. intros Ha. simpl. rewrite Ha. by destruct (Text.rstrip s). Qed.

Lemma words_space a t : Text.isspace a = true → Spec.words (String a t) = Spec.words t.
Proof.
  intros Ha. unfold Spec.words. simpl. rewrite Ha.
  by rewrite filter_cons_False by (intros H; by apply H).
Qed.

Lemma pieces_nonspace a t :
  Text.isspace a = false →
  ∃ w ws, Spec.pieces t = w :: ws ∧ Spec.pieces (String a t) = String a w :: ws.
Proof.
  intros Ha. simpl. rewrite Ha.
  assert (Spec.pieces t ≠ []) as Hne.
  { destruct t as [|b t]; simpl; [done|].
    destruct (Text.isspace b); [done|]. by destruct (Spec.pieces t). }
  destruct (Spec.pieces t) as [|w ws]; [done|]. by exists w, ws.
Qed.

Lemma join_cons_char a w ws :
  Spec.join (String a w :: ws) = String a (Spec.join (w :: ws)).
Proof. by destruct ws. Qed.

Lemma words_nonspace a b t :
  Text.isspace a = false → Text.isspace b = false →
  Spec.join (Spec.words (String a (String b t)))
  = String a (Spec.join (Spec.words (String b t))).
Proof.
  intros Ha Hb.
  destruct (pieces_nonspace b t Hb) as (w & ws & _ & Hp).
  unfold Spec.words. cbn [Spec.pieces]. rewrite Ha.
  cbn [Spec.pieces] in Hp. rewrite Hb in Hp. rewrite Hb, Hp.
  rewrite !filter_cons_True by done. apply join_cons_char.
Qed.

Lemma join_nil_iff ws :
  Forall (λ w, w ≠ EmptyString) ws → Spec.join ws = EmptyString → ws = [].
Proof.
  destruct 1 as [|w ws Hw _]; [done|].
  destruct w as [|c w]; [done|]. by destruct ws.
Qed.

Lemma words_nonempty t : Forall (λ w, w ≠ EmptyString) (Spec.words t).
Proof. unfold Spec.words. apply Forall_forall. intros w Hw. by apply list_elem_of_filter in Hw as [? _]. Qed.

Lemma rstrip_collapse t :
  Text.rstrip (collapse true t) = Spec.normalize t
  ∧ ∀ a, Text.isspace a = false →
         String a (Text.rstrip (collapse false t)) = Spec.normalize (String a t).
Proof.
  unfold Spec.normalize.
  induction t as [|b t [IHa IHb]].
  - split; [done|]. intros a Ha. unfold Spec.words. cbn [Spec.pieces]. rewrite Ha.
    by rewrite filter_cons_True by done.
  - assert (Text.rstrip (collapse true (String b t))
            = Spec.join (Spec.words (String b t))) as HA.
    { simpl collapse. destruct (Text.isspace b) eqn:Hb.
      - by rewrite words_space.
      - rewrite rstrip_nonspace by done. by apply IHb. }
    split; [done|]. intros a Ha.
    simpl collapse. destruct (Text.isspace b) eqn:Hb.
    + rewrite rstrip_space by done. rewrite IHa.
      unfold Spec.words at 2. cbn [Spec.pieces]. rewrite Ha, Hb.
      rewrite filter_cons_True by done.
      fold (Spec.words t).
      pose proof (words_nonempty t) as Hne.
      destruct (Spec.words t) as [|w ws] eqn:Hw; [done|].
      change (Spec.join (String a "" :: w :: ws))
        with (String a (String " " (Spec.join (w :: ws)))).
      destruct (Spec.join (w :: ws)) eqn:Hj.
      { apply join_nil_iff in Hj; done. }
      reflexivity.
    + rewrite rstrip_nonspace by done. rewrite (IHb b Hb).
      by rewrite words_nonspace.
Qed.

Lemma clean_text_normalize text : _clean_text text = Spec.normalize text.
Proof. rewrite clean_text_collapse. apply rstrip_collapse. Qed.

(** The words of the joined words are the words. *)
Lemma pieces_spaceless t : Forall (λ w, spaceless w = true) (Spec.pieces t).
Proof.
  induction t as [|a t IH]; simpl.
  - by repeat constructor.
  - destruct (Text.isspace a) eqn:Ha.
    + by constructor.
    + destruct (Spec.pieces t) as [|w ws].
      * repeat constructor. simpl. by rewrite Ha.
      * apply Forall_cons in IH as [Hw Hws]. constructor; [|done].
        simpl. by rewrite Ha.
Qed.

Lemma pieces_word_then w rest :
  spaceless w = true →
  Spec.pieces (w +:+ String " " rest) = w :: Spec.pieces rest.
Proof.
  induction w as [|a w IH]; intros Hw; [done|].
  simpl in Hw. apply andb_true_iff in Hw as [Ha Hw]. apply negb_true_iff in Ha.
  change (String a w +:+ String " " rest) with (String a (w +:+ String " " rest)).
  cbn [Spec.pieces]. by rewrite Ha, IH.
Qed.

Lemma pieces_word w : spaceless w = true → Spec.pieces w = [w].
Proof.
  induction w as [|a w IH]; intros Hw; [done|].
  simpl in Hw. apply andb_true_iff in Hw as [Ha Hw]. apply negb_true_iff in Ha.
  cbn [Spec.pieces]. by rewrite Ha, IH.
Qed.

Lemma words_join ws :
  Forall (λ w, w ≠ EmptyString ∧ spaceless w = true) ws →
  Spec.words (Spec.join ws) = ws.
Proof.
  induction 1 as [|w ws [Hne Hsp] Hws IH]; [done|].
  destruct ws as [|w2 ws].
  - unfold Spec.words. simpl Spec.join. rewrite pieces_word by done.
    by rewrite filter_cons_True, filter_nil by done.
  - change (Spec.join (w :: w2 :: ws)) with (w +:+ String " " (Spec.join (w2 :: ws))).
    unfold Spec.words. rewrite pieces_word_then by done.
    rewrite filter_cons_True by done. f_equal. apply IH.
Qed.

Lemma words_good t :
  Forall (λ w, w ≠ EmptyString ∧ spaceless w = true) (Spec.words t).
Proof.
  apply Forall_forall. intros w Hw. unfold Spec.words in Hw.
  apply list_elem_of_filter in Hw as [Hne Hin]. split; [done|].
  pose proof (pieces_spaceless t) as H. rewrite Forall_forall in H. by apply H.
Qed.

Lemma normalize_idemp t : Spec.normalize (Spec.normalize t) = Spec.normalize t.
Proof. unfold Spec.normalize. by rewrite words_join by apply words_good. Qed.

Lemma words_normalize t : Spec.words (Spec.normalize t) = Spec.words t.
Proof. unfold Spec.normalize. apply words_join, words_good. Qed.

(** C8.  For every text, [_clean_text] returns its words (the maximal
    runs of characters that are not whitespace) joined by single spaces:
    every run of whitespace, newlines included, becomes one space, the
    whitespace at both ends goes, and the words themselves are
    unchanged.  Cleaning a cleaned text changes nothing. *)
Theorem C8_clean_text (text : string) :
  _clean_text text = Spec.normalize text
  ∧ Spec.words (_clean_text text) = Spec.words text
  ∧ Forall (λ w, w ≠ EmptyString ∧ spaceless w = true) (Spec.words text)
  ∧ _clean_text (_clean_text text) = _clean_text text.
Proof.
  rewrite !clean_text_normalize. split; [done|]. split; [apply words_normalize|].
  split; [apply words_good | apply normalize_idemp].
Qed.

(** ** Phone *)

(** A plain pattern hands its continuation the group it was given, after
    passing at most [max_width] characters. *)
Lemma run_plain r :
  plain r = true →
  ∀ p s g k x,
    Re.run r p s g k = Some x →
    ∃ p' s',
      k p' s' g = Some x
      ∧ String.length s' ≤ String.length s
      ∧ String.length s ≤ String.length s' + max_width r.
Proof.
  induction r as [|f|r1 IH1 r2 IH2|r1 IH1|r1 _|r1 _|]; intros Hr p s g k x Hx;
    try discriminate; cbn [Re.run] in Hx.
  - exists p, s. simpl. split; [done|lia].
  - destruct s as [|a s]; [done|]. destruct (f a); [|done].
    exists (Some a), s. simpl. split; [done|lia].
  - simpl in Hr. apply andb_true_iff in Hr as [H1 H2].
    apply (IH1 H1) in Hx as (p1 & s1 & Hx & ? & ?).
    apply (IH2 H2) in Hx as (p2 & s2 & Hx & ? & ?).
    exists p2, s2. simpl. split; [done|lia].
  - simpl in Hr. destruct (Re.run r1 p s g k) as [y|] eqn:E.
    + injection Hx as ->. apply (IH1 Hr) in E as (p1 & s1 & ? & ? & ?).
      exists p1, s1. simpl. split; [done|lia].
    + exists p, s. simpl. split; [done|lia].
  - destruct (xorb _ _); [|done]. exists p, s. simpl. split; [done|lia].
Qed.

Lemma take_length n s : String.length (Text.take n s) ≤ n.
Proof.
  revert s. induction n as [|n IH]; intros [|a s]; simpl; try lia.
  specialize (IH s). lia.
Qed.

(** A match of a phone pattern captures at most five characters. *)
Lemma match_here_phone rest p s x :
  plain rest = true →
  Re.match_here (Re.Seq country_code rest) p s = Some x →
  String.length (Re.group1 x.2) ≤ 5.
Proof.
  intros Hrest. unfold Re.match_here, country_code. fold group_body.
  cbn [Re.run].
  destruct (Re.run group_body p s None _) as [y|] eqn:E.
  - intros [= ->].
    apply (run_plain group_body eq_refl) in E as (p1 & s1 & E & _ & Hw).
    apply (run_plain rest Hrest) in E as (p2 & s2 & [= <-] & _).
    simpl. etrans; [apply take_length|]. change (max_width group_body) with 5 in Hw. lia.
  - intros E'. apply (run_plain rest Hrest) in E' as (p2 & s2 & [= <-] & _).
    simpl. lia.
Qed.

Lemma findall_phone rest :
  plain rest = true →
  ∀ s p skip,
    Forall (λ g, String.length g ≤ 5)
           (Re.findall_from (Re.Seq country_code rest) p skip s).
Proof.
  intros Hrest. induction s as [|a s IH]; intros p skip.
  - destruct skip; [|by constructor]. cbn [Re.findall_from].
    destruct (Re.match_here _ _ _) as [[s' g]|] eqn:E; [|by constructor].
    constructor; [|done]. by apply (match_here_phone rest p "" (s', g)).
  - destruct skip as [|n]; [|apply IH]. cbn [Re.findall_from].
    destruct (Re.match_here _ _ _) as [[s' g]|] eqn:E; [|apply IH].
    constructor; [|apply IH].
    by apply (match_here_phone rest p (String a s) (s', g)).
Qed.

Lemma extract_phone_loop_short patterns text :
  Forall (λ r, ∃ rest, r = Re.Seq country_code rest ∧ plain rest = true) patterns →
  _extract_phone_loop patterns text = "Phone not found"
  ∨ String.length (_extract_phone_loop patterns text) ≤ 5.
Proof.
  induction 1 as [|r patterns (rest & -> & Hrest) _ IH]; [by left|].
  cbn [_extract_phone_loop]. unfold Re.findall.
  pose proof (findall_phone rest Hrest text None 0) as H.
  destruct (Re.findall_from _ _ _ _) as [|phone phones]; [done|].
  right. by apply Forall_cons in H as [? _].
Qed.

(** Whatever the text, [_extract_phone] returns the sentinel or at most
    five characters: the text of the group, never the ten digits of a
    number. *)
Lemma extract_phone_short text :
  _extract_phone text = "Phone not found"
  ∨ String.length (_extract_phone text) ≤ 5.
Proof.
  apply extract_phone_loop_short.
  repeat constructor; eexists; (split; [reflexivity|reflexivity]).
Qed.

(** C1.  [_extract_phone] returns the text of the group of the first
    match, the optional country code, not the match: for a number
    without a country code it returns the empty string, and for one with
    a country code it returns that code alone. *)
Theorem C1_extract_phone_returns_group :
  _extract_phone "555-123-4567" = ""
  ∧ _extract_phone "Phone: +1 555-123-4567" = "+1 ".
Proof. split; vm_compute; reflexivity. Qed.

(** ** Education *)

(** The loop keeps the highest level seen, starting from 0, and the
    label of that level. *)
Lemma education_loop text_lower table h :
  (0 ≤ h)%Z →
  foldl (_extract_education_step text_lower) (h, education_label h) table
  = (fold_max text_lower h table, education_label (fold_max text_lower h table)).
Proof.
  revert h. induction table as [|[keyword level] table IH]; intros h Hh; [done|].
  simpl. destruct (Text.contains keyword text_lower); [|by apply IH].
  destruct (h <? level)%Z eqn:E.
  - apply Z.ltb_lt in E. rewrite Z.max_r by lia.
    replace (_format_education_level level) with (education_label level).
    + apply IH. lia.
    + unfold education_label. by rewrite (proj2 (Z.ltb_lt 0 level)) by lia.
  - apply Z.ltb_ge in E. rewrite Z.max_l by lia. by apply IH.
Qed.

Lemma fold_max_max_level text_lower table h :
  fold_max text_lower h table
  = match Spec.max_level_in table text_lower with
    | Some m => Z.max h m
    | None => h
    end.
Proof.
  revert h. induction table as [|[keyword level] table IH]; intros h; [done|].
  simpl. rewrite IH. destruct (Text.contains keyword text_lower); [|done].
  destruct (Spec.max_level_in table text_lower); [|done]. lia.
Qed.

Lemma extract_education_loop_spec text_lower table :
  snd (foldl (_extract_education_step text_lower) (0%Z, "Not specified") table)
  = match Spec.max_level_in table text_lower with
    | Some level =>
        if (0 <? level)%Z then _format_education_level level else "Not specified"
    | None => "Not specified"
    end.
Proof.
  change (0%Z, "Not specified") with (0%Z, education_label 0).
  rewrite education_loop by done. cbn [snd].
  rewrite fold_max_max_level.
  destruct (Spec.max_level_in table text_lower) as [m|]; [|done].
  unfold education_label. destruct (0 <? m)%Z eqn:E.
  - apply Z.ltb_lt in E. rewrite Z.max_r by lia. by rewrite (proj2 (Z.ltb_lt 0 m)).
  - apply Z.ltb_ge in E. by rewrite Z.max_l by lia.
Qed.

(** What [_extract_education] returns, for every text: the label of the
    highest level found when that level is above 0. *)
Lemma extract_education_spec text :
  _extract_education text
  = match Spec.max_level text with
    | Some level =>
        if (0 <? level)%Z then _format_education_level level else "Not specified"
    | None => "Not specified"
    end.
Proof. apply extract_education_loop_spec. Qed.

(** C2.  The education level of a text comes from the highest level of
    the keywords that occur in it, but a text whose keywords are all of
    level 0 is given "Not specified": for "high school" the highest
    level is 0, whose label is "High School", and [_extract_education]
    returns "Not specified". *)
Theorem C2_extract_education_level_0 :
  _extract_education "high school" = "Not specified"
  ∧ Spec.max_level "high school" = Some 0%Z
  ∧ Spec.education "high school" = "High School".
Proof. repeat split; vm_compute; reflexivity. Qed.

(** ** Skills *)

Lemma extract_skills_take text : _extract_skills text = take 50 (all_found text).
Proof. reflexivity. Qed.

Lemma elem_of_all_found text x :
  x ∈ all_found text ↔
  ∃ v, v ∈ skill_keywords ∧ skill_in_text (Text.lower text) v = true ∧ x = Text.title v.
Proof.
  unfold all_found. rewrite merge_sort_Permutation, elem_of_elements, elem_of_list_to_set.
  rewrite list_elem_of_fmap. split.
  - intros (v & -> & Hv). apply list_elem_of_filter in Hv as [? ?]. by exists v.
  - intros (v & Hv & Ht & ->). exists v. split; [done|]. by apply list_elem_of_filter.
Qed.

Lemma all_found_NoDup text : NoDup (all_found text).
Proof. unfold all_found. rewrite merge_sort_Permutation. apply NoDup_elements. Qed.

Lemma all_found_sorted text : StronglySorted String.le (all_found text).
Proof. apply (StronglySorted_merge_sort _). Qed.

(** Lower-casing a title-cased vocabulary term gives the term back. *)
Lemma lower_title_keyword v : v ∈ skill_keywords → Text.lower (Text.title v) = v.
Proof.
  intros Hv.
  assert (Forall (λ v, Text.lower (Text.title v) = v) skill_keywords) as H
    by (repeat constructor).
  rewrite Forall_forall in H. by apply H.
Qed.

Lemma all_found_NoDup_lower text : NoDup (Text.lower <$> all_found text).
Proof.
  apply NoDup_fmap_2_strong; [|apply all_found_NoDup].
  intros x y Hx Hy Heq.
  apply elem_of_all_found in Hx as (v & Hv & _ & ->).
  apply elem_of_all_found in Hy as (w & Hw & _ & ->).
  rewrite !lower_title_keyword in Heq by done. by rewrite Heq.
Qed.

Lemma take_sorted {A} (R : relation A) n (l : list A) :
  StronglySorted R l → StronglySorted R (take n l).
Proof.
  intros H. rewrite <- (take_drop n l) in H. by apply StronglySorted_app_1_l in H.
Qed.

Lemma take_NoDup_fmap {A B} `{EqDecision B} (f : A → B) n (l : list A) :
  NoDup (f <$> l) → NoDup (f <$> take n l).
Proof.
  intros H. rewrite <- (take_drop n l), fmap_app in H.
  by apply NoDup_app in H as [? _].
Qed.

(** What [_extract_skills] returns, for every text: a prefix of at most
    50 entries of the sorted list of the distinct title-cased terms that
    pass the test of the code. *)
Lemma extract_skills_shape text :
  _extract_skills text = take 50 (all_found text)
  ∧ (∀ x, x ∈ all_found text ↔
          ∃ v, v ∈ skill_keywords ∧ skill_in_text (Text.lower text) v = true
               ∧ x = Text.title v)
  ∧ NoDup (Text.lower <$> _extract_skills text)
  ∧ StronglySorted String.le (_extract_skills text)
  ∧ length (_extract_skills text) ≤ 50.
Proof.
  split; [done|]. split; [apply elem_of_all_found|].
  rewrite extract_skills_take. split; [|split].
  - apply take_NoDup_fmap, all_found_NoDup_lower.
  - apply take_sorted, all_found_sorted.
  - rewrite length_take. lia.
Qed.

Lemma extract_skills_python : _extract_skills "Python python PYTHON" = ["Python"].
Proof. vm_compute. reflexivity. Qed.

(** The escaped term matches its own text, and nothing else. *)
Lemma run_escape w p s g k :
  Re.run (Re.escape w) p s g k
  = match Spec.strip_prefix w s with
    | Some rest => k (last_char p w) rest g
    | None => None
    end.
Proof.
  revert p s. induction w as [|c w IH]; intros p s; [done|].
  cbn [Re.escape Re.run]. unfold Re.chr. cbn [Re.run].
  destruct s as [|b s]; [done|]. cbn [Spec.strip_prefix last_char].
  destruct (Ascii.eqb c b) eqn:E; [|done].
  apply Ascii.eqb_eq in E as ->. apply IH.
Qed.

Lemma strip_prefix_next w s rest :
  Spec.strip_prefix w s = Some rest → w ≠ EmptyString → Re.next_char s = Re.next_char w.
Proof.
  destruct w as [|a w]; [done|]. destruct s as [|b s]; [done|]. simpl.
  destruct (Ascii.eqb a b) eqn:E; [|done]. apply Ascii.eqb_eq in E as ->. done.
Qed.

Lemma last_char_cons p a w : last_char p (String a w) = last_char None (String a w).
Proof. reflexivity. Qed.

Lemma match_here_word w p s :
  word_delimited w = true →
  is_Some (Re.match_here (cat [Re.WordB; Re.escape w; Re.WordB]) p s)
  ↔ negb (Re.isword_at p)
    && match Spec.strip_prefix w s with
       | Some rest => negb (Re.isword_at (Re.next_char rest))
       | None => false
       end = true.
Proof.
  intros Hw. apply andb_true_iff in Hw as [Hfirst Hlast].
  assert (w ≠ EmptyString) as Hne by (by destruct w).
  unfold Re.match_here, cat. cbn [foldr Re.run]. rewrite run_escape.
  destruct (Spec.strip_prefix w s) as [rest|] eqn:Hs.
  - rewrite (strip_prefix_next _ _ _ Hs Hne), Hfirst.
    destruct w as [|a w]; [done|]. rewrite last_char_cons, Hlast.
    cbn [Re.run].
    destruct (Re.isword_at p), (Re.isword_at (Re.next_char rest)); simpl;
      split; (done || by intros [? ?] || by eexists).
  - rewrite andb_false_r.
    destruct (xorb _ _); split; (done || by intros [? ?]).
Qed.

Lemma search_from_whole_word w p s :
  word_delimited w = true →
  Re.search_from (cat [Re.WordB; Re.escape w; Re.WordB]) p s
  = Spec.whole_word_from w p s.
Proof.
  intros Hw. revert p. induction s as [|a s IH]; intros p.
  - cbn [Re.search_from Spec.whole_word_from].
    pose proof (match_here_word w p "" Hw) as H.
    destruct (Re.match_here _ _ _).
    + symmetry. rewrite orb_false_r. apply H. by eexists.
    + rewrite orb_false_r. symmetry. apply not_true_is_false.
      intros Ht. apply H in Ht. by destruct Ht.
  - cbn [Re.search_from Spec.whole_word_from].
    pose proof (match_here_word w p (String a s) Hw) as H.
    destruct (Re.match_here _ _ _).
    + symmetry. apply orb_true_iff. left. apply H. by eexists.
    + rewrite IH.
      destruct (negb _ && _); [|done].
      by destruct (proj2 H eq_refl).
Qed.

(** For a vocabulary term that starts and ends with a word character,
    the test of the code is the whole-word match. *)
Lemma skill_in_text_whole_word text v :
  word_delimited (Text.lower v) = true →
  skill_in_text (Text.lower text) v = Spec.whole_word_match v text.
Proof. intros Hw. unfold skill_in_text, Re.search. by apply search_from_whole_word. Qed.

(** All terms of the vocabulary but two start and end with a word
    character. *)
Lemma keywords_not_word_delimited :
  filter (λ v, word_delimited (Text.lower v) = false) skill_keywords = ["c++"; "c#"].
Proof. vm_compute. reflexivity. Qed.

(** C9.  A vocabulary term that ends with a character that is not a word
    character is not found where it stands as a whole word, and is found
    where it does not: "c++" is in the vocabulary and has a
    case-insensitive whole-word match in "Skills: Python, C++, SQL", and
    [_extract_skills] returns "Python" and "Sql" only; it has none in
    "C++17", and [_extract_skills] returns "C++". *)
Theorem C9_extract_skills_whole_word :
  "c++" ∈ skill_keywords
  ∧ Spec.whole_word_match "c++" "Skills: Python, C++, SQL" = true
  ∧ _extract_skills "Skills: Python, C++, SQL" = ["Python"; "Sql"]
  ∧ Spec.whole_word_match "c++" "C++17" = false
  ∧ _extract_skills "C++17" = ["C++"].
Proof.
  split; [|repeat split; vm_compute; reflexivity].
  apply list_elem_of_In. vm_compute. tauto.
Qed.

(** * Properties of the scoring engine *)

Section Scoring.
Local Open Scope Q_scope.

(** ** Numbers *)

Lemma ltb_lt (x y : Q) : ltb x y = true ↔ (x < y)%Q.
Proof.
  unfold ltb. rewrite negb_true_iff, <- not_true_iff_false, Qle_bool_iff.
  split; [apply Qnot_le_lt | apply Qlt_not_le].
Qed.
Lemma ltb_ge (x y : Q) : ltb x y = false ↔ (y <= x)%Q.
Proof. unfold ltb. rewrite negb_false_iff. apply Qle_bool_iff. Qed.
Lemma leb_le (x y : Q) : leb x y = true ↔ (x <= y)%Q.
Proof. apply Qle_bool_iff. Qed.
Lemma leb_gt (x y : Q) : leb x y = false ↔ (y < x)%Q.
Proof.
  unfold leb. rewrite <- not_true_iff_false, Qle_bool_iff.
  split; [apply Qnot_le_lt | apply Qlt_not_le].
Qed.

Lemma of_nat_nonneg n : (0 <= of_nat n)%Q.
Proof. unfold of_nat, Qle; simpl. lia. Qed.
Lemma of_nat_pos n : (0 < n)%nat → (0 < of_nat n)%Q.
Proof. unfold of_nat, Qlt; simpl. lia. Qed.
Lemma of_nat_le n m : (n ≤ m)%nat → (of_nat n <= of_nat m)%Q.
Proof. unfold of_nat, Qle; simpl. lia. Qed.

(** ** Similarity *)

Lemma in_family_sym a b e : in_family a b e = in_family b a e.
Proof.
  destruct e as [family related]. unfold in_family.
  destruct (String.eqb a family), (String.eqb b family),
    (Text.mem a related), (Text.mem b related); reflexivity.
Qed.

Lemma existsb_in_family_sym a b l :
  existsb (in_family a b) l = existsb (in_family b a) l.
Proof. induction l as [|e l IH]; simpl; [done|]. by rewrite in_family_sym, IH. Qed.

Lemma jaccard_range (X Y : gset ascii) :
  (0 < size (X ∪ Y))%nat →
  (0 <= of_nat (size (X ∩ Y)) / of_nat (size (X ∪ Y)) <= 1)%Q.
Proof.
  intros Hpos. pose proof (of_nat_pos _ Hpos) as Hq.
  assert (size (X ∩ Y) ≤ size (X ∪ Y))%nat as Hle.
  { apply subseteq_size. intros x. rewrite elem_of_intersection, elem_of_union. tauto. }
  split.
  - apply Qle_shift_div_l; [done|]. rewrite Qmult_0_l. apply of_nat_nonneg.
  - apply Qle_shift_div_r; [done|]. rewrite Qmult_1_l. by apply of_nat_le.
Qed.

Lemma chars_inter_comm a b : Text.chars a ∩ Text.chars b = Text.chars b ∩ Text.chars a.
Proof. apply leibniz_equiv. intros x. rewrite !elem_of_intersection. tauto. Qed.
Lemma chars_union_comm a b : Text.chars a ∪ Text.chars b = Text.chars b ∪ Text.chars a.
Proof. apply leibniz_equiv. intros x. rewrite !elem_of_union. tauto. Qed.

(** C7.  The similarity of two skills lies between 0 and 1, a skill has
    similarity 1.0 with itself, and the similarity is symmetric, through
    all four rules (equality, containment, family, shared characters). *)
Theorem C7_similarity (a b : string) :
  (0 <= _skills_similarity a b <= 1)%Q
  ∧ _skills_similarity a a = 1.0%Q
  ∧ _skills_similarity a b = _skills_similarity b a.
Proof.
  split; [|split].
  - unfold _skills_similarity.
    destruct (String.eqb _ _); [split; discriminate|].
    destruct (_ || _); [split; discriminate|].
    destruct (existsb _ _); [split; discriminate|].
    destruct (0 <? _)%nat eqn:Hsz; [|split; discriminate].
    apply jaccard_range. by apply Nat.ltb_lt.
  - unfold _skills_similarity. by rewrite String.eqb_refl.
  - unfold _skills_similarity.
    rewrite (String.eqb_sym (Text.lower b)).
    rewrite (orb_comm (Text.contains (Text.lower b) _)).
    rewrite (existsb_in_family_sym (Text.lower b)).
    rewrite (chars_inter_comm (Text.lower b)).
    rewrite (chars_union_comm (Text.lower b)).
    reflexivity.
Qed.

(** ** Experience score *)

Section Experience.
Variable float_of_str : string → result Q.
Variables resume job : gmap string value.
Variables c r : Q.
Hypothesis Hc : float float_of_str (get resume "experience_years" (VNum 0)) = Ok c.
Hypothesis Hr : float float_of_str (get job "experience_years" (VNum 0)) = Ok r.

Lemma score_experience_eval :
  _score_experience float_of_str resume job = Ok (experience_formula c r).
Proof. unfold _score_experience. rewrite Hc, Hr. reflexivity. Qed.

Lemma experience_no_requirement : r == 0 → experience_formula c r == 100.
Proof.
  intros H0. unfold experience_formula.
  apply Qeq_bool_iff in H0. rewrite H0. reflexivity.
Qed.

Lemma experience_saturates : ¬ r == 0 → (r <= c)%Q → experience_formula c r == 100.
Proof.
  intros Hne Hle. unfold experience_formula.
  destruct (Qeq_bool r 0) eqn:E; [apply Qeq_bool_iff in E; contradiction|].
  apply leb_le in Hle. rewrite Hle. apply leb_le in Hle.
  apply Q.min_r.
  assert (0 <= Qmin ((c - r) * 5) 20)%Q; [|lra].
  apply Q.min_glb; lra.
Qed.

Lemma experience_partial :
  ¬ r == 0 → (c < r)%Q → experience_formula c r == Qmax (c / r * 80) 10.
Proof.
  intros Hne Hlt. unfold experience_formula.
  destruct (Qeq_bool r 0) eqn:E; [apply Qeq_bool_iff in E; contradiction|].
  apply leb_gt in Hlt. rewrite Hlt. reflexivity.
Qed.
End Experience.

(** C3.  When the years of the candidate and of the job are numbers [c]
    and [r], the experience score exists and is 100 if [r] is 0, is 100
    if [r] is positive and [c] is at least [r], however far above, and
    is [max(c / r * 80, 10)] if [c] is below [r]. *)
Theorem C3_experience_score
    (float_of_str : string → result Q) (resume job : gmap string value) (c r : Q) :
  float float_of_str (get resume "experience_years" (VNum 0)) = Ok c →
  float float_of_str (get job "experience_years" (VNum 0)) = Ok r →
  ∃ score : Q,
    _score_experience float_of_str resume job = Ok score
    ∧ (r == 0 → score == 100)
    ∧ (0 < r → r <= c → score == 100)%Q
    ∧ (¬ r == 0 → c < r → score == Qmax (c / r * 80) 10)%Q.
Proof.
  intros Hc Hr. exists (experience_formula c r). split; [|split; [|split]].
  - by apply score_experience_eval.
  - apply experience_no_requirement.
  - intros Hpos. apply experience_saturates. lra.
  - apply experience_partial.
Qed.

Lemma C3_experience_score_witness :
  ∃ score : Q,
    _score_experience no_float_of_str resume_2y job_4y = Ok score
    ∧ (4 == 0 → score == 100)
    ∧ (0 < 4 → 4 <= 2 → score == 100)%Q
    ∧ (¬ 4 == 0 → 2 < 4 → score == Qmax (2 / 4 * 80) 10)%Q.
Proof.
  apply (C3_experience_score no_float_of_str resume_2y job_4y 2 4); reflexivity.
Defined.

(** ** Weights *)

(** In exact arithmetic *)

Lemma adjust_positive s e d self :
  0 < s + e + d →
  adjust_weights s e d self
  = Engine (Weights (s / (s + e + d)) (e / (s + e + d)) (d / (s + e + d))).
Proof. intros H. unfold adjust_weights. apply ltb_lt in H. by rewrite H. Qed.

Lemma adjust_zero s e d self : s + e + d <= 0 → adjust_weights s e d self = self.
Proof. intros H. unfold adjust_weights. apply ltb_ge in H. by rewrite H. Qed.

Lemma normalized_sum s e d :
  0 < s + e + d →
  weights_sum (Weights (s / (s + e + d)) (e / (s + e + d)) (d / (s + e + d))) == 1.
Proof. intros H. unfold weights_sum; simpl. field. lra. Qed.

Lemma adjust_preserves_sum s e d self :
  weights_sum (weights self) == 1 →
  weights_sum (weights (adjust_weights s e d self)) == 1.
Proof.
  intros Hsum. destruct (Qlt_le_dec 0 (s + e + d)) as [Hpos|Hle].
  - rewrite adjust_positive by done. by apply normalized_sum.
  - by rewrite adjust_zero.
Qed.

Lemma reachable_sum self : reachable self → weights_sum (weights self) == 1.
Proof.
  induction 1 as [|s e d self _ _ _ _ IH].
  - reflexivity.
  - by apply adjust_preserves_sum.
Qed.

(** In binary64 *)

Section Weights64.
Import PrimFloat.
Local Open Scope float_scope.






End Weights64.

(** ** Skills score *)

Lemma lower_char_idemp c : Text.lower_char (Text.lower_char c) = Text.lower_char c.
Proof. destruct c as [[] [] [] [] [] [] [] []]; reflexivity. Qed.

Lemma lower_idemp s : Text.lower (Text.lower s) = Text.lower s.
Proof. induction s as [|c s IH]; simpl; [done|]. by rewrite lower_char_idemp, IH. Qed.

Lemma similarity_lower a b :
  _skills_similarity (Text.lower a) (Text.lower b) = _skills_similarity a b.
Proof. unfold _skills_similarity. by rewrite !lower_idemp. Qed.

Lemma lower_all_strings xs : lower_all (strings xs) = Ok (Text.lower <$> xs).
Proof.
  unfold lower_all, strings. simpl.
  change (mapM lower (VStr <$> xs) = Ok (Text.lower <$> xs)).
  induction xs as [|x xs IH]; [done|].
  rewrite fmap_cons. simpl mapM. simpl lower.
  unfold mbind at 1, result_bind at 1. rewrite IH. reflexivity.
Qed.

Lemma mem_lower_present cs q :
  Text.mem (Text.lower q) (Text.lower <$> cs) = Spec.present cs q.
Proof.
  unfold Text.mem, Spec.present.
  induction cs as [|c cs IH]; csimpl; [done|].
  by rewrite IH, (String.eqb_sym (Text.lower q)).
Qed.

Lemma first_similar_similar cs q :
  is_Some (first_similar (Text.lower q) (Text.lower <$> cs)) ↔ Spec.similar cs q = true.
Proof.
  unfold Spec.similar.
  induction cs as [|c cs IH]; csimpl.
  - split; [intros [? [=]] | discriminate].
  - rewrite similarity_lower.
    destruct (ltb _ _); simpl; [|done].
    split; [done | by eexists].
Qed.

Lemma count_exact cs qs :
  length (filter (λ skill, Text.mem skill (Text.lower <$> cs) = true)
                 (Text.lower <$> qs))
  = length (filter (λ r, Spec.present cs r = true) qs).
Proof.
  induction qs as [|q qs IH]; csimpl; [done|].
  rewrite !filter_cons, mem_lower_present.
  destruct (decide (Spec.present cs q = true)); simpl; by rewrite IH.
Qed.

Lemma of_nat_S n : of_nat (S n) == of_nat n + 1.
Proof. unfold of_nat. rewrite Nat2Z.inj_succ, <- Z.add_1_r, inject_Z_plus. reflexivity. Qed.

Lemma fuzzy_loop_credits cs qs acc :
  fuzzy_loop (Text.lower <$> qs) (Text.lower <$> cs) acc
  == acc + Spec.fuzzy_credits cs qs.
Proof.
  unfold Spec.fuzzy_credits.
  revert acc. induction qs as [|q qs IH]; intros acc; csimpl.
  - change (of_nat 0) with 0. lra.
  - rewrite filter_cons, mem_lower_present.
    destruct (Spec.present cs q) eqn:Hp.
    + rewrite decide_False by (intros [? _]; done). apply IH.
    + pose proof (first_similar_similar cs q) as Hs.
      destruct (first_similar _ _) as [x|].
      * rewrite decide_True by (split; [done | apply Hs; by eexists]).
        rewrite IH. simpl length. rewrite of_nat_S. lra.
      * rewrite decide_False.
        { apply IH. }
        intros [_ Hsim]. apply Hs in Hsim. by destruct Hsim.
Qed.

Lemma score_skill_lists_spec cs qs :
  score_skill_lists (Text.lower <$> cs) (Text.lower <$> qs)
  == Spec.skills_score cs qs.
Proof.
  destruct qs as [|q qs]; [reflexivity|].
  unfold score_skill_lists, Spec.skills_score.
  change (Text.lower <$> q :: qs) with (Text.lower <$> (q :: qs)).
  remember (q :: qs) as rs eqn:Hrs.
  assert (0 < of_nat (length rs)) as Hn.
  { apply of_nat_pos. subst rs. simpl. lia. }
  destruct (Text.lower <$> rs) as [|q' qs'] eqn:Hl; [by subst rs|].
  rewrite <- Hl. clear Hl q' qs'.
  rewrite count_exact, (fuzzy_loop_credits cs rs 0), !length_fmap.
  unfold Spec.bonus, Spec.exact_score, Spec.fuzzy_score.
  apply Q.min_compat; [|reflexivity].
  apply Qplus_comp; [|reflexivity].
  apply Q.min_compat; [|reflexivity].
  field. lra.
Qed.

(** C4.  When the skills of the candidate and of the job are lists of
    strings, the skills score exists and is the value of the formula of
    the specification: 80 without required skills, otherwise the exact
    score plus half the fuzzy score, capped at 100, plus the bonus,
    capped at 100. *)
Theorem C4_skills_score (resume job : gmap string value) (cs qs : list string) :
  get resume "skills" (VList []) = strings cs →
  get job "required_skills" (VList []) = strings qs →
  ∃ score : Q,
    _score_skills resume job = Ok score
    ∧ score == Spec.skills_score cs qs
    ∧ (qs = [] → score == 80).
Proof.
  intros Hcs Hqs. exists (score_skill_lists (Text.lower <$> cs) (Text.lower <$> qs)).
  split; [|split].
  - unfold _score_skills. rewrite Hcs, Hqs, !lower_all_strings. reflexivity.
  - apply score_skill_lists_spec.
  - intros ->. reflexivity.
Qed.

Lemma C4_skills_score_witness :
  ∃ score : Q,
    _score_skills resume_web job_web = Ok score
    ∧ score == Spec.skills_score ["Python"; "Django"; "Git"] ["python"; "flask"; "sql"]
    ∧ (["python"; "flask"; "sql"] = [] → score == 80).
Proof.
  apply (C4_skills_score resume_web job_web); reflexivity.
Defined.

(** ** Batch scoring *)

(** The loop gathers the scored records in the order of the batch. *)
Section Batch.
Variable float_of_str : string → result Q.
Variable self : engine.
Variable job : gmap string value.

Lemma batch_loop resumes acc errors :
  (foldl (batch_step float_of_str self job) (acc, errors) resumes).1
  = acc ++ scored float_of_str self job resumes.
Proof.
  revert acc errors. induction resumes as [|r rs IH]; intros acc errors.
  - by rewrite app_nil_r.
  - simpl foldl. unfold scored. csimpl. fold (scored float_of_str self job rs).
    unfold scored_record.
    destruct (score_resume float_of_str self r job) as [sd|e]; csimpl.
    + rewrite IH. by rewrite <- app_assoc.
    + by rewrite IH.
Qed.

Lemma batch_result resumes :
  (batch_score_resumes float_of_str self resumes job).1
  = sort_desc (scored float_of_str self job resumes).
Proof.
  unfold batch_score_resumes.
  pose proof (batch_loop resumes [] []) as H.
  destruct (foldl _ _ resumes) as [s e]. simpl in *. by rewrite H.
Qed.
End Batch.

(** The sort permutes its input and leaves it in descending order. *)
Lemma insert_desc_perm x xs : insert_desc x xs ≡ₚ x :: xs.
Proof.
  induction xs as [|y xs IH]; simpl; [done|].
  destruct (ltb _ _); [|done].
  rewrite IH. apply Permutation_swap.
Qed.

Lemma sort_desc_perm xs : sort_desc xs ≡ₚ xs.
Proof.
  induction xs as [|x xs IH]; simpl; [done|].
  by rewrite insert_desc_perm, IH.
Qed.

Lemma insert_desc_sorted x xs :
  StronglySorted by_total_desc xs → StronglySorted by_total_desc (insert_desc x xs).
Proof.
  induction 1 as [|y xs Hs IH Hy]; simpl.
  - repeat constructor.
  - destruct (ltb _ _) eqn:E.
    + constructor; [done|].
      rewrite insert_desc_perm. constructor; [|done].
      apply ltb_lt in E. unfold by_total_desc. lra.
    + apply ltb_ge in E.
      apply SSorted_cons; [apply SSorted_cons; assumption|].
      apply Forall_cons; split; [exact E|].
      eapply Forall_impl; [exact Hy|]. unfold by_total_desc. intros z Hz. lra.
Qed.

Lemma sort_desc_sorted xs : StronglySorted by_total_desc (sort_desc xs).
Proof.
  induction xs as [|x xs IH]; simpl; [constructor | by apply insert_desc_sorted].
Qed.

Lemma sort_desc_example a b c :
  total_score_of a = 40%Q → total_score_of b = 90%Q → total_score_of c = 70%Q →
  sort_desc [a; b; c] = [b; c; a].
Proof.
  intros Ha Hb Hc. unfold sort_desc. simpl.
  rewrite Hb, Hc. change (ltb 90 70) with false. simpl.
  rewrite Ha, Hb, Hc. reflexivity.
Qed.

(** A call of [score_resume] that raises nothing went through its four
    steps. *)
Lemma bind_Ok {A B} (m : result A) (f : A → result B) (y : B) :
  m ≫= f = Ok y → ∃ x, m = Ok x ∧ f x = Ok y.
Proof. destruct m as [x|e]; [by exists x | discriminate]. Qed.

Lemma score_resume_Ok fos self resume job sd :
  score_resume fos self resume job = Ok sd →
  ∃ s e d a,
    _score_skills resume job = Ok s
    ∧ _score_experience fos resume job = Ok e
    ∧ _score_education resume job = Ok d
    ∧ _analyze_skills resume job = Ok a
    ∧ sd = score_data (weights self) s e d a.
Proof.
  unfold score_resume. intros H.
  apply bind_Ok in H as (s & Hs & H).
  apply bind_Ok in H as (e & He & H).
  apply bind_Ok in H as (d & Hd & H).
  apply bind_Ok in H as (a & Ha & H).
  exists s, e, d, a. repeat split; try done. by injection H.
Qed.

Lemma score_data_total w s e d a :
  score_data w s e d a !! "total_score" = Some (VNum (round1 (weighted_total w s e d))).
Proof. reflexivity. Qed.
Lemma score_data_recommendation w s e d a :
  score_data w s e d a !! "recommendation"
  = Some (VStr (_generate_recommendation (weighted_total w s e d))).
Proof. reflexivity. Qed.

Lemma scored_record_total fos self job resume x :
  scored_record fos self job resume = Some x →
  ∃ sd, score_resume fos self resume job = Ok sd
        ∧ x = sd ∪ resume
        ∧ x !! "total_score" = sd !! "total_score"
        ∧ ∃ q, sd !! "total_score" = Some (VNum q) ∧ total_score_of x = q.
Proof.
  unfold scored_record. destruct (score_resume _ _ _ _) as [sd|e] eqn:E; [|done].
  intros [= <-]. exists sd. split; [done|]. split; [done|].
  apply score_resume_Ok in E as (s & e & d & a & _ & _ & _ & _ & ->).
  assert ((score_data (weights self) s e d a ∪ resume) !! "total_score"
          = Some (VNum (round1 (weighted_total (weights self) s e d)))) as Hl.
  { apply lookup_union_Some_l. apply score_data_total. }
  split; [by rewrite Hl, score_data_total|].
  eexists. split; [apply score_data_total|].
  unfold total_score_of, get. by rewrite Hl.
Qed.

Lemma elem_of_scored fos self job resumes x :
  x ∈ scored fos self job resumes ↔
  ∃ resume sd, resume ∈ resumes ∧ score_resume fos self resume job = Ok sd
               ∧ x = sd ∪ resume.
Proof.
  unfold scored. rewrite list_elem_of_omap. split.
  - intros (r & Hr & Hx). apply scored_record_total in Hx as (sd & ? & ? & _).
    by exists r, sd.
  - intros (r & sd & Hr & Hs & ->). exists r. split; [done|].
    unfold scored_record. by rewrite Hs.
Qed.

(** C5.  The records [batch_score_resumes] returns are the scored
    records of the candidates whose scoring raises nothing, each once,
    in descending order of total score: a candidate whose scoring raises
    is left out and every other one is there.  Totals 40, 90, 70 come
    back as 90, 70, 40. *)
Theorem C5_batch_score_resumes
    (float_of_str : string → result Q) (self : engine)
    (resumes : list (gmap string value)) (job : gmap string value) :
  let out := (batch_score_resumes float_of_str self resumes job).1 in
  out ≡ₚ scored float_of_str self job resumes
  ∧ StronglySorted by_total_desc out
  ∧ (∀ resume sd,
       resume ∈ resumes → score_resume float_of_str self resume job = Ok sd →
       sd ∪ resume ∈ out)
  ∧ (∀ x, x ∈ out →
       ∃ resume sd,
         resume ∈ resumes ∧ score_resume float_of_str self resume job = Ok sd
         ∧ x = sd ∪ resume
         ∧ ∃ q, sd !! "total_score" = Some (VNum q) ∧ total_score_of x = q)
  ∧ (total_score_of <$> scored float_of_str self job resumes = [40; 90; 70] →
     total_score_of <$> out = [90; 70; 40]).
Proof.
  intros out. unfold out. rewrite batch_result.
  split; [apply sort_desc_perm|]. split; [apply sort_desc_sorted|].
  split; [|split].
  - intros r sd Hr Hs. rewrite sort_desc_perm. apply elem_of_scored. by exists r, sd.
  - intros x. rewrite sort_desc_perm. intros Hx.
    apply elem_of_scored in Hx as (r & sd & Hr & Hs & ->).
    exists r, sd. repeat split; try done.
    destruct (scored_record_total float_of_str self job r (sd ∪ r))
      as (sd' & Hs' & _ & _ & q & Hq & Hq').
    { unfold scored_record. by rewrite Hs. }
    rewrite Hs in Hs'. injection Hs' as <-. by exists q.
  - intros Htot.
    destruct (scored _ _ _ _) as [|a [|b [|c [|??]]]]; try discriminate.
    injection Htot as Ha Hb Hc.
    by rewrite (sort_desc_example a b c), !fmap_cons, Ha, Hb, Hc.
Qed.

Lemma C5_batch_score_resumes_witness :
  total_score_of <$>
    (batch_score_resumes no_float_of_str __init__
       [candidate_a; candidate_bad; candidate_b; candidate_c] job_python).1
  = [90; 70; 40].
Proof.
  apply (C5_batch_score_resumes no_float_of_str __init__
           [candidate_a; candidate_bad; candidate_b; candidate_c] job_python).
  vm_compute. reflexivity.
Defined.

(** ** Recommendation *)

Lemma straddles_intro resume bound r total :
  unrounded_total no_float_of_str __init__ resume job_two_skills = Ok total →
  bound - 0.05 <= total < bound →
  round1 total = bound →
  recommendation_of total = r →
  straddles resume bound r.
Proof.
  unfold unrounded_total. intros Ht [Hlo Hhi] Hround Hrec.
  apply bind_Ok in Ht as (s & Hs & Ht).
  apply bind_Ok in Ht as (e & He & Ht).
  apply bind_Ok in Ht as (d & Hd & Ht).
  assert (weighted_total (weights __init__) s e d = total) as Hw
    by (by injection Ht).
  clear Ht.
  destruct (_analyze_skills resume job_two_skills) as [a|x] eqn:Ha.
  - exists total, (score_data (weights __init__) s e d a).
    split. { unfold unrounded_total. rewrite Hs, He, Hd. simpl. by rewrite <- Hw. }
    split; [done|]. split; [done|].
    split. { unfold score_resume. rewrite Hs, He, Hd, Ha. reflexivity. }
    rewrite score_data_total, score_data_recommendation, Hw.
    unfold _generate_recommendation. by rewrite Hround, Hrec.
  - exfalso. unfold _analyze_skills, _score_skills in *.
    destruct (lower_all (get resume "skills" (VList []))); [|done].
    destruct (lower_all (get job_two_skills "required_skills" (VList []))); [|done].
    simpl in Ha. by destruct (foldl _ _ _).
Qed.

(** C10.  The total a record reports is the weighted total rounded to one
    decimal, and its recommendation is the band of the weighted total
    before rounding.  So a record can report 85.0 with the
    recommendation of the band below 85, and the same at 70, 55 and 40. *)
Theorem C10_recommendation_from_unrounded_total :
  (∀ float_of_str self resume job sd,
     score_resume float_of_str self resume job = Ok sd →
     ∃ total,
       unrounded_total float_of_str self resume job = Ok total
       ∧ sd !! "total_score" = Some (VNum (round1 total))
       ∧ sd !! "recommendation" = Some (VStr (_generate_recommendation total)))
  ∧ straddles near_85 85 GoodMatch
  ∧ straddles near_70 70 FairMatch
  ∧ straddles near_55 55 PoorMatch
  ∧ straddles near_40 40 VeryPoorMatch.
Proof.
  split; [|repeat split].
  - intros fos self resume job sd H.
    apply score_resume_Ok in H as (s & e & d & a & Hs & He & Hd & _ & ->).
    exists (weighted_total (weights self) s e d).
    split; [|split; reflexivity].
    unfold unrounded_total. by rewrite Hs, He, Hd.
  - eapply straddles_intro; [vm_compute; reflexivity| |by vm_compute..].
    split; by vm_compute.
  - eapply straddles_intro; [vm_compute; reflexivity| |by vm_compute..].
    split; by vm_compute.
  - eapply straddles_intro; [vm_compute; reflexivity| |by vm_compute..].
    split; by vm_compute.
  - eapply straddles_intro; [vm_compute; reflexivity| |by vm_compute..].
    split; by vm_compute.
Qed.

End Scoring.

Import Extractor ResumeProcessor.

(** * Further properties of the scoring engine *)

(** ** Ranges of the scores *)

Section ScoreBounds.
Local Open Scope Q_scope.

Lemma fuzzy_loop_ge qs rs acc : acc <= fuzzy_loop qs rs acc.
Proof.
  revert acc. induction qs as [|q qs IH]; intros acc; simpl; [lra|].
  destruct (Text.mem q rs); [apply IH|].
  destruct (first_similar q rs); [|apply IH].
  specialize (IH (acc + 0.8)). lra.
Qed.

Lemma div_of_nat_nonneg x n : 0 <= x → 0 <= x / of_nat n.
Proof.
  intros Hx. unfold Qdiv. apply Qmult_le_0_compat; [done|].
  apply Qinv_le_0_compat, of_nat_nonneg.
Qed.

Lemma score_skill_lists_range rs qs :
  0 <= score_skill_lists rs qs <= 100.
Proof.
  unfold score_skill_lists. destruct qs as [|q qs]; [split; discriminate|].
  set (n := of_nat (length (q :: qs))).
  set (exact := of_nat _ / n * 100).
  set (fuzzy := fuzzy_loop _ _ _ / n * 100).
  set (bonus := if (10 <? length rs)%nat then _ else _).
  assert (0 <= exact) as He.
  { unfold exact. apply Qmult_le_0_compat; [|discriminate].
    apply div_of_nat_nonneg, of_nat_nonneg. }
  assert (0 <= fuzzy) as Hf.
  { unfold fuzzy. apply Qmult_le_0_compat; [|discriminate].
    apply div_of_nat_nonneg, fuzzy_loop_ge. }
  assert (0 <= bonus) as Hb.
  { unfold bonus. destruct (10 <? length rs)%nat; [|discriminate].
    apply Q.min_glb; [|discriminate].
    apply Qmult_le_0_compat; [apply of_nat_nonneg | discriminate]. }
  split; [|apply Q.le_min_r].
  apply Q.min_glb; [|discriminate].
  assert (0 <= Qmin (exact + fuzzy * 0.5) 100); [|lra].
  apply Q.min_glb; [|discriminate]. lra.
Qed.

Lemma score_skills_range (resume job : gmap string value) (score : Q) :
  _score_skills resume job = Ok score → 0 <= score <= 100.
Proof.
  unfold _score_skills. intros H.
  apply bind_Ok in H as (rs & _ & H).
  apply bind_Ok in H as (qs & _ & H).
  injection H as <-. apply score_skill_lists_range.
Qed.

(** X1.  Whenever [_score_skills] returns a score, whatever the two
    records hold, the score is from 0 to 100: the bonus for many skills
    never lifts it above 100. *)
Theorem X1_score_skills_range (resume job : gmap string value) (score : Q) :
  _score_skills resume job = Ok score → 0 <= score <= 100.
Proof. apply score_skills_range. Qed.

Lemma X1_score_skills_range_witness :
  0 <= score_skill_lists ["python"; "django"; "git"] ["python"; "flask"; "sql"]
    <= 100.
Proof. apply (X1_score_skills_range resume_web job_web). reflexivity. Defined.

Lemma experience_formula_range c r :
  0 <= r → 10 <= experience_formula c r <= 100.
Proof.
  intros Hr. unfold experience_formula.
  destruct (Qeq_bool r 0) eqn:E0; [split; discriminate|].
  assert (0 < r) as Hpos.
  { apply Qeq_bool_neq in E0. apply Qle_lteq in Hr as [?|Hr]; [done|].
    exfalso. apply E0. by symmetry. }
  destruct (leb r c) eqn:E.
  - apply leb_le in E.
    assert (0 <= Qmin ((c - r) * 5) 20) by (apply Q.min_glb; lra).
    rewrite Q.min_r by lra. split; discriminate.
  - apply leb_gt in E. split; [apply Q.le_max_r|].
    apply Q.max_lub; [|discriminate].
    assert (c / r <= 1); [|lra].
    apply Qle_shift_div_r; lra.
Qed.

Lemma score_experience_range fos (resume job : gmap string value) (r score : Q) :
  float fos (get job "experience_years" (VNum 0)) = Ok r →
  0 <= r →
  _score_experience fos resume job = Ok score →
  10 <= score <= 100.
Proof.
  intros Hr Hpos. unfold _score_experience. intros H.
  apply bind_Ok in H as (c & _ & H). rewrite Hr in H.
  injection H as <-. by apply (experience_formula_range c r).
Qed.

(** X2.  When the years the job requires are a number that is not
    negative, every score [_score_experience] returns is from 10 to 100,
    whatever the years of the candidate: also for a candidate with
    negative years. *)
Theorem X2_score_experience_range
        fos (resume job : gmap string value) (r score : Q) :
  float fos (get job "experience_years" (VNum 0)) = Ok r →
  0 <= r →
  _score_experience fos resume job = Ok score →
  10 <= score <= 100.
Proof. apply score_experience_range. Qed.

Lemma X2_score_experience_range_witness :
  10 <= experience_formula 2 4 <= 100.
Proof.
  apply (X2_score_experience_range no_float_of_str resume_2y job_4y 4);
    [reflexivity | discriminate | reflexivity].
Defined.

Lemma education_level_range v l : education_level_of v = Ok l → (1 ≤ l ≤ 5)%Z.
Proof.
  destruct v as [|q|s|xs]; simpl; [intros [= <-]; lia..| |done].
  intros [= <-].
  destruct (education_levels !! s) as [l|] eqn:E; simpl; [|lia].
  apply elem_of_list_to_map_2 in E.
  repeat (apply elem_of_cons in E as [[= -> ->]|E]; [lia|]).
  by apply elem_of_nil in E.
Qed.

Lemma education_formula_range rl ql :
  (1 ≤ rl)%Z → (1 ≤ ql)%Z →
  30 <= education_formula rl ql <= 100
  ∧ (education_formula rl ql == 100 ↔ (ql ≤ rl)%Z).
Proof.
  intros Hrl Hql. unfold education_formula.
  destruct (ql <=? rl)%Z eqn:E.
  - apply Z.leb_le in E. rewrite Z.min_r by lia. split; [split; discriminate|].
    split; [done|reflexivity].
  - apply Z.leb_gt in E.
    assert (0 < inject_Z ql) as Hq by (unfold Qlt; simpl; lia).
    assert (inject_Z rl / inject_Z ql * 70 < 70) as Hlt.
    { assert (inject_Z rl / inject_Z ql < 1); [|lra].
      apply Qlt_shift_div_r; [done|]. rewrite Qmult_1_l.
      rewrite <- Zlt_Qlt. lia. }
    split; [split; [apply Q.le_max_r|]|].
    + apply Q.max_lub; [lra|discriminate].
    + split; [|lia]. intros H100.
      assert (Qmax (inject_Z rl / inject_Z ql * 70) 30 < 100); [|lra].
      apply Q.max_lub_lt; [lra|reflexivity].
Qed.

Lemma score_education_range (resume job : gmap string value) (score : Q) :
  _score_education resume job = Ok score →
  ∃ rl ql : Z,
    education_level_of (get resume "education" (VStr "Not specified")) = Ok rl
    ∧ education_level_of (get job "education_level" (VStr "High School")) = Ok ql
    ∧ 30 <= score <= 100
    ∧ (score == 100 ↔ (ql ≤ rl)%Z).
Proof.
  unfold _score_education. intros H.
  apply bind_Ok in H as (rl & Hrl & H).
  apply bind_Ok in H as (ql & Hql & H).
  injection H as <-. exists rl, ql. split; [done|]. split; [done|].
  apply education_level_range in Hrl, Hql.
  apply (education_formula_range rl ql); lia.
Qed.

(** X3.  Every score [_score_education] returns is from 30 to 100, and
    it is 100 exactly when the level of the candidate is at least the
    level required: a higher degree earns nothing more. *)
Theorem X3_score_education_range (resume job : gmap string value) (score : Q) :
  _score_education resume job = Ok score →
  ∃ rl ql : Z,
    education_level_of (get resume "education" (VStr "Not specified")) = Ok rl
    ∧ education_level_of (get job "education_level" (VStr "High School")) = Ok ql
    ∧ 30 <= score <= 100
    ∧ (score == 100 ↔ (ql ≤ rl)%Z).
Proof. apply score_education_range. Qed.

Lemma X3_score_education_range_witness :
  ∃ rl ql : Z,
    education_level_of (get candidate_c "education" (VStr "Not specified")) = Ok rl
    ∧ education_level_of (get job_python "education_level" (VStr "High School"))
      = Ok ql
    ∧ 30 <= education_formula 1 3 <= 100
    ∧ (education_formula 1 3 == 100 ↔ (ql ≤ rl)%Z).
Proof. apply (X3_score_education_range candidate_c job_python). reflexivity. Defined.
End ScoreBounds.


(** ** Rounding and the weighted total *)

Section Rounding.
Local Open Scope Q_scope.

Ltac tenths :=
  unfold Qdiv in *; change (/ 10) with (1 # 10) in *;
  change (inject_Z 1) with 1 in *.

(** [round1 x] is a whole number of tenths, at most 0.05 away from [x]. *)
Lemma round1_tenths x :
  ∃ n : Z, round1 x = Qred (inject_Z n / 10)
           ∧ x - (1 # 20) <= inject_Z n / 10 ∧ inject_Z n / 10 <= x + (1 # 20).
Proof.
  unfold round1.
  pose proof (Qfloor_le (x * 10)) as Hlo.
  pose proof (Qlt_floor (x * 10)) as Hhi.
  rewrite inject_Z_plus in Hhi.
  remember (Qfloor (x * 10)) as f eqn:Hf. clear Hf.
  destruct (ltb (x * 10 - inject_Z f) (1 # 2)) eqn:E1.
  { exists f. split; [done|]. apply ltb_lt in E1. tenths. split; lra. }
  apply ltb_ge in E1.
  destruct (ltb (1 # 2) (x * 10 - inject_Z f)) eqn:E2.
  { exists (f + 1)%Z. split; [done|]. rewrite inject_Z_plus. tenths. split; lra. }
  apply ltb_ge in E2.
  destruct (Z.even f).
  - exists f. split; [done|]. tenths. split; lra.
  - exists (f + 1)%Z. split; [done|]. rewrite inject_Z_plus. tenths. split; lra.
Qed.

Lemma round1_range (a b : Z) x :
  inject_Z a <= x → x <= inject_Z b → inject_Z a <= round1 x <= inject_Z b.
Proof.
  intros Ha Hb. destruct (round1_tenths x) as (n & -> & Hlo & Hhi).
  rewrite Qred_correct. tenths.
  assert (10 * a ≤ n)%Z as H1.
  { assert (inject_Z (20 * a) <= inject_Z (2 * n + 1)) as H.
    { rewrite inject_Z_plus, !inject_Z_mult.
      change (inject_Z 20) with 20. change (inject_Z 2) with 2.
      change (inject_Z 1) with 1. lra. }
    rewrite <- Zle_Qle in H. lia. }
  assert (n ≤ 10 * b)%Z as H2.
  { assert (inject_Z (2 * n) <= inject_Z (20 * b + 1)) as H.
    { rewrite !inject_Z_mult, inject_Z_plus, inject_Z_mult.
      change (inject_Z 20) with 20. change (inject_Z 2) with 2.
      change (inject_Z 1) with 1. lra. }
    rewrite <- Zle_Qle in H. lia. }
  rewrite Zle_Qle, inject_Z_mult in H1, H2.
  change (inject_Z 10) with 10 in *. split; lra.
Qed.

Lemma reachable_nonneg self :
  reachable self →
  0 <= skills (weights self) ∧ 0 <= experience (weights self)
  ∧ 0 <= education (weights self).
Proof.
  induction 1 as [|s e d self Hs He Hd _ IH].
  - repeat split; discriminate.
  - destruct (Qlt_le_dec 0 (s + e + d)) as [Hpos|Hle].
    + rewrite adjust_positive by done. simpl.
      repeat split; apply Qle_shift_div_l; lra.
    + by rewrite adjust_zero.
Qed.

Lemma weighted_total_range w s e d :
  0 <= skills w → 0 <= experience w → 0 <= education w →
  weights_sum w == 1 →
  0 <= s <= 100 → 0 <= e <= 100 → 0 <= d <= 100 →
  0 <= weighted_total w s e d <= 100.
Proof.
  unfold weights_sum, weighted_total. intros Hs He Hd Hsum [] [] [].
  split; [nra|].
  assert (s * skills w <= 100 * skills w) by nra.
  assert (e * experience w <= 100 * experience w) by nra.
  assert (d * education w <= 100 * education w) by nra.
  lra.
Qed.
End Rounding.


(** ** The scores reported, the bands and the weights *)

Section ScoreResume.
Local Open Scope Q_scope.

Lemma score_resume_range fos self (resume job : gmap string value) (r : Q) sd :
  reachable self →
  float fos (get job "experience_years" (VNum 0)) = Ok r →
  0 <= r →
  score_resume fos self resume job = Ok sd →
  ∀ key, key ∈ score_keys →
    ∃ q n, sd !! key = Some (VNum q) ∧ q = Qred (inject_Z n / 10)
           ∧ 0 <= q <= 100.
Proof.
  intros Hreach Hr Hpos Hsd.
  apply score_resume_Ok in Hsd as (s & e & d & a & Hs & He & Hd & _ & ->).
  apply score_skills_range in Hs.
  apply (score_experience_range fos resume job r e Hr Hpos) in He.
  apply score_education_range in Hd as (_ & _ & _ & _ & Hd & _).
  destruct (reachable_nonneg self Hreach) as (Hw1 & Hw2 & Hw3).
  pose proof (reachable_sum self Hreach) as Hsum.
  assert (∀ x, 0 <= x <= 100 →
               ∃ n, round1 x = Qred (inject_Z n / 10) ∧ 0 <= round1 x <= 100) as Hround.
  { intros x [Hx0 Hx1]. destruct (round1_tenths x) as (n & Hn & _).
    exists n. split; [done|]. by apply (round1_range 0 100). }
  assert (0 <= e <= 100) as He' by (split; lra).
  assert (0 <= d <= 100) as Hd' by (split; lra).
  pose proof (weighted_total_range (weights self) s e d Hw1 Hw2 Hw3 Hsum Hs He' Hd') as Ht.
  intros key Hkey. unfold score_keys in Hkey.
  repeat (apply elem_of_cons in Hkey as [->|Hkey]);
    [| | | |by apply elem_of_nil in Hkey].
  - destruct (Hround _ Ht) as (n & Hn & ?). by exists (round1 (weighted_total (weights self) s e d)), n.
  - destruct (Hround _ Hs) as (n & Hn & ?). by exists (round1 s), n.
  - destruct (Hround _ He') as (n & Hn & ?). by exists (round1 e), n.
  - destruct (Hround _ Hd') as (n & Hn & ?). by exists (round1 d), n.
Qed.

(** X4.  For an engine whose weights are the initial ones or were set
    by [adjust_weights] with non-negative numbers, and a job whose
    required years are not negative: each of the four scores in the
    dict [score_resume] returns is a number of tenths from 0 to 100. *)
Theorem X4_score_resume_range
        fos self (resume job : gmap string value) (r : Q) sd :
  reachable self →
  float fos (get job "experience_years" (VNum 0)) = Ok r →
  0 <= r →
  score_resume fos self resume job = Ok sd →
  ∀ key, key ∈ score_keys →
    ∃ q n, sd !! key = Some (VNum q) ∧ q = Qred (inject_Z n / 10)
           ∧ 0 <= q <= 100.
Proof. apply score_resume_range. Qed.

Lemma X4_score_resume_range_witness :
  ∃ q n, sample_scored !! "total_score" = Some (VNum q)
         ∧ q = Qred (inject_Z n / 10) ∧ 0 <= q <= 100.
Proof.
  apply (X4_score_resume_range no_float_of_str __init__ candidate_b job_python 6
           sample_scored);
    [constructor | reflexivity | discriminate | reflexivity | left].
Defined.

Lemma recommendation_band_mono (a b : Q) :
  a <= b → (band_rank (recommendation_of a) ≤ band_rank (recommendation_of b))%nat.
Proof.
  intros Hab. unfold recommendation_of.
  repeat match goal with
  | |- context [leb ?x ?y] =>
      let E := fresh "E" in
      destruct (leb x y) eqn:E; [apply leb_le in E | apply leb_gt in E]
  end; simpl; try lia; lra.
Qed.

(** X5.  The recommendation is monotone in the total score: a higher
    total never gives a lower band. *)
Theorem X5_recommendation_monotone (a b : Q) :
  a <= b → (band_rank (recommendation_of a) ≤ band_rank (recommendation_of b))%nat.
Proof. apply recommendation_band_mono. Qed.

Lemma X5_recommendation_monotone_witness :
  (band_rank (recommendation_of 60) ≤ band_rank (recommendation_of 90))%nat.
Proof. apply (X5_recommendation_monotone 60 90). discriminate. Defined.

End ScoreResume.


(** ** Skill analysis *)

Section Analysis.
Local Open Scope Q_scope.

Lemma fuzzy_loop_count rs qs acc :
  fuzzy_loop qs rs acc == acc + 0.8 * of_nat (fuzzy_count rs qs).
Proof.
  unfold fuzzy_count. revert acc. induction qs as [|q qs IH]; intros acc; simpl.
  - change (of_nat 0) with 0. lra.
  - rewrite filter_cons. destruct (Text.mem q rs) eqn:Hm.
    + rewrite decide_False by (intros [? _]; done). apply IH.
    + destruct (first_similar q rs) as [x|] eqn:Hs.
      * rewrite decide_True by (split; [done | by eexists]).
        rewrite IH. simpl length. rewrite of_nat_S. lra.
      * rewrite decide_False by (intros [_ [? ?]]; done). apply IH.
Qed.

Lemma analyze_required_count rs qs m x :
  let '(m', x') := foldl (analyze_required rs) (m, x) qs in
  length m' = (length m + exact_count rs qs + fuzzy_count rs qs)%nat
  ∧ (length m' + length x' = length m + length x + length qs)%nat.
Proof.
  unfold exact_count, fuzzy_count.
  revert m x. induction qs as [|q qs IH]; intros m x; simpl.
  - lia.
  - rewrite !filter_cons. destruct (Text.mem q rs) eqn:Hm.
    + rewrite decide_True by done. rewrite decide_False by (intros [? _]; done).
      specialize (IH (m ++ [Text.title q]) x).
      destruct (foldl _ _ qs) as [m' x']. rewrite length_app in IH. simpl in *. lia.
    + rewrite decide_False by done.
      destruct (first_similar q rs) as [y|] eqn:Hs.
      * rewrite decide_True by (split; [done | by eexists]).
        match goal with |- context [foldl _ (?a, x) qs] => specialize (IH a x) end.
        destruct (foldl _ _ qs) as [m' x']. rewrite length_app in IH. simpl in *. lia.
      * rewrite decide_False by (intros [_ [? ?]]; done).
        specialize (IH m (x ++ [Text.title q])).
        destruct (foldl _ _ qs) as [m' x']. rewrite length_app in IH. simpl in *. lia.
Qed.

(** The skills score in terms of the two counts. *)
Lemma score_skill_lists_counts rs qs :
  qs ≠ [] →
  score_skill_lists rs qs
  == Qmin (Qmin ((100 * of_nat (exact_count rs qs) + 40 * of_nat (fuzzy_count rs qs))
                 / of_nat (length qs)) 100
           + (if (10 <? length rs)%nat then Qmin (of_nat (length rs) * 2) 20 else 0))
          100.
Proof.
  intros Hne. unfold score_skill_lists. destruct qs as [|q qs]; [done|].
  assert (0 < of_nat (length (q :: qs))) as Hn by (apply of_nat_pos; simpl; lia).
  unfold exact_count.
  apply Q.min_compat; [|reflexivity].
  apply Qplus_comp; [|reflexivity].
  apply Q.min_compat; [|reflexivity].
  rewrite (fuzzy_loop_count rs (q :: qs) 0). field. lra.
Qed.

(** X7.  The analysis of [_analyze_skills] accounts for every required
    skill once, as matched or as missing, and lists at most 20
    additional skills.  It agrees with the score of [_score_skills]:
    with nothing missing the score is not 0, and with nothing matched
    it is 0 for a candidate of at most 10 skills. *)
Theorem X7_analyze_skills_accounts (resume job : gmap string value) a score :
  _analyze_skills resume job = Ok a →
  _score_skills resume job = Ok score →
  ∃ rs qs,
    lower_all (get resume "skills" (VList [])) = Ok rs
    ∧ lower_all (get job "required_skills" (VList [])) = Ok qs
    ∧ (length (matched a) + length (missing a) = length qs)%nat
    ∧ (length (additional a) ≤ 20)%nat
    ∧ (qs ≠ [] → missing a = [] → 0 < score)
    ∧ (qs ≠ [] → matched a = [] → (length rs ≤ 10)%nat → score == 0).
Proof.
  unfold _analyze_skills, _score_skills. intros Ha Hs.
  apply bind_Ok in Ha as (rs & Hrs & Ha).
  apply bind_Ok in Ha as (qs & Hqs & Ha).
  rewrite Hrs, Hqs in Hs. injection Hs as <-.
  exists rs, qs. split; [done|]. split; [done|].
  pose proof (analyze_required_count rs qs [] []) as Hc.
  destruct (foldl _ _ qs) as [m x]. injection Ha as <-. simpl in *.
  destruct Hc as [Hm Hmx].
  split; [lia|]. split; [rewrite length_take; lia|].
  split.
  - intros Hne ->. rewrite score_skill_lists_counts by done.
    simpl in Hmx.
    assert (0 < of_nat (length qs)) as Hn.
    { apply of_nat_pos. destruct qs; [done|simpl; lia]. }
    assert (of_nat (length qs)
            == of_nat (exact_count rs qs) + of_nat (fuzzy_count rs qs)) as Hsum.
    { unfold of_nat. rewrite <- inject_Z_plus, <- Nat2Z.inj_add.
      by replace (exact_count rs qs + fuzzy_count rs qs)%nat with (length qs) by lia. }
    pose proof (of_nat_nonneg (exact_count rs qs)).
    pose proof (of_nat_nonneg (fuzzy_count rs qs)).
    assert (40 <= (100 * of_nat (exact_count rs qs) + 40 * of_nat (fuzzy_count rs qs))
                  / of_nat (length qs)) as H40.
    { apply Qle_shift_div_l; [done|]. rewrite Hsum. lra. }
    assert (0 <= (if (10 <? length rs)%nat
                  then Qmin (of_nat (length rs) * 2) 20 else 0)) as Hb.
    { destruct (10 <? length rs)%nat; [|discriminate].
      apply Q.min_glb; [|discriminate]. pose proof (of_nat_nonneg (length rs)). lra. }
    assert (40 <= Qmin ((100 * of_nat (exact_count rs qs)
                         + 40 * of_nat (fuzzy_count rs qs)) / of_nat (length qs)) 100).
    { apply Q.min_glb; [done|discriminate]. }
    apply Q.min_glb_lt; [lra|reflexivity].
  - intros Hne -> Hlen. rewrite score_skill_lists_counts by done.
    simpl in Hm.
    replace (exact_count rs qs) with 0%nat by lia.
    replace (fuzzy_count rs qs) with 0%nat by lia.
    rewrite (proj2 (Nat.ltb_ge 10 (length rs))) by lia.
    change (of_nat 0) with 0.
    assert ((100 * 0 + 40 * 0) / of_nat (length qs) == 0) as -> by (unfold Qdiv; lra).
    reflexivity.
Qed.

Lemma X7_analyze_skills_accounts_witness :
  ∃ rs qs,
    lower_all (get resume_web "skills" (VList [])) = Ok rs
    ∧ lower_all (get job_web "required_skills" (VList [])) = Ok qs
    ∧ (length (matched sample_analysis) + length (missing sample_analysis)
       = length qs)%nat
    ∧ (length (additional sample_analysis) ≤ 20)%nat
    ∧ (qs ≠ [] → missing sample_analysis = [] →
       0 < score_skill_lists ["python"; "django"; "git"]
                             ["python"; "flask"; "sql"])
    ∧ (qs ≠ [] → matched sample_analysis = [] → (length rs ≤ 10)%nat →
       score_skill_lists ["python"; "django"; "git"]
                         ["python"; "flask"; "sql"] == 0).
Proof.
  apply (X7_analyze_skills_accounts resume_web job_web); reflexivity.
Defined.

(** X8.  Two skills related only through a technology family, neither
    equal nor one contained in the other, have similarity 0.7, which is
    not above the threshold of the fuzzy match: the family alone never
    makes a required skill count as similar. *)
Theorem X8_family_not_similar (a b : string) :
  Text.lower a ≠ Text.lower b →
  Text.contains (Text.lower a) (Text.lower b) = false →
  Text.contains (Text.lower b) (Text.lower a) = false →
  existsb (in_family (Text.lower a) (Text.lower b)) tech_families = true →
  _skills_similarity a b = 0.7
  ∧ first_similar a [b] = None
  ∧ Spec.similar [b] a = false.
Proof.
  intros Hne Hab Hba Hfam.
  assert (_skills_similarity a b = 0.7) as Hsim.
  { unfold _skills_similarity.
    rewrite (proj2 (String.eqb_neq _ _) Hne), Hab, Hba, Hfam. reflexivity. }
  split; [done|]. unfold Spec.similar. simpl. by rewrite Hsim.
Qed.

Lemma X8_family_not_similar_witness :
  _skills_similarity "React" "Angular" = 0.7
  ∧ first_similar "React" ["Angular"] = None
  ∧ Spec.similar ["Angular"] "React" = false.
Proof.
  apply (X8_family_not_similar "React" "Angular");
    [discriminate | reflexivity..].
Defined.

End Analysis.


(** ** Order of a batch, and jobs and educations that state nothing *)

Section BatchOrder.
Local Open Scope Q_scope.

Lemma insert_desc_with_total q x xs :
  with_total q (insert_desc x xs) = with_total q (x :: xs).
Proof.
  unfold with_total. induction xs as [|y xs IH]; simpl; [done|].
  destruct (ltb (total_score_of x) (total_score_of y)) eqn:E; [|done].
  apply ltb_lt in E.
  rewrite (filter_cons _ y), IH, !filter_cons.
  destruct (decide (Qeq_bool (total_score_of y) q = true)) as [Hy|Hy];
    destruct (decide (Qeq_bool (total_score_of x) q = true)) as [Hx|Hx]; try done.
  apply Qeq_bool_iff in Hx, Hy. lra.
Qed.

Lemma sort_desc_with_total q xs : with_total q (sort_desc xs) = with_total q xs.
Proof.
  induction xs as [|x xs IH]; [done|].
  simpl sort_desc. rewrite insert_desc_with_total.
  unfold with_total in *. by rewrite !filter_cons, IH.
Qed.

Lemma batch_loop_lengths fos self job resumes acc errors :
  let out := foldl (batch_step fos self job) (acc, errors) resumes in
  (length out.1 + length out.2 = length acc + length errors + length resumes)%nat.
Proof.
  revert acc errors. induction resumes as [|r rs IH]; intros acc errors; simpl.
  - lia.
  - destruct (score_resume fos self r job) as [sd|e].
    + specialize (IH (acc ++ [sd ∪ r]) errors). simpl in IH.
      rewrite length_app in IH. simpl in IH. lia.
    + specialize (IH acc (errors ++ [(get r "filename" (VStr "Unknown"), e)])).
      simpl in IH. rewrite length_app in IH. simpl in IH. lia.
Qed.

(** X9.  [batch_score_resumes] keeps the order of the batch among the
    records of equal total score, and every resume of the batch is
    either in the list returned or among the errors reported; an empty
    batch gives an empty list and no error. *)
Theorem X9_batch_stable_and_accounted
        fos self (resumes : list (gmap string value)) job :
  let out := batch_score_resumes fos self resumes job in
  (∀ q, with_total q out.1 = with_total q (scored fos self job resumes))
  ∧ (length out.1 + length out.2 = length resumes)%nat
  ∧ batch_score_resumes fos self [] job = ([], []).
Proof.
  split; [|split].
  - intros q. rewrite batch_result. apply sort_desc_with_total.
  - unfold batch_score_resumes.
    pose proof (batch_loop_lengths fos self job resumes [] []) as H.
    destruct (foldl _ _ resumes) as [s e]. simpl in *.
    rewrite (Permutation_length (sort_desc_perm s)). lia.
  - reflexivity.
Qed.

(** X10.  Against a job profile that states nothing, with the initial
    weights, every candidate with a list of skills, a number of years
    and an education scores 80 for skills and 100 for experience and
    education, 90 in total: a strong match. *)
Theorem X10_score_resume_no_requirements
        fos (resume : gmap string value) cs c l :
  get resume "skills" (VList []) = strings cs →
  float fos (get resume "experience_years" (VNum 0)) = Ok c →
  education_level_of (get resume "education" (VStr "Not specified")) = Ok l →
  ∃ sd,
    score_resume fos __init__ resume ∅ = Ok sd
    ∧ sd !! "skills_score" = Some (VNum 80)
    ∧ sd !! "experience_score" = Some (VNum 100)
    ∧ sd !! "education_score" = Some (VNum 100)
    ∧ sd !! "total_score" = Some (VNum 90)
    ∧ sd !! "recommendation" = Some (VStr (recommendation_label StrongMatch)).
Proof.
  intros Hcs Hc Hl.
  assert (_score_skills resume ∅ = Ok 80.0) as Hs.
  { unfold _score_skills. rewrite Hcs, lower_all_strings. reflexivity. }
  assert (_score_experience fos resume ∅ = Ok 100.0) as He.
  { unfold _score_experience. rewrite Hc. reflexivity. }
  assert (_score_education resume ∅ = Ok (inject_Z 100)) as Hd.
  { unfold _score_education. rewrite Hl.
    change (get ∅ "education_level" (VStr "High School")) with (VStr "High School").
    change (education_level_of (VStr "High School")) with (Ok 1%Z : result Z).
    apply education_level_range in Hl.
    cbn [mbind result_bind mret result_ret].
    rewrite (proj2 (Z.leb_le 1 l)) by lia. by rewrite Z.min_r by lia. }
  assert (∃ a, _analyze_skills resume ∅ = Ok a) as [a Ha].
  { unfold _analyze_skills. rewrite Hcs, lower_all_strings. by eexists. }
  exists (score_data (weights __init__) 80.0 100.0 (inject_Z 100) a).
  split; [|repeat split].
  unfold score_resume. rewrite Hs, He, Hd, Ha. reflexivity.
Qed.

Lemma X10_score_resume_no_requirements_witness :
  ∃ sd,
    score_resume no_float_of_str __init__ candidate_b ∅ = Ok sd
    ∧ sd !! "skills_score" = Some (VNum 80)
    ∧ sd !! "experience_score" = Some (VNum 100)
    ∧ sd !! "education_score" = Some (VNum 100)
    ∧ sd !! "total_score" = Some (VNum 90)
    ∧ sd !! "recommendation" = Some (VStr (recommendation_label StrongMatch)).
Proof.
  apply (X10_score_resume_no_requirements no_float_of_str candidate_b
           ["Python"] 5 3%Z); reflexivity.
Defined.

(** X11.  An education that is none of the five labels of the scoring
    engine, as the ["Not specified"] of the extractor, scores as
    ["High School"] does. *)
Theorem X11_score_education_unknown
        (resume job : gmap string value) (e : string) :
  education_levels !! e = None →
  _score_education (<["education" := VStr e]> resume) job
  = _score_education (<["education" := VStr "High School"]> resume) job.
Proof.
  intros He. unfold _score_education, get. rewrite !lookup_insert_eq. simpl.
  by rewrite He.
Qed.

Lemma X11_score_education_unknown_witness :
  _score_education (<["education" := VStr "Not specified"]> candidate_a) job_python
  = _score_education (<["education" := VStr "High School"]> candidate_a) job_python.
Proof.
  apply (X11_score_education_unknown candidate_a job_python "Not specified").
  reflexivity.
Defined.

End BatchOrder.


(** ** A candidate with every required skill, and more experience *)

Section Candidates.
Local Open Scope Q_scope.

Lemma mem_elem_of q rs : Text.mem q rs = true ↔ q ∈ rs.
Proof.
  unfold Text.mem. induction rs as [|r rs IH]; simpl.
  - split; [done|by intros ?%elem_of_nil].
  - rewrite orb_true_iff, IH, elem_of_cons, String.eqb_eq. done.
Qed.

Lemma analyze_required_all rs qs m x :
  (∀ q, q ∈ qs → q ∈ rs) →
  foldl (analyze_required rs) (m, x) qs = (m ++ (Text.title <$> qs), x).
Proof.
  revert m. induction qs as [|q qs IH]; intros m Hqs; simpl.
  - by rewrite app_nil_r.
  - rewrite (proj2 (mem_elem_of q rs)) by (apply Hqs; left).
    rewrite IH by (intros ? ?; apply Hqs; by right).
    by rewrite <- app_assoc.
Qed.

Lemma exact_count_all rs qs :
  (∀ q, q ∈ qs → q ∈ rs) → exact_count rs qs = length qs ∧ fuzzy_count rs qs = 0%nat.
Proof.
  unfold exact_count, fuzzy_count. induction qs as [|q qs IH]; intros Hqs; [done|].
  destruct IH as [IH1 IH2]; [intros ? ?; apply Hqs; by right|].
  assert (Text.mem q rs = true) as Hq by (apply mem_elem_of, Hqs; left).
  rewrite !filter_cons, decide_True by done.
  rewrite decide_False by (rewrite Hq; by intros [? _]).
  simpl. by rewrite IH1, IH2.
Qed.

(** X24.  A candidate who has every required skill, whatever the case
    of the letters, scores 100 for skills; the analysis reports every
    required skill as matched, in the order of the job, and none as
    missing. *)
Theorem X24_all_required_present
        (resume job : gmap string value) (cs qs : list string) :
  get resume "skills" (VList []) = strings cs →
  get job "required_skills" (VList []) = strings qs →
  qs ≠ [] →
  (∀ q, q ∈ qs → Text.lower q ∈ Text.lower <$> cs) →
  ∃ score a,
    _score_skills resume job = Ok score ∧ score == 100
    ∧ _analyze_skills resume job = Ok a
    ∧ missing a = []
    ∧ matched a = Text.title <$> (Text.lower <$> qs).
Proof.
  intros Hcs Hqs Hne Hall.
  assert (∀ q, q ∈ Text.lower <$> qs → q ∈ Text.lower <$> cs) as Hall'.
  { intros q (q' & -> & Hq)%list_elem_of_fmap. by apply Hall. }
  exists (score_skill_lists (Text.lower <$> cs) (Text.lower <$> qs)).
  eexists. split; [|split; [|split]].
  - unfold _score_skills. by rewrite Hcs, Hqs, !lower_all_strings.
  - rewrite score_skill_lists_counts by (by destruct qs).
    destruct (exact_count_all _ _ Hall') as [-> ->].
    set (n := of_nat (length (Text.lower <$> qs))).
    assert (0 < n) as Hn.
    { apply of_nat_pos. rewrite length_fmap. destruct qs; [done|simpl; lia]. }
    change (of_nat 0) with 0.
    assert ((100 * n + 40 * 0) / n == 100) as -> by (field; lra).
    rewrite Q.min_id.
    assert (0 <= (if (10 <? length (Text.lower <$> cs))%nat
                  then Qmin (of_nat (length (Text.lower <$> cs)) * 2) 20 else 0)) as Hb.
    { destruct (_ <? _)%nat; [|discriminate].
      apply Q.min_glb; [|discriminate].
      pose proof (of_nat_nonneg (length (Text.lower <$> cs))). lra. }
    apply Q.min_r. lra.
  - unfold _analyze_skills. rewrite Hcs, Hqs, !lower_all_strings.
    cbn [mbind result_bind]. rewrite analyze_required_all by done. reflexivity.
  - split; reflexivity.
Qed.

Lemma X24_all_required_present_witness :
  ∃ score a,
    _score_skills near_85 job_two_skills = Ok score ∧ score == 100
    ∧ _analyze_skills near_85 job_two_skills = Ok a
    ∧ missing a = []
    ∧ matched a = Text.title <$> (Text.lower <$> ["python"; "sql"]).
Proof.
  apply (X24_all_required_present near_85 job_two_skills ["Python"; "SQL"]);
    [reflexivity | reflexivity | discriminate |].
  intros q Hq. repeat (apply elem_of_cons in Hq as [->|Hq]; [vm_compute; set_solver|]).
  by apply elem_of_nil in Hq.
Defined.

Lemma experience_formula_mono c1 c2 r :
  0 <= r → c1 <= c2 → experience_formula c1 r <= experience_formula c2 r.
Proof.
  intros Hr Hc.
  destruct (Qeq_dec r 0) as [H0|H0].
  { rewrite !experience_no_requirement by done. lra. }
  assert (0 < r) as Hpos.
  { apply Qle_lteq in Hr as [?|Hr]; [done|]. exfalso. apply H0. by symmetry. }
  destruct (Qlt_le_dec c2 r) as [H2|H2].
  - unfold experience_formula.
    destruct (Qeq_bool r 0) eqn:E0; [by apply Qeq_bool_iff in E0|].
    rewrite (proj2 (leb_gt r c1)) by lra.
    rewrite (proj2 (leb_gt r c2)) by done.
    apply Q.max_le_compat_r.
    apply Qmult_le_compat_r; [|discriminate].
    unfold Qdiv. apply Qmult_le_compat_r; [done|].
    apply Qinv_le_0_compat. lra.
  - rewrite (experience_saturates c2 r) by done.
    apply (experience_formula_range c1 r Hr).
Qed.

Lemma get_insert_ne (m : gmap string value) k k' v dflt :
  k ≠ k' → get (<[k := v]> m) k' dflt = get m k' dflt.
Proof. intros H. unfold get. by rewrite lookup_insert_ne. Qed.

(** X25.  More experience never hurts: for an engine in a reachable
    state and a job whose required years are not negative, raising the
    years of a candidate, all else equal, lowers neither the total
    before rounding nor the recommendation. *)
Theorem X25_more_experience_never_hurts
        fos self (resume job : gmap string value) (c1 c2 r t1 t2 : Q) :
  reachable self →
  float fos (get job "experience_years" (VNum 0)) = Ok r →
  0 <= r →
  get resume "experience_years" (VNum 0) = VNum c1 →
  c1 <= c2 →
  unrounded_total fos self resume job = Ok t1 →
  unrounded_total fos self (<["experience_years" := VNum c2]> resume) job = Ok t2 →
  t1 <= t2
  ∧ (band_rank (recommendation_of t1) ≤ band_rank (recommendation_of t2))%nat.
Proof.
  intros Hreach Hr Hpos Hc1 Hc Ht1 Ht2.
  assert (t1 <= t2) as Hle.
  { unfold unrounded_total in Ht1, Ht2.
    apply bind_Ok in Ht1 as (s & Hs & Ht1).
    apply bind_Ok in Ht1 as (e1 & He1 & Ht1).
    apply bind_Ok in Ht1 as (d & Hd & [= <-]).
    unfold _score_skills, _score_education in Ht2.
    rewrite !get_insert_ne in Ht2 by done.
    fold (_score_skills resume job) in Ht2. rewrite Hs in Ht2.
    apply bind_Ok in Ht2 as (s' & [= <-] & Ht2).
    apply bind_Ok in Ht2 as (e2 & He2 & Ht2).
    fold (_score_education resume job) in Ht2. rewrite Hd in Ht2.
    injection Ht2 as <-.
    rewrite (score_experience_eval fos resume job c1 r) in He1
      by (by rewrite ?Hc1).
    rewrite (score_experience_eval fos _ job c2 r) in He2
      by (unfold get; by rewrite ?lookup_insert_eq, ?lookup_insert_ne).
    injection He1 as <-. injection He2 as <-.
    pose proof (experience_formula_mono c1 c2 r Hpos Hc) as He.
    destruct (reachable_nonneg self Hreach) as (_ & Hw & _).
    unfold weighted_total. nra. }
  split; [done|]. by apply recommendation_band_mono.
Qed.

Lemma X25_more_experience_never_hurts_witness :
  sample_total near_85
  <= sample_total (<["experience_years" := VNum 8]> near_85)
  ∧ (band_rank (recommendation_of (sample_total near_85))
     ≤ band_rank (recommendation_of
                    (sample_total (<["experience_years" := VNum 8]> near_85))))%nat.
Proof.
  apply (X25_more_experience_never_hurts no_float_of_str __init__ near_85
           job_two_skills 6.24 8 10);
    [constructor | reflexivity | discriminate | reflexivity | discriminate
    | reflexivity | reflexivity].
Defined.

End Candidates.

(** * Properties of the other extraction rules *)

(** ** Strings *)

Lemma append_nil_r s : s +:+ "" = s.
Proof. induction s as [|a s IH]; [done|]. simpl. unfold String.app in *. simpl. by rewrite IH. Qed.

Lemma append_assoc s1 s2 s3 : (s1 +:+ s2) +:+ s3 = s1 +:+ (s2 +:+ s3).
Proof. induction s1 as [|a s1 IH]; [done|]. unfold String.app in *. simpl. by rewrite IH. Qed.

Lemma append_cons a s1 s2 : String a s1 +:+ s2 = String a (s1 +:+ s2).
Proof. reflexivity. Qed.

Lemma append_nil_l s : "" +:+ s = s.
Proof. reflexivity. Qed.

Lemma length_append s1 s2 :
  String.length (s1 +:+ s2) = String.length s1 + String.length s2.
Proof. induction s1 as [|a s1 IH]; [done|]. rewrite append_cons. simpl. by rewrite IH. Qed.

Lemma take_append w s : Text.take (String.length w) (w +:+ s) = w.
Proof. induction w as [|a w IH]; [by destruct s|]. rewrite append_cons. simpl. by rewrite IH. Qed.

Lemma take_append_diff w s :
  Text.take (String.length (w +:+ s) - String.length s) (w +:+ s) = w.
Proof.
  rewrite length_append.
  replace (String.length w + String.length s - String.length s) with (String.length w) by lia.
  apply take_append.
Qed.

Lemma all_append f s1 s2 : Str.all f (s1 +:+ s2) = Str.all f s1 && Str.all f s2.
Proof.
  induction s1 as [|a s1 IH]; [done|]. rewrite append_cons. simpl.
  by rewrite IH, andb_assoc.
Qed.

(** ** The matcher passes over a text the pattern spans *)

Lemma star_loop_spans r x :
  (∀ p s g k, Re.run r p s g k = Some x →
     ∃ w s' p' g', s = w +:+ s' ∧ Rx.spans r w ∧ k p' s' g' = Some x) →
  ∀ n p s g k, Re.star_loop (Re.run r) k n p s g = Some x →
    ∃ w s' p' g', s = w +:+ s' ∧ Rx.spans (Re.Star r) w ∧ k p' s' g' = Some x.
Proof.
  intros Hr. induction n as [|n IH]; intros p s g k; cbn [Re.star_loop].
  - intros H. exists "", s, p, g. split; [done|]. split; [constructor|done].
  - destruct (Re.run r p s g _) as [y|] eqn:E.
    + intros [= ->]. apply Hr in E as (w1 & s1 & p1 & g1 & -> & Hw1 & E).
      destruct (_ <? _); [|done].
      apply IH in E as (w2 & s2 & p2 & g2 & -> & Hw2 & E).
      exists (w1 +:+ w2), s2, p2, g2. rewrite append_assoc.
      split; [done|]. split; [by constructor|done].
    + intros H. exists "", s, p, g. split; [done|]. split; [constructor|done].
Qed.

Lemma run_spans r :
  ∀ p s g k x, Re.run r p s g k = Some x →
    ∃ w s' p' g', s = w +:+ s' ∧ Rx.spans r w ∧ k p' s' g' = Some x.
Proof.
  induction r as [|f|r1 IH1 r2 IH2|r1 IH1|r1 IH1|r1 IH1|]; intros p s g k x;
    cbn [Re.run].
  - intros H. exists "", s, p, g. split; [done|]. split; [constructor|done].
  - destruct s as [|a s]; [done|]. destruct (f a) eqn:Hf; [|done].
    intros H. exists (String a ""), s, (Some a), g.
    split; [done|]. split; [by constructor|done].
  - intros H. apply IH1 in H as (w1 & s1 & p1 & g1 & -> & Hw1 & H).
    apply IH2 in H as (w2 & s2 & p2 & g2 & -> & Hw2 & H).
    exists (w1 +:+ w2), s2, p2, g2. rewrite append_assoc.
    split; [done|]. split; [by constructor|done].
  - destruct (Re.run r1 p s g k) as [y|] eqn:E.
    + intros [= ->]. apply IH1 in E as (w & s' & p' & g' & -> & Hw & E).
      exists w, s', p', g'. split; [done|]. split; [by apply Rx.spans_opt|done].
    + intros H. exists "", s, p, g.
      split; [done|]. split; [apply Rx.spans_opt_skip|done].
  - apply star_loop_spans. intros p' s' g' k'. apply IH1.
  - intros H. apply IH1 in H as (w & s' & p' & g' & -> & Hw & H).
    exists w, s', p', (Some w). rewrite take_append_diff in H.
    split; [done|]. split; [by constructor|done].
  - destruct (xorb _ _); [|done].
    intros H. exists "", s, p, g. split; [done|]. split; [constructor|done].
Qed.

(** A group hands on the text it spans. *)
Lemma run_grp_spans r p s g k x :
  Re.run (Re.Grp r) p s g k = Some x →
  ∃ w s' p', s = w +:+ s' ∧ Rx.spans r w ∧ k p' s' (Some w) = Some x.
Proof.
  cbn [Re.run]. intros H. apply run_spans in H as (w & s' & p' & g' & -> & Hw & H).
  rewrite take_append_diff in H. by exists w, s', p'.
Qed.

(** Every match of a scan lies in the text. *)
Lemma matches_from_inside (m : Rx.matcher) (P : string → option string → Prop) :
  (∀ p s s' g, m p s None Re.accept = Some (s', g) →
     ∃ w, s = w +:+ s' ∧ P w g) →
  ∀ s p skip e g, (e, g) ∈ Rx.matches_from m p skip s →
    ∃ before after, s = before +:+ e +:+ after ∧ P e g.
Proof.
  intros Hm. induction s as [|a s IH]; intros p skip e g.
  - destruct skip; cbn [Rx.matches_from]; [|by intros ?%elem_of_nil].
    destruct (m p "" None Re.accept) as [[s' g']|] eqn:E; [|by intros ?%elem_of_nil].
    intros [[= -> ->]|?%elem_of_nil]%elem_of_cons; [|done].
    apply Hm in E as (w & Hs & HP).
    destruct w; [|discriminate]. by exists "", "".
  - destruct skip as [|n]; cbn [Rx.matches_from].
    + destruct (m p (String a s) None Re.accept) as [[s' g']|] eqn:E.
      * apply Hm in E as (w & Hs & HP).
        assert (Text.take (String.length (String a s) - String.length s')
                          (String a s) = w) as ->
          by (rewrite Hs; apply take_append_diff).
        intros [[= -> ->]|Hin]%elem_of_cons.
        -- by exists "", s'.
        -- apply IH in Hin as (b & c & -> & HP'). by exists (String a b), c.
      * intros Hin. apply IH in Hin as (b & c & -> & HP). by exists (String a b), c.
    + intros Hin. apply IH in Hin as (b & c & -> & HP). by exists (String a b), c.
Qed.

(** ** What a pattern spans, part by part *)

Lemma spans_eps_inv w : Rx.spans Re.Eps w → w = "".
Proof. by inversion 1. Qed.
Lemma spans_wordb_inv w : Rx.spans Re.WordB w → w = "".
Proof. by inversion 1. Qed.
Lemma spans_cls_inv f w :
  Rx.spans (Re.Cls f) w → ∃ a, w = String a "" ∧ f a = true.
Proof. inversion 1; subst. by eexists. Qed.
Lemma spans_seq_inv r1 r2 w :
  Rx.spans (Re.Seq r1 r2) w →
  ∃ w1 w2, w = w1 +:+ w2 ∧ Rx.spans r1 w1 ∧ Rx.spans r2 w2.
Proof. inversion 1; subst. by eexists _, _. Qed.
Lemma spans_opt_inv r w : Rx.spans (Re.Opt r) w → w = "" ∨ Rx.spans r w.
Proof. inversion 1; subst; auto. Qed.
Lemma spans_grp_inv r w : Rx.spans (Re.Grp r) w → Rx.spans r w.
Proof. by inversion 1. Qed.

Lemma spans_chr c w : Rx.spans (Re.chr c) w → w = String c "".
Proof.
  intros (a & -> & Ha)%spans_cls_inv. by apply Ascii.eqb_eq in Ha as ->.
Qed.

Lemma spans_star_cls f w : Rx.spans (Re.Star (Re.Cls f)) w → Str.all f w = true.
Proof.
  intros H. remember (Re.Star (Re.Cls f)) as r eqn:Hr.
  induction H as [| | | | |r w1 w2 H1 _ H2 IH| | |]; try discriminate; [|done].
  injection Hr as ->. rewrite all_append, IH by done.
  apply spans_cls_inv in H1 as (a & -> & Ha). simpl. by rewrite Ha.
Qed.

Lemma spans_plus_cls f w :
  Rx.spans (Re.plus (Re.Cls f)) w → w ≠ "" ∧ Str.all f w = true.
Proof.
  intros (w1 & w2 & -> & (a & -> & Ha)%spans_cls_inv & H2%spans_star_cls)%spans_seq_inv.
  rewrite append_cons, append_nil_l. split; [done|]. simpl. by rewrite Ha, H2.
Qed.

Lemma spans_times_cls f n w :
  Rx.spans (Re.times n (Re.Cls f)) w → String.length w = n ∧ Str.all f w = true.
Proof.
  revert w. induction n as [|n IH]; intros w; simpl.
  - by intros ->%spans_eps_inv.
  - intros (w1 & w2 & -> & (a & -> & Ha)%spans_cls_inv & [<- H2]%IH)%spans_seq_inv.
    rewrite append_cons, append_nil_l. split; [done|]. simpl. by rewrite Ha, H2.
Qed.

(** ** Email *)

Lemma spans_email e :
  Rx.spans email_pattern e →
  ∃ local domain tld,
    e = local +:+ "@" +:+ domain +:+ "." +:+ tld
    ∧ local ≠ "" ∧ Str.all local_char local = true
    ∧ domain ≠ "" ∧ Str.all domain_char domain = true
    ∧ 2 ≤ String.length tld ∧ Str.all tld_char tld = true.
Proof.
  unfold email_pattern, cat, Rx.at_least. cbn [foldr].
  intros (? & ? & -> & ->%spans_wordb_inv
          & (l & ? & -> & [Hl1 Hl2]%spans_plus_cls
          & (? & ? & -> & ->%spans_chr
          & (d & ? & -> & [Hd1 Hd2]%spans_plus_cls
          & (? & ? & -> & ->%spans_chr
          & (? & ? & -> & (t1 & t2 & -> & [Ht1 Ht1']%spans_times_cls
                           & Ht2%spans_star_cls)%spans_seq_inv
          & (? & ? & -> & ->%spans_wordb_inv & ->%spans_eps_inv)%spans_seq_inv
            )%spans_seq_inv)%spans_seq_inv)%spans_seq_inv)%spans_seq_inv
            )%spans_seq_inv)%spans_seq_inv.
  exists l, d, (t1 +:+ t2). rewrite !append_nil_r, ?append_nil_l.
  split; [reflexivity|]. repeat split; try done.
  - rewrite length_append. lia.
  - by rewrite all_append, Ht1', Ht2.
Qed.

(** X12.  What [_extract_email] returns is ["Email not found"] or a
    piece of the text of the form [local@domain.tld]: a local part and a
    domain that are not empty, of the characters of their classes, and
    after the last dot of the match at least two characters that are
    letters or [|]. *)
Theorem X12_extract_email_form (text : string) :
  _extract_email text = "Email not found"
  ∨ ∃ before local domain tld after,
      text = before +:+ _extract_email text +:+ after
      ∧ _extract_email text = local +:+ "@" +:+ domain +:+ "." +:+ tld
      ∧ local ≠ "" ∧ Str.all local_char local = true
      ∧ domain ≠ "" ∧ Str.all domain_char domain = true
      ∧ 2 ≤ String.length tld ∧ Str.all tld_char tld = true.
Proof.
  unfold _extract_email, Rx.findall_whole.
  destruct (Rx.matches_from _ _ _ _) as [|[e g] ms] eqn:E; [by left|]. right.
  assert ((e, g) ∈ Rx.matches_from (Re.run email_pattern) None 0 text) as Hin
    by (rewrite E; left).
  apply (matches_from_inside _ (λ w _, Rx.spans email_pattern w)) in Hin
    as (before & after & Ht & He).
  - apply spans_email in He as (l & d & t & He & ?).
    exists before, l, d, t, after. simpl. by split.
  - intros p s s' g' H. apply run_spans in H as (w & s1 & p1 & g1 & -> & Hw & [= <- <-]).
    by exists w.
Qed.


(** ** Splitting and stripping *)

Lemma split_at_pieces s : Str.split_at Text.isspace s = Spec.pieces s.
Proof. induction s as [|a s IH]; [done|]. simpl. by rewrite IH. Qed.

Lemma split_words s : Str.split s = Spec.words s.
Proof. unfold Str.split, Spec.words. by rewrite split_at_pieces. Qed.

Lemma join_space ws : Str.join " " ws = Spec.join ws.
Proof. induction ws as [|w [|w' ws] IH]; [done..|]. simpl in *. by rewrite IH. Qed.

Lemma split_at_whole is_sep s :
  Str.all (λ c, negb (is_sep c)) s = true → Str.split_at is_sep s = [s].
Proof.
  induction s as [|a s IH]; [done|]. simpl.
  intros [Ha Hs]%andb_true_iff. apply negb_true_iff in Ha. by rewrite Ha, IH.
Qed.

Lemma rstrip_idemp s : Text.rstrip (Text.rstrip s) = Text.rstrip s.
Proof.
  induction s as [|c s IH]; [done|]. simpl.
  destruct (Text.rstrip s) as [|b r] eqn:E.
  - destruct (Text.isspace c) eqn:Hc; [done|]. simpl. by rewrite Hc.
  - cbn [Text.rstrip]. cbn [Text.rstrip] in IH. by rewrite IH.
Qed.

Lemma lstrip_cases s :
  Text.lstrip s = "" ∨ ∃ a t, Text.lstrip s = String a t ∧ Text.isspace a = false.
Proof.
  induction s as [|c s IH]; [by left|]. simpl.
  destruct (Text.isspace c) eqn:Hc; [done|]. right. by exists c, s.
Qed.

Lemma strip_idemp s : Text.strip (Text.strip s) = Text.strip s.
Proof.
  unfold Text.strip.
  destruct (lstrip_cases s) as [->|(a & t & -> & Ha)]; [done|].
  rewrite rstrip_nonspace by done. cbn [Text.lstrip]. rewrite Ha.
  rewrite <- (rstrip_nonspace a t) by done. apply rstrip_idemp.
Qed.

Lemma clean_text_stripped text : Text.strip (_clean_text text) = _clean_text text.
Proof. unfold _clean_text. apply strip_idemp. Qed.

(** The words of a text are those of the text stripped. *)
Lemma words_lstrip s : Spec.words (Text.lstrip s) = Spec.words s.
Proof.
  induction s as [|c s IH]; [done|]. simpl.
  destruct (Text.isspace c) eqn:Hc; [|done]. by rewrite words_space.
Qed.

Lemma pieces_cons s : ∃ w ws, Spec.pieces s = w :: ws.
Proof.
  destruct s as [|a s]; simpl; [by eexists _, _|].
  destruct (Text.isspace a); [by eexists _, _|].
  destruct (Spec.pieces s); by eexists _, _.
Qed.

Lemma pieces_rstrip s :
  ∃ w ws ws',
    Spec.pieces (Text.rstrip s) = w :: ws ∧ Spec.pieces s = w :: ws'
    ∧ filter (λ w, w ≠ "") ws = filter (λ w, w ≠ "") ws'.
Proof.
  induction s as [|c s (w & ws & ws' & H1 & H2 & H3)]; [by exists "", [], []|].
  cbn [Text.rstrip Spec.pieces]. rewrite H2.
  destruct (Text.rstrip s) as [|b r] eqn:E.
  - simpl in H1. injection H1 as <- <-.
    destruct (Text.isspace c) eqn:Hc.
    + exists "", [], ("" :: ws'). split; [done|]. split; [done|].
      rewrite filter_cons_False by (intros H; by apply H). done.
    + exists (String c ""), [], ws'. simpl. by rewrite Hc.
  - change (Spec.pieces (String c (String b r)))
      with (if Text.isspace c then "" :: Spec.pieces (String b r)
            else match Spec.pieces (String b r) with
                 | w :: ws => String c w :: ws
                 | [] => [String c ""]
                 end).
    rewrite H1.
    destruct (Text.isspace c) eqn:Hc.
    + exists "", (w :: ws), (w :: ws'). split; [done|]. split; [done|].
      destruct (decide (w ≠ "")).
      * rewrite !filter_cons_True by done. by f_equal.
      * by rewrite !filter_cons_False by done.
    + by exists (String c w), ws, ws'.
Qed.

Lemma words_rstrip s : Spec.words (Text.rstrip s) = Spec.words s.
Proof.
  destruct (pieces_rstrip s) as (w & ws & ws' & H1 & H2 & H3).
  unfold Spec.words. rewrite H1, H2.
  destruct (decide (w ≠ "")).
  - rewrite !filter_cons_True by done. by f_equal.
  - by rewrite !filter_cons_False by done.
Qed.

Lemma words_strip s : Spec.words (Text.strip s) = Spec.words s.
Proof. unfold Text.strip. by rewrite words_rstrip, words_lstrip. Qed.

(** ** Name *)

Lemma spaceless_no_LF w :
  spaceless w = true → Str.all (λ c, negb (Ascii.eqb LF c)) w = true.
Proof.
  induction w as [|a w IH]; [done|]. cbn [spaceless Str.all].
  intros [Ha Hw]%andb_true_iff. apply andb_true_iff. split; [|by apply IH].
  destruct (Ascii.eqb_spec LF a) as [<-|]; [|done].
  vm_compute in Ha. discriminate.
Qed.

Lemma join_no_LF ws :
  Forall (λ w, spaceless w = true) ws →
  Str.all (λ c, negb (Ascii.eqb LF c)) (Spec.join ws) = true.
Proof.
  induction 1 as [|w ws Hw Hws IH]; [done|].
  destruct ws as [|w' ws]; [by apply spaceless_no_LF|].
  change (Spec.join (w :: w' :: ws)) with (w +:+ " " +:+ Spec.join (w' :: ws)).
  rewrite !all_append, IH, spaceless_no_LF by done. done.
Qed.

Lemma clean_text_one_line text :
  Str.split_at (Ascii.eqb LF) (_clean_text text) = [_clean_text text].
Proof.
  apply split_at_whole. rewrite clean_text_normalize.
  unfold Spec.normalize.
  erewrite <- join_no_LF.
  - f_equal.
  - eapply Forall_impl; [apply words_good|]. by intros w [_ ?].
Qed.

Lemma name_fallback_cleaned text :
  _extract_name_fallback (_clean_text text)
  = if name_like (_clean_text text) then _clean_text text else "Name not found".
Proof.
  unfold _extract_name_fallback. rewrite clean_text_one_line. simpl.
  by rewrite clean_text_stripped.
Qed.

Lemma name_like_short line : name_like line = true → String.length line < 50.
Proof.
  unfold name_like. intros [_ H]%andb_true_iff. by apply Nat.ltb_lt in H.
Qed.

Lemma name_like_words line :
  name_like line = true → 2 ≤ length (Str.split line) ≤ 4.
Proof.
  unfold name_like.
  intros [[[H1 H2]%andb_true_iff _]%andb_true_iff _]%andb_true_iff.
  apply Nat.leb_le in H1, H2. lia.
Qed.

Lemma name_fallback_loop_shape lines :
  let name := _extract_name_fallback_loop lines in
  2 ≤ length (Str.split name) ≤ 4 ∧ String.length name < 50
  ∧ (name = "Name not found" ∨ ∃ line, line ∈ lines ∧ name = Text.strip line).
Proof.
  induction lines as [|line lines IH]; simpl.
  - vm_compute. repeat split; try lia. by left.
  - destruct (name_like (Text.strip line)) eqn:E.
    + split; [by apply name_like_words|]. split; [by apply name_like_short|].
      right. exists line. split; [left|done].
    + destruct IH as (? & ? & [?|(l & ? & ?)]); (split; [done|]); (split; [done|]);
        [by left|].
      right. exists l. split; [by right|done].
Qed.

Lemma extract_name_two_words self text :
  2 ≤ length (Str.split (_extract_name self text)).
Proof.
  pose proof (name_fallback_loop_shape
                (take 5 (Str.split_at (Ascii.eqb LF) text))) as [[Hf _] _].
  fold (_extract_name_fallback text) in Hf.
  unfold _extract_name.
  destruct (nlp self) as [model|]; [|done].
  destruct (model _) as [ents|]; [|done].
  destruct (find _ ents) as [ent|] eqn:E; [|done].
  apply find_some in E as [_ [_ H]%andb_true_iff]. apply Nat.leb_le in H.
  rewrite split_words, words_strip, <- split_words. done.
Qed.

(** ** Experience *)

Section ExperienceYears.
Local Open Scope Q_scope.

Lemma years_of_matches_plausible py ms acc ys :
  Forall plausible acc → years_of_matches py ms acc = Ok ys → Forall plausible ys.
Proof.
  revert acc. induction ms as [|m ms IH]; intros acc Hacc; simpl.
  - by intros [= <-].
  - destruct (float_of_str py m) as [y|[]]; try done; [|by apply IH].
    apply IH. destruct (leb 0 y && leb y 50) eqn:E; [|done].
    apply andb_true_iff in E as [H1%leb_le H2%leb_le].
    apply Forall_app. split; [done|]. by repeat constructor.
Qed.

Lemma years_of_patterns_plausible py ps text acc ys :
  Forall plausible acc → years_of_patterns py ps text acc = Ok ys →
  Forall plausible ys.
Proof.
  revert acc. induction ps as [|p ps IH]; intros acc Hacc; simpl.
  - by intros [= <-].
  - intros (acc' & H1 & H2)%bind_Ok.
    eapply IH; [|done]. by eapply years_of_matches_plausible.
Qed.

Lemma years_of_matches_returns py ms acc :
  float_raises_value_error py → ∃ ys, years_of_matches py ms acc = Ok ys.
Proof.
  intros Hpy. revert acc. induction ms as [|m ms IH]; intros acc; simpl.
  - by eexists.
  - destruct (float_of_str py m) as [y|e] eqn:E; [apply IH|].
    apply Hpy in E as ->. apply IH.
Qed.

Lemma years_of_patterns_returns py ps text acc :
  float_raises_value_error py → ∃ ys, years_of_patterns py ps text acc = Ok ys.
Proof.
  intros Hpy. revert acc. induction ps as [|p ps IH]; intros acc; simpl.
  - by eexists.
  - destruct (years_of_matches_returns py (Rx.findall_group p text) acc Hpy)
      as [acc' ->].
    apply IH.
Qed.

Lemma maximum_plausible y ys :
  plausible y → Forall plausible ys → plausible (maximum y ys).
Proof.
  intros Hy Hys. revert y Hy. unfold maximum.
  induction Hys as [|z ys Hz _ IH]; intros y Hy; simpl; [done|].
  apply IH. unfold plausible in *.
  destruct (Q.max_spec y z) as [[_ ->]|[_ ->]]; done.
Qed.

Lemma extract_experience_years_plausible py text y :
  _extract_experience_years py text = Ok y → plausible y.
Proof.
  unfold _extract_experience_years.
  intros (ys & H1 & H2)%bind_Ok.
  apply years_of_patterns_plausible in H1; [|constructor].
  destruct ys as [|y0 ys].
  - destruct (_ <? _)%nat; injection H2 as <-; [|by vm_compute].
    split; [apply of_nat_nonneg|].
    change 50 with (of_nat 50). apply of_nat_le. lia.
  - injection H2 as <-. apply Forall_cons in H1 as [? ?].
    by apply maximum_plausible.
Qed.

Lemma extract_experience_years_returns py text :
  float_raises_value_error py → ∃ y, _extract_experience_years py text = Ok y.
Proof.
  intros Hpy. unfold _extract_experience_years.
  destruct (years_of_patterns_returns py experience_patterns (Text.lower text) [] Hpy)
    as [ys ->].
  simpl. destruct ys; [destruct (_ <? _)%nat|]; by eexists.
Qed.

End ExperienceYears.

(** ** Certifications and organizations *)

Lemma take_NoDup {A} n (l : list A) : NoDup l → NoDup (take n l).
Proof. intros H. eapply sublist_NoDup; [done|apply sublist_take]. Qed.

Lemma elem_of_take_list {A} n (l : list A) x : x ∈ take n l → x ∈ l.
Proof. intros H. eapply elem_of_sublist; [done|apply sublist_take]. Qed.

Lemma list_of_set_NoDup py xs : lists_sets py → NoDup (list_of_set py xs).
Proof. intros H. apply H. Qed.

Lemma elem_of_list_of_set py xs x :
  lists_sets py → x ∈ list_of_set py xs → x ∈ xs.
Proof. intros H. apply H. Qed.

Lemma extract_certifications_shape py text :
  lists_sets py →
  let certs := _extract_certifications py text in
  NoDup certs ∧ length certs ≤ 10
  ∧ ∀ cert, cert ∈ certs →
      3 < String.length cert < 100 ∧ Text.strip cert = cert
      ∧ ∃ pattern found,
          pattern ∈ cert_patterns
          ∧ found ∈ Rx.findall_group (Re.run pattern) text
          ∧ cert = Text.strip found.
Proof.
  intros Hpy. unfold _extract_certifications.
  split; [by apply take_NoDup, list_of_set_NoDup|]. split; [rewrite length_take; lia|].
  intros cert Hin%elem_of_take_list. apply elem_of_list_of_set in Hin; [|done].
  apply list_elem_of_filter in Hin as [Hlen Hin].
  apply list_elem_of_fmap in Hin as (found & -> & Hin).
  apply list_elem_of_join in Hin as (l & Hin & Hl).
  apply list_elem_of_fmap in Hl as (pattern & -> & Hp).
  unfold cert_length_ok in Hlen.
  apply andb_true_iff in Hlen as [H1%Nat.ltb_lt H2%Nat.ltb_lt].
  split; [lia|]. split; [apply strip_idemp|]. by exists pattern, found.
Qed.

Lemma extract_organizations_shape self py text :
  lists_sets py →
  let orgs := _extract_organizations self py text in
  NoDup orgs ∧ length orgs ≤ 20
  ∧ (∀ org, org ∈ orgs →
       2 < String.length org < 100 ∧ Text.strip org = org
       ∧ ∃ model ents ent,
           nlp self = Some model ∧ model text = Ok ents ∧ ent ∈ ents
           ∧ label_ ent = "ORG" ∧ org = Text.strip (Extractor.text ent))
  ∧ (nlp self = None → orgs = [])
  ∧ (∀ model e, nlp self = Some model → model text = Raise e → orgs = []).
Proof.
  intros Hpy. unfold _extract_organizations.
  destruct (nlp self) as [model|] eqn:Hm.
  2:{ split; [constructor|]. split; [simpl; lia|]. split; [by intros ? ?%elem_of_nil|done]. }
  destruct (model text) as [ents|e] eqn:He.
  2:{ split; [constructor|]. split; [simpl; lia|]. split; [by intros ? ?%elem_of_nil|done]. }
  split; [by apply take_NoDup, NoDup_filter, list_of_set_NoDup|]. split; [rewrite length_take; lia|].
  split; [|split; [done|intros ? ? [= <-] ?; congruence]].
  intros org Hin%elem_of_take_list.
  apply list_elem_of_filter in Hin as [Hlen Hin].
  apply elem_of_list_of_set in Hin; [|done].
  apply list_elem_of_fmap in Hin as (ent & -> & Hin).
  apply list_elem_of_filter in Hin as [Hl Hin].
  unfold org_length_ok in Hlen.
  apply andb_true_iff in Hlen as [H1%Nat.ltb_lt H2%Nat.ltb_lt].
  split; [lia|]. split; [apply strip_idemp|]. by exists model, ents, ent.
Qed.


(** * The records extracted, validated and scored *)

Section Pipeline.
Local Open Scope Q_scope.

Lemma sample_python_float : float_raises_value_error sample_python.
Proof.
  intros s e. unfold sample_python, float_of_str, decimal_float.
  destruct (Str.split_at _ s) as [|i [|f [|? ?]]]; try by intros [= <-].
  - destruct i; [by intros [= <-]|]. destruct (digits_value _ _); by intros [= <-].
  - destruct i; [by intros [= <-]|].
    destruct (digits_value 0 (String _ _)); [|by intros [= <-]].
    destruct (digits_value 0 f); [done|by intros [= <-]].
Qed.

Lemma sample_python_sets : lists_sets sample_python.
Proof.
  intros xs. split; [apply NoDup_remove_dups|].
  intros x. apply elem_of_remove_dups.
Qed.

Lemma extract_information_Ok self py text info :
  extract_information self py text = Ok info →
  ∃ y, _extract_experience_years py (_clean_text text) = Ok y
       ∧ info = extracted_info self py text y.
Proof.
  unfold extract_information. intros (y & Hy & [= <-])%bind_Ok. by exists y.
Qed.

Lemma extract_information_returns self py text :
  float_raises_value_error py →
  ∃ y, _extract_experience_years py (_clean_text text) = Ok y
       ∧ extract_information self py text = Ok (extracted_info self py text y).
Proof.
  intros Hpy.
  destruct (extract_experience_years_returns py (_clean_text text) Hpy) as [y Hy].
  exists y. split; [done|]. unfold extract_information. by rewrite Hy.
Qed.

Lemma education_level_of_str s : ∃ l, education_level_of (VStr s) = Ok l.
Proof. by eexists. Qed.

Lemma analyze_skills_returns resume job cs qs :
  get resume "skills" (VList []) = strings cs →
  get job "required_skills" (VList []) = strings qs →
  ∃ a, _analyze_skills resume job = Ok a.
Proof.
  intros Hcs Hqs. unfold _analyze_skills. rewrite Hcs, Hqs, !lower_all_strings.
  cbn [mbind result_bind]. destruct (foldl _ _ _). by eexists.
Qed.

Lemma score_resume_returns fos self resume job cs qs c r e e' :
  get resume "skills" (VList []) = strings cs →
  get job "required_skills" (VList []) = strings qs →
  get resume "experience_years" (VNum 0) = VNum c →
  get job "experience_years" (VNum 0) = VNum r →
  get resume "education" (VStr "Not specified") = VStr e →
  get job "education_level" (VStr "High School") = VStr e' →
  ∃ sd, score_resume fos self resume job = Ok sd.
Proof.
  intros Hcs Hqs Hc Hr He He'.
  destruct (analyze_skills_returns resume job cs qs Hcs Hqs) as [a Ha].
  unfold score_resume, _score_skills, _score_experience, _score_education.
  rewrite Hcs, Hqs, Hc, Hr, He, He', Ha, !lower_all_strings.
  by eexists.
Qed.

Lemma process_resume_Some self py text file_type y :
  (50 ≤ String.length (Text.strip text))%nat →
  _extract_experience_years py (_clean_text text) = Ok y →
  process_resume self py (Ok text) file_type
  = Some (<["file_type" := VStr file_type]>
            (<["raw_text" := VStr text]> (extracted_info self py text y))).
Proof.
  intros Hlen Hy. unfold process_resume.
  destruct text as [|a t]; [simpl in Hlen; lia|].
  cbn [String.eqb orb].
  rewrite (proj2 (Nat.ltb_ge _ _)) by done.
  unfold extract_information. rewrite Hy. done.
Qed.

Lemma process_resume_short self py text file_type :
  (String.length (Text.strip text) < 50)%nat →
  process_resume self py (Ok text) file_type = None.
Proof.
  intros Hlen. unfold process_resume.
  rewrite (proj2 (Nat.ltb_lt _ _)) by done. by rewrite orb_true_r.
Qed.

(** X13.  Without a spaCy model, the name [extract_information] reports is
    read from the cleaned text, which is one line: it is the whole
    cleaned text when that passes the test of a name, and
    ["Name not found"] otherwise, so for every text of 50 characters or
    more once cleaned. *)
Theorem X13_extract_information_name self py text info :
  nlp self = None →
  extract_information self py text = Ok info →
  info !! "name"
  = Some (VStr (if name_like (_clean_text text) then _clean_text text
                else "Name not found"))
  ∧ ((50 ≤ String.length (_clean_text text))%nat →
     info !! "name" = Some (VStr "Name not found")).
Proof.
  intros Hnlp (y & _ & ->)%extract_information_Ok.
  assert (extracted_info self py text y !! "name"
          = Some (VStr (_extract_name self (_clean_text text)))) as -> by done.
  unfold _extract_name. rewrite Hnlp, name_fallback_cleaned.
  split; [done|]. intros Hlen.
  destruct (name_like _) eqn:E; [|done].
  apply name_like_short in E. lia.
Qed.

Lemma X13_extract_information_name_witness :
  let info := extracted_info no_model sample_python sample_name_text 0.0 in
  info !! "name" = Some (VStr "Jane Doe")
  ∧ ((50 ≤ String.length (_clean_text sample_name_text))%nat →
     info !! "name" = Some (VStr "Name not found")).
Proof.
  apply (X13_extract_information_name no_model sample_python sample_name_text);
    [reflexivity | reflexivity].
Defined.

(** X14.  The flow of [app.py]: a text of at least 50 characters once
    stripped is processed into a record, and scoring that record
    against a job profile with a required experience that is not
    negative raises nothing: each of the four scores reported is a
    number from 0 to 100.  A shorter text gives no record. *)
Theorem X14_process_then_score self py engine text file_type
        job_title required_skills experience_years education_level :
  float_raises_value_error py →
  reachable engine →
  0 <= experience_years →
  let job := job_profile job_title required_skills experience_years
                         education_level in
  ((String.length (Text.strip text) < 50)%nat
   ∧ process_resume self py (Ok text) file_type = None)
  ∨ ((50 ≤ String.length (Text.strip text))%nat
     ∧ ∃ info sd,
         process_resume self py (Ok text) file_type = Some info
         ∧ score_resume (float_of_str py) engine info job = Ok sd
         ∧ ∀ key, key ∈ score_keys →
             ∃ q, sd !! key = Some (VNum q) ∧ 0 <= q <= 100).
Proof.
  intros Hpy Hreach Hyears job.
  destruct (le_lt_dec 50 (String.length (Text.strip text))) as [Hlen|Hlen].
  2:{ left. split; [done|]. by apply process_resume_short. }
  right. split; [done|].
  destruct (extract_information_returns self py text Hpy) as (y & Hy & _).
  rewrite (process_resume_Some self py text file_type y) by done.
  set (info := <["file_type" := _]> _). exists info.
  destruct (score_resume_returns (float_of_str py) engine info job
              (_extract_skills (_clean_text text)) required_skills y
              experience_years (_extract_education (_clean_text text))
              education_level) as [sd Hsd]; try done.
  exists sd. split; [done|]. split; [done|]. intros key Hkey.
  destruct (score_resume_range (float_of_str py) engine info job
              experience_years sd Hreach eq_refl Hyears Hsd key Hkey)
    as (q & _ & ? & _ & ?).
  by exists q.
Qed.

Lemma X14_process_then_score_witness :
  ((String.length (Text.strip sample_resume_text) < 50)%nat
   ∧ process_resume no_model sample_python (Ok sample_resume_text) "text/plain"
     = None)
  ∨ ((50 ≤ String.length (Text.strip sample_resume_text))%nat
     ∧ ∃ info sd,
         process_resume no_model sample_python (Ok sample_resume_text)
                        "text/plain" = Some info
         ∧ score_resume decimal_float __init__ info
             (job_profile "Engineer" ["python"; "sql"] 3 "PhD") = Ok sd
         ∧ ∀ key, key ∈ score_keys →
             ∃ q, sd !! key = Some (VNum q) ∧ 0 <= q <= 100).
Proof.
  apply (X14_process_then_score no_model sample_python __init__ sample_resume_text
           "text/plain" "Engineer" ["python"; "sql"] 3 "PhD");
    [apply sample_python_float | constructor | vm_compute; discriminate].
Defined.

(** X15.  On a record of [extract_information], [validate_extracted_data]
    raises nothing, and accepts the record exactly when some skill was
    found and the years of experience found are not zero. *)
Theorem X15_validate_extracted self py text info :
  extract_information self py text = Ok info →
  ∃ years,
    _extract_experience_years py (_clean_text text) = Ok years
    ∧ validate_extracted_data py info
      = Ok (bool_decide (_extract_skills (_clean_text text) ≠ [])
            && negb (Qeq_bool years 0)).
Proof.
  intros (y & Hy & ->)%extract_information_Ok. exists y. split; [done|].
  unfold validate_extracted_data.
  assert (extracted_info self py text y !! "skills"
          = Some (strings (_extract_skills (_clean_text text)))) as Hs by done.
  assert (extracted_info self py text y !! "experience_years"
          = Some (VNum y)) as H by done.
  cbn [existsb]. rewrite Hs, H.
  destruct (_extract_skills _) as [|skill skills]; [done|].
  rewrite bool_decide_eq_true_2 by done.
  cbn [strings fmap list_fmap falsy default float orb andb].
  by destruct (Qeq_bool y 0).
Qed.

Lemma X15_validate_extracted_witness :
  ∃ years,
    _extract_experience_years sample_python (_clean_text sample_resume_text)
    = Ok years
    ∧ validate_extracted_data sample_python
        (extracted_info no_model sample_python sample_resume_text 5)
      = Ok (bool_decide (_extract_skills (_clean_text sample_resume_text) ≠ [])
            && negb (Qeq_bool years 0)).
Proof.
  apply (X15_validate_extracted no_model sample_python sample_resume_text).
  reflexivity.
Defined.

(** X16.  When [float] on a [str] raises nothing but [ValueError],
    [_extract_experience_years] raises nothing, and the years it
    returns are from 0 to 50. *)
Theorem X16_extract_experience_years_range py text :
  float_raises_value_error py →
  ∃ years, _extract_experience_years py text = Ok years ∧ 0 <= years <= 50.
Proof.
  intros Hpy. destruct (extract_experience_years_returns py text Hpy) as [y Hy].
  exists y. split; [done|]. by apply (extract_experience_years_plausible py text).
Qed.

Lemma X16_extract_experience_years_range_witness :
  ∃ years, _extract_experience_years sample_python sample_resume_text = Ok years
           ∧ 0 <= years <= 50.
Proof.
  apply (X16_extract_experience_years_range sample_python sample_resume_text).
  apply sample_python_float.
Defined.

End Pipeline.

(** X17.  The name [_extract_name] returns is never empty: with or without
    a model it has at least two words, and the fallback returns at most
    four words in fewer than 50 characters. *)
Theorem X17_extract_name_words self text :
  2 ≤ length (Str.split (_extract_name self text))
  ∧ 2 ≤ length (Str.split (_extract_name_fallback text)) ≤ 4
  ∧ String.length (_extract_name_fallback text) < 50.
Proof.
  split; [apply extract_name_two_words|].
  pose proof (name_fallback_loop_shape
                (take 5 (Str.split_at (Ascii.eqb LF) text))) as (H1 & H2 & _).
  done.
Qed.

(** X18.  With [list(set(xs))] listing the members of [xs] once each,
    [_extract_certifications] returns at most 10 entries, all different,
    each the stripped text of the group of a match of one of the four
    patterns, and of more than 3 and fewer than 100 characters. *)
Theorem X18_extract_certifications_entries py text :
  lists_sets py →
  let certs := _extract_certifications py text in
  NoDup certs ∧ length certs ≤ 10
  ∧ ∀ cert, cert ∈ certs →
      3 < String.length cert < 100 ∧ Text.strip cert = cert
      ∧ ∃ pattern found,
          pattern ∈ cert_patterns
          ∧ found ∈ Rx.findall_group (Re.run pattern) text
          ∧ cert = Text.strip found.
Proof. apply extract_certifications_shape. Qed.

Lemma X18_extract_certifications_entries_witness :
  let certs := _extract_certifications sample_python
                 sample_cert_text in
  NoDup certs ∧ length certs ≤ 10
  ∧ ∀ cert, cert ∈ certs →
      3 < String.length cert < 100 ∧ Text.strip cert = cert
      ∧ ∃ pattern found,
          pattern ∈ cert_patterns
          ∧ found ∈ Rx.findall_group (Re.run pattern)
                      sample_cert_text
          ∧ cert = Text.strip found.
Proof.
  apply (X18_extract_certifications_entries sample_python
           sample_cert_text).
  apply sample_python_sets.
Defined.


(** The scan of the patterns with one group agrees with [Re.findall]. *)
Lemma findall_group_run r p skip s :
  (λ x, Re.group1 x.2) <$> Rx.matches_from (Re.run r) p skip s
  = Re.findall_from r p skip s.
Proof.
  revert p skip.
  induction s as [|a s IH]; intros p [|n]; cbn [Rx.matches_from Re.findall_from].
  - unfold Re.match_here. by destruct (Re.run r p "" None Re.accept) as [[s' g]|].
  - done.
  - unfold Re.match_here.
    destruct (Re.run r p (String a s) None Re.accept) as [[s' g]|].
    + rewrite fmap_cons. cbn [snd]. by rewrite IH.
    + apply IH.
  - apply IH.
Qed.

Lemma findall_group_findall r s : Rx.findall_group (Re.run r) s = Re.findall r s.
Proof. apply findall_group_run. Qed.

(** X19.  With [list(set(xs))] listing the members of [xs] once each,
    [_extract_organizations] returns at most 20 entries, all
    different, each the stripped text of an entity the model labels
    [ORG], and of more than 2 and fewer than 100 characters; it
    returns none when there is no model or the model raises. *)
Theorem X19_extract_organizations_entries self py text :
  lists_sets py →
  let orgs := _extract_organizations self py text in
  NoDup orgs ∧ length orgs ≤ 20
  ∧ (∀ org, org ∈ orgs →
       2 < String.length org < 100 ∧ Text.strip org = org
       ∧ ∃ model ents ent,
           nlp self = Some model ∧ model text = Ok ents ∧ ent ∈ ents
           ∧ label_ ent = "ORG" ∧ org = Text.strip (Extractor.text ent))
  ∧ (nlp self = None → orgs = [])
  ∧ (∀ model e, nlp self = Some model → model text = Raise e → orgs = []).
Proof. apply extract_organizations_shape. Qed.

Lemma X19_extract_organizations_entries_witness :
  let orgs := _extract_organizations with_sample_model sample_python "text" in
  NoDup orgs ∧ length orgs ≤ 20
  ∧ (∀ org, org ∈ orgs →
       2 < String.length org < 100 ∧ Text.strip org = org
       ∧ ∃ model ents ent,
           nlp with_sample_model = Some model ∧ model "text" = Ok ents
           ∧ ent ∈ ents
           ∧ label_ ent = "ORG" ∧ org = Text.strip (Extractor.text ent))
  ∧ (nlp with_sample_model = None → orgs = [])
  ∧ (∀ model e, nlp with_sample_model = Some model →
                model "text" = Raise e → orgs = []).
Proof.
  apply (X19_extract_organizations_entries with_sample_model sample_python "text").
  apply sample_python_sets.
Defined.

(** ** [utils.py] *)

Section UtilsProperties.
Local Open Scope Q_scope.

(** X20.  The color of a score is the color of its recommendation: green
    from 85, orange from 70, dark orange from 55, and red below, for
    a poor and a very poor match alike. *)
Theorem X20_color_of_recommendation (score : Q) :
  Utils.get_color_for_score score = band_color (recommendation_of score).
Proof.
  unfold Utils.get_color_for_score, recommendation_of.
  repeat match goal with
  | |- context [leb ?x ?y] => destruct (leb x y)
  end; reflexivity.
Qed.

End UtilsProperties.

Lemma take_string_length n s : String.length (Text.take n s) = Nat.min n (String.length s).
Proof.
  revert s. induction n as [|n IH]; intros [|a s]; simpl; try done.
  by rewrite IH.
Qed.

(** X21.  [clean_text_for_display] shows the text as [_clean_text] cleans
    it, cut after [max_length] characters with three dots when it is
    longer: what it returns has at most [max_length + 3] characters. *)
Theorem X21_clean_text_for_display_clean_text (text : string) (max_length : nat) :
  Utils.clean_text_for_display text max_length
  = (if max_length <? String.length (_clean_text text)
     then Text.take max_length (_clean_text text) +:+ "..."
     else _clean_text text)
  ∧ String.length (Utils.clean_text_for_display text max_length) ≤ max_length + 3.
Proof.
  assert (Utils.clean_text_for_display text max_length
          = if max_length <? String.length (_clean_text text)
            then Text.take max_length (_clean_text text) +:+ "..."
            else _clean_text text) as ->.
  { unfold Utils.clean_text_for_display.
    destruct text as [|a t]; [by destruct max_length|].
    cbn [String.eqb].
    by rewrite split_words, join_space, clean_text_normalize. }
  split; [done|].
  destruct (_ <? _) eqn:E.
  - rewrite length_append, take_string_length. simpl. lia.
  - apply Nat.ltb_ge in E. lia.
Qed.

(** ** Normalized skill names *)

Lemma isspace_lower_char c : Text.isspace (Text.lower_char c) = Text.isspace c.
Proof. destruct c as [[] [] [] [] [] [] [] []]; reflexivity. Qed.

Lemma lower_lstrip s : Text.lower (Text.lstrip s) = Text.lstrip (Text.lower s).
Proof.
  induction s as [|c s IH]; [done|]. simpl. rewrite isspace_lower_char.
  by destruct (Text.isspace c).
Qed.

Lemma lower_rstrip s : Text.lower (Text.rstrip s) = Text.rstrip (Text.lower s).
Proof.
  induction s as [|c s IH]; [done|]. simpl.
  rewrite isspace_lower_char, <- IH.
  destruct (Text.rstrip s); [by destruct (Text.isspace c)|done].
Qed.

Lemma lower_strip s : Text.lower (Text.strip s) = Text.strip (Text.lower s).
Proof. unfold Text.strip. by rewrite lower_rstrip, lower_lstrip. Qed.

Lemma normal_form_fixed s : Text.strip (Text.lower (Text.strip (Text.lower s)))
                            = Text.strip (Text.lower s).
Proof. by rewrite lower_strip, lower_idemp, strip_idemp. Qed.

(** X22.  [normalize_skill_name] is idempotent: a normalized name is its
    own normal form, whether it comes from the table or not. *)
Theorem X22_normalize_skill_name_idempotent (skill : string) :
  Utils.normalize_skill_name (Utils.normalize_skill_name skill)
  = Utils.normalize_skill_name skill.
Proof.
  assert (Utils.normalize_skill_name skill
          = default (Text.strip (Text.lower skill))
              (Utils.normalizations !! Text.strip (Text.lower skill))) as ->
    by reflexivity.
  destruct (Utils.normalizations !! _) as [v|] eqn:E; cbn [default].
  - apply elem_of_list_to_map_2 in E.
    repeat (apply elem_of_cons in E as [[= _ ->]|E]; [by vm_compute|]).
    by apply elem_of_nil in E.
  - unfold Utils.normalize_skill_name. by rewrite normal_form_fixed, E.
Qed.

(** ** Match percentage *)

Section MatchPercentage.
Local Open Scope Q_scope.

Lemma analyze_skills_lengths resume job a :
  _analyze_skills resume job = Ok a →
  ∃ qs, lower_all (get job "required_skills" (VList [])) = Ok qs
        ∧ (length (matched a) + length (missing a) = length qs)%nat.
Proof.
  unfold _analyze_skills. intros (rs & Hrs & Ha)%bind_Ok.
  apply bind_Ok in Ha as (qs & Hqs & Ha). exists qs. split; [done|].
  pose proof (analyze_required_count rs qs [] []) as Hc.
  destruct (foldl _ _ qs) as [m x]. injection Ha as <-. simpl in *. lia.
Qed.

(** X23.  The match percentage of the skills [_analyze_skills] reports
    as matched, against the job's required skills, is from 0 to 100,
    and it is 100 exactly when no required skill is reported missing. *)
Theorem X23_match_percentage_of_analysis (resume job : gmap string value)
        (required : list string) (a : skill_analysis_t) :
  get job "required_skills" (VList []) = strings required →
  _analyze_skills resume job = Ok a →
  let p := Utils.calculate_match_percentage (matched a) required in
  0 <= p <= 100 ∧ (p == 100 ↔ missing a = []).
Proof.
  intros Hreq (qs & Hqs & Hlen)%analyze_skills_lengths.
  rewrite Hreq, lower_all_strings in Hqs. injection Hqs as <-.
  rewrite length_fmap in Hlen.
  unfold Utils.calculate_match_percentage.
  destruct required as [|q required].
  - simpl in Hlen. split; [by vm_compute|].
    split; [|reflexivity]. intros _. destruct (missing a); [done|simpl in Hlen; lia].
  - cbv zeta. set (n := length (q :: required)) in *.
    assert (0 < of_nat n) as Hn by (apply of_nat_pos; unfold n; simpl; lia).
    pose proof (of_nat_nonneg (length (matched a))) as Hm.
    assert (of_nat (length (matched a)) <= of_nat n) as Hmn by (apply of_nat_le; lia).
    assert (of_nat (length (matched a)) / of_nat n * 100 == 100
            ↔ of_nat (length (matched a)) == of_nat n) as Heq.
    { split; intros H.
      - assert (of_nat (length (matched a)) / of_nat n == 1) as H1 by lra.
        rewrite <- (Qmult_div_r (of_nat (length (matched a))) (of_nat n)) by lra.
        rewrite H1. lra.
      - rewrite H. field. lra. }
    split.
    + split.
      * apply Qmult_le_0_compat; [|discriminate].
        apply Qle_shift_div_l; [done|lra].
      * assert (of_nat (length (matched a)) / of_nat n <= 1);
          [apply Qle_shift_div_r; [done|lra] | lra].
    + rewrite Heq. unfold of_nat. rewrite inject_Z_injective, Nat2Z.inj_iff.
      split.
      * intros H. destruct (missing a); [done|simpl in Hlen; lia].
      * intros H. rewrite H in Hlen. simpl in Hlen. lia.
Qed.

Lemma X23_match_percentage_of_analysis_witness :
  let p := Utils.calculate_match_percentage (matched sample_analysis)
             ["python"; "flask"; "sql"] in
  0 <= p <= 100 ∧ (p == 100 ↔ missing sample_analysis = []).
Proof.
  apply (X23_match_percentage_of_analysis resume_web job_web); reflexivity.
Defined.

End MatchPercentage.

(** ** File types *)

Lemma lower_append a b : Text.lower (a +:+ b) = Text.lower a +:+ Text.lower b.
Proof. induction a as [|c a IH]; [done|]. rewrite !append_cons. simpl. by rewrite IH. Qed.

Lemma dot_lower_char c : Ascii.eqb "." (Text.lower_char c) = Ascii.eqb "." c.
Proof. destruct c as [[] [] [] [] [] [] [] []]; reflexivity. Qed.

Lemma lower_no_dot ext :
  Str.all (λ c, negb (Ascii.eqb "." c)) ext = true →
  Str.all (λ c, negb (Ascii.eqb "." c)) (Text.lower ext) = true.
Proof.
  induction ext as [|c ext IH]; [done|]. cbn [Text.lower Str.all].
  intros [Hc Hext]%andb_true_iff. by rewrite dot_lower_char, Hc, IH.
Qed.

Lemma last_cons_ne {A} (x d : A) l : l ≠ [] → List.last (x :: l) d = List.last l d.
Proof. by destruct l. Qed.

Lemma split_at_last is_sep c0 base ext :
  is_sep c0 = true →
  Str.all (λ c, negb (is_sep c)) ext = true →
  ∃ w ws,
    Str.split_at is_sep (base +:+ String c0 ext) = w :: ws
    ∧ ws ≠ [] ∧ List.last ws "" = ext.
Proof.
  intros Hc0 Hext. induction base as [|a base (w & ws & IH & Hne & Hlast)].
  - rewrite append_nil_l. cbn [Str.split_at]. rewrite Hc0, split_at_whole by done.
    by exists "", [ext].
  - rewrite append_cons. cbn [Str.split_at]. rewrite IH.
    destruct (is_sep a).
    + exists "", (w :: ws). split; [done|]. split; [done|].
      by rewrite last_cons_ne.
    + by exists (String a w), ws.
Qed.

(** X26.  [validate_file_type] judges a file name by what follows its
    last dot, whatever the case of the letters: [base.ext], where [ext]
    has no dot, is accepted exactly when [ext] lower-cased is one of
    the allowed types lower-cased. *)
Theorem X26_validate_file_type (base ext : string) (allowed_types : list string) :
  Str.all (λ c, negb (Ascii.eqb "." c)) ext = true →
  Utils.validate_file_type (base +:+ "." +:+ ext) allowed_types
  = Text.mem (Text.lower ext) (Text.lower <$> allowed_types).
Proof.
  intros Hext. unfold Utils.validate_file_type.
  assert (String.eqb (base +:+ "." +:+ ext) "" = false) as ->.
  { apply String.eqb_neq. by destruct base. }
  rewrite !lower_append.
  change (Text.lower "." +:+ Text.lower ext) with (String "." (Text.lower ext)).
  destruct (split_at_last (Ascii.eqb ".") "." (Text.lower base) (Text.lower ext))
    as (w & ws & -> & Hne & Hlast); [done|by apply lower_no_dot|].
  by rewrite last_cons_ne, Hlast.
Qed.

Lemma X26_validate_file_type_witness :
  Utils.validate_file_type ("Resume.Final" +:+ "." +:+ "PDF") ["pdf"; "docx"; "txt"]
  = Text.mem (Text.lower "PDF") (Text.lower <$> ["pdf"; "docx"; "txt"]).
Proof.
  apply (X26_validate_file_type "Resume.Final" "PDF" ["pdf"; "docx"; "txt"]).
  reflexivity.
Defined.
